(** * waylis/sqlite-db: the SqliteDatabase adapter of src/sqlite.ts

    A shallow embedding of the class [SqliteDatabase] and of the part of its
    platform it relies on (JavaScript values, [Date], [JSON] and the SQL
    statements it sends through better-sqlite3), followed by the properties
    of the adapter stated in the specification.

    Layout:
    - [JS]      JavaScript values the adapter handles ([??], Date)
    - [JSON]    JSON.stringify and JSON.parse on a documented fragment
    - rows, tables and the SQL statements of [prepareStatements]
    - the adapter: one definition per method of the class, under its name
    - [crud], [call], [reachable]: the public methods as data
    - facts about the platform model and about tables
    - the properties of the adapter, each after the lemmas it rests on
    - the same properties on a small database. *)

From Stdlib Require Import List String Ascii ZArith Bool Lia Arith.
From Stdlib Require Import Permutation Sorted.
From Stdlib Require Import DecimalString DecimalZ DecimalPos DecimalN DecimalFacts.
Import ListNotations.

Local Open Scope string_scope.
Local Open Scope Z_scope.

#[local] Set Warnings "-register-all".

(* ------------------------------------------------------------------------- *)
(** * Strings *)

Module Str.

(** [Array.prototype.join]: the elements separated by [sep]. *)
Fixpoint join (sep : string) (l : list string) : string :=
  match l with
  | [] => ""
  | [x] => x
  | x :: l' => x ++ sep ++ join sep l'
  end.

End Str.

(* ------------------------------------------------------------------------- *)
(** * JavaScript values *)

Module JS.

(** A property that may be missing: [undefined], [null] or a value. The
    TypeScript types of the adapter's arguments only allow [undefined] and a
    value; [null] is what the storage engine hands back for SQL NULL. *)
Inductive optional (A : Type) : Type :=
| undefined
| null
| val (a : A).
Arguments undefined {A}.
Arguments null {A}.
Arguments val {A} a.

(** [x ?? null], as a bound statement parameter: [None] is SQL NULL. *)
Definition or_null {A} (x : optional A) : option A :=
  match x with
  | val a => Some a
  | undefined | null => None
  end.

(** [x ?? undefined], where [x] is a column of a result row. *)
Definition or_undefined {A} (x : option A) : optional A :=
  match x with
  | Some a => val a
  | None => undefined
  end.

(** A column of a result row read as it is: SQL NULL is [null]. *)
Definition column {A} (x : option A) : optional A :=
  match x with
  | Some a => val a
  | None => null
  end.

(** A [Date] object: its time value is an integral number of milliseconds
    within the range of ECMAScript time values, or NaN ([None]) for an
    Invalid Date. *)
Record Date : Type := mkDate { DateValue : option Z }.

Definition max_time : Z := 8640000000000000.

(** [TimeClip]. *)
Definition TimeClip (t : Z) : option Z :=
  if Z.abs t <=? max_time then Some t else None.

(** [new Date(ms)] for a number [ms]. *)
Definition new_Date (ms : Z) : Date := mkDate (TimeClip ms).

(** [d.getTime()]: [None] is NaN. *)
Definition getTime (d : Date) : option Z := DateValue d.

(** What every Date object satisfies: its time value is clipped. *)
Definition Date_ok (d : Date) : Prop :=
  match DateValue d with
  | Some t => Z.abs t <= max_time
  | None => True
  end.

End JS.
Import JS.

(* ------------------------------------------------------------------------- *)
(** * JSON

    [JSON.stringify] and [JSON.parse] are built into the platform. They are
    modelled on the fragment of JSON texts the development can represent
    exactly: strings of 8-bit characters, integral numbers in the
    safe-integer range, objects whose keys are distinct and are not array
    indices (so the enumeration order of an object is the order in which its
    keys were written). [parse] tells apart a text that is not JSON
    ([Malformed], on which JSON.parse throws a SyntaxError) from a JSON text
    outside the fragment ([Outside], about which the model says nothing:
    numbers with a fraction or an exponent, minus zero, integers beyond the
    safe range, escapes of characters above 255, objects with a repeated key
    or an array index as key; it is also the answer of the parser when its
    fuel, the length of the text, runs out). *)

Module JSON.

Inductive json : Type :=
| JNull
| JBool (b : bool)
| JNumber (n : Z)
| JString (s : string)
| JArray (l : list json)
| JObject (l : list (string * json)).

Definition dquote : ascii := "034"%char.
Definition backslash : ascii := "092"%char.

Definition max_safe_integer : Z := 9007199254740991.

(** ** JSON.stringify *)

Definition hex_digit (n : N) : ascii :=
  match n with
  | 0 => "0" | 1 => "1" | 2 => "2" | 3 => "3" | 4 => "4" | 5 => "5"
  | 6 => "6" | 7 => "7" | 8 => "8" | 9 => "9" | 10 => "a" | 11 => "b"
  | 12 => "c" | 13 => "d" | 14 => "e" | _ => "f"
  end%N%char.

(** One code unit of QuoteJSONString. *)
Definition escape (c : ascii) : string :=
  let n := N_of_ascii c in
  if (n =? 8)%N then String backslash "b"
  else if (n =? 9)%N then String backslash "t"
  else if (n =? 10)%N then String backslash "n"
  else if (n =? 12)%N then String backslash "f"
  else if (n =? 13)%N then String backslash "r"
  else if (n =? 34)%N then String backslash (String dquote "")
  else if (n =? 92)%N then String backslash (String backslash "")
  else if (n <? 32)%N then
    String backslash
      ("u00" ++ String (hex_digit (n / 16)) (String (hex_digit (n mod 16)) ""))
  else String c "".

Fixpoint escape_all (s : string) : string :=
  match s with
  | "" => ""
  | String c s' => escape c ++ escape_all s'
  end.

Definition quote (s : string) : string :=
  String dquote (escape_all s ++ String dquote "").

Section Tails.
Variable stringify : json -> string.

Fixpoint elements_tail (l : list json) : string :=
  match l with
  | [] => "]"
  | y :: l' => "," ++ stringify y ++ elements_tail l'
  end.

Fixpoint members_tail (l : list (string * json)) : string :=
  match l with
  | [] => "}"
  | (k, y) :: l' => "," ++ quote k ++ ":" ++ stringify y ++ members_tail l'
  end.
End Tails.

Fixpoint stringify (v : json) : string :=
  match v with
  | JNull => "null"
  | JBool true => "true"
  | JBool false => "false"
  | JNumber n => NilZero.string_of_int (Z.to_int n)
  | JString s => quote s
  | JArray [] => "[]"
  | JArray (x :: l) => "[" ++ stringify x ++ elements_tail stringify l
  | JObject [] => "{}"
  | JObject ((k, x) :: l) =>
      "{" ++ quote k ++ ":" ++ stringify x ++ members_tail stringify l
  end.

(** ** JSON.parse *)

Inductive parsed (A : Type) : Type :=
| Parsed (a : A)
| Malformed
| Outside.
Arguments Parsed {A} a.
Arguments Malformed {A}.
Arguments Outside {A}.

Definition pbind {A B} (x : parsed A) (f : A -> parsed B) : parsed B :=
  match x with
  | Parsed a => f a
  | Malformed => Malformed
  | Outside => Outside
  end.

Definition is_ws (c : ascii) : bool :=
  let n := N_of_ascii c in
  ((n =? 32) || (n =? 9) || (n =? 10) || (n =? 13))%N.

Fixpoint skip_ws (s : string) : string :=
  match s with
  | String c r => if is_ws c then skip_ws r else s
  | "" => ""
  end.

Definition hex_value (c : ascii) : option N :=
  let n := N_of_ascii c in
  if ((48 <=? n) && (n <=? 57))%N then Some (n - 48)%N
  else if ((97 <=? n) && (n <=? 102))%N then Some (n - 87)%N
  else if ((65 <=? n) && (n <=? 70))%N then Some (n - 55)%N
  else None.

Definition hex4 (a b c d : ascii) : option N :=
  match hex_value a, hex_value b, hex_value c, hex_value d with
  | Some x, Some y, Some z, Some w => Some (((x * 16 + y) * 16 + z) * 16 + w)%N
  | _, _, _, _ => None
  end.

(** The character a one-letter escape stands for. *)
Definition unescape (e : ascii) : option ascii :=
  let n := N_of_ascii e in
  if (n =? 34)%N then Some dquote
  else if (n =? 92)%N then Some backslash
  else if (n =? 47)%N then Some "/"%char
  else if (n =? 98)%N then Some "008"%char
  else if (n =? 102)%N then Some "012"%char
  else if (n =? 110)%N then Some "010"%char
  else if (n =? 114)%N then Some "013"%char
  else if (n =? 116)%N then Some "009"%char
  else None.

Definition pcons (c : ascii) (x : parsed (string * string)) : parsed (string * string) :=
  pbind x (fun p => Parsed (String c (fst p), snd p)).

(** The characters of a string literal, after its opening quote. *)
Fixpoint parse_chars (s : string) : parsed (string * string) :=
  match s with
  | "" => Malformed
  | String c r =>
      if (c =? dquote)%char then Parsed ("", r)
      else if (c =? backslash)%char then
        match r with
        | "" => Malformed
        | String e r1 =>
            match unescape e with
            | Some x => pcons x (parse_chars r1)
            | None =>
                if (e =? "u")%char then
                  match r1 with
                  | String h1 (String h2 (String h3 (String h4 r2))) =>
                      match hex4 h1 h2 h3 h4 with
                      | Some n =>
                          if (n <? 256)%N then pcons (ascii_of_N n) (parse_chars r2)
                          else Outside
                      | None => Malformed
                      end
                  | _ => Malformed
                  end
                else Malformed
            end
        end
      else if (N_of_ascii c <? 32)%N then Malformed
      else pcons c (parse_chars r)
  end.

Definition digit_of (c : ascii) : option (Decimal.uint -> Decimal.uint) :=
  match c with
  | "0" => Some Decimal.D0 | "1" => Some Decimal.D1 | "2" => Some Decimal.D2
  | "3" => Some Decimal.D3 | "4" => Some Decimal.D4 | "5" => Some Decimal.D5
  | "6" => Some Decimal.D6 | "7" => Some Decimal.D7 | "8" => Some Decimal.D8
  | "9" => Some Decimal.D9 | _ => None
  end%char.

Fixpoint read_digits (s : string) : Decimal.uint * string :=
  match s with
  | "" => (Decimal.Nil, "")
  | String c r =>
      match digit_of c with
      | Some d => let (ds, r') := read_digits r in (d ds, r')
      | None => (Decimal.Nil, s)
      end
  end.

(** A character that continues a number with a fraction or an exponent. *)
Definition continues_number (s : string) : bool :=
  match s with
  | String c _ => ((c =? ".") || (c =? "e") || (c =? "E"))%char
  | "" => false
  end.

Definition parse_number (s : string) : parsed (json * string) :=
  let (neg, s1) :=
    match s with
    | String c r => if (c =? "-")%char then (true, r) else (false, s)
    | "" => (false, s)
    end in
  let (d, rest) := read_digits s1 in
  match d with
  | Decimal.Nil => Malformed
  | Decimal.D0 (Decimal.D0 _ | Decimal.D1 _ | Decimal.D2 _ | Decimal.D3 _
               | Decimal.D4 _ | Decimal.D5 _ | Decimal.D6 _ | Decimal.D7 _
               | Decimal.D8 _ | Decimal.D9 _) => Malformed
  | _ =>
      if continues_number rest then Outside
      else
        let z := Z.of_uint d in
        if neg && (z =? 0) then Outside
        else if max_safe_integer <? z then Outside
        else Parsed (JNumber (if neg then - z else z), rest)
  end.

Fixpoint strip (p s : string) : option string :=
  match p with
  | "" => Some s
  | String a p' =>
      match s with
      | String b s' => if (a =? b)%char then strip p' s' else None
      | "" => None
      end
  end.

Definition literal (p : string) (v : json) (s : string) : parsed (json * string) :=
  match strip p s with
  | Some r => Parsed (v, r)
  | None => Malformed
  end.

Fixpoint nodupb (l : list string) : bool :=
  match l with
  | [] => true
  | k :: l' => negb (existsb (String.eqb k) l') && nodupb l'
  end.

(** An array index written canonically: 0, or digits without a leading 0. *)
Definition is_index (k : string) : bool :=
  match read_digits k with
  | (Decimal.Nil, _) => false
  | (Decimal.D0 Decimal.Nil, "") => true
  | (Decimal.D0 _, _) => false
  | (_, "") => true
  | (_, _) => false
  end.

(** The keys an object of the fragment may have, in the order written. *)
Definition members_ok (l : list (string * json)) : bool :=
  nodupb (map fst l) && forallb (fun kv => negb (is_index (fst kv))) l.

(** The text after [c], when [c] is the next character that is not white
    space. *)
Definition closes (c : ascii) (s : string) : option string :=
  match skip_ws s with
  | String x r => if (x =? c)%char then Some r else None
  | "" => None
  end.

Fixpoint parse_value (fuel : nat) (s : string) : parsed (json * string) :=
  match fuel with
  | O => Outside
  | S fuel =>
      match skip_ws s with
      | "" => Malformed
      | String c r =>
          if (c =? "{")%char then
            match closes "}" r with
            | Some r' => Parsed (JObject [], r')
            | None =>
                pbind (parse_members fuel r) (fun p =>
                  if members_ok (fst p) then Parsed (JObject (fst p), snd p)
                  else Outside)
            end
          else if (c =? "[")%char then
            match closes "]" r with
            | Some r' => Parsed (JArray [], r')
            | None =>
                pbind (parse_elements fuel r) (fun p =>
                  Parsed (JArray (fst p), snd p))
            end
          else if (c =? dquote)%char then
            pbind (parse_chars r) (fun p => Parsed (JString (fst p), snd p))
          else if (c =? "t")%char then literal "rue" (JBool true) r
          else if (c =? "f")%char then literal "alse" (JBool false) r
          else if (c =? "n")%char then literal "ull" JNull r
          else
            match digit_of c with
            | Some _ => parse_number (String c r)
            | None =>
                if (c =? "-")%char then parse_number (String c r) else Malformed
            end
      end
  end

with parse_elements (fuel : nat) (s : string) : parsed (list json * string) :=
  match fuel with
  | O => Outside
  | S fuel =>
      pbind (parse_value fuel s) (fun p =>
        match skip_ws (snd p) with
        | String c r =>
            if (c =? ",")%char then
              pbind (parse_elements fuel r) (fun q =>
                Parsed (fst p :: fst q, snd q))
            else if (c =? "]")%char then Parsed ([fst p], r)
            else Malformed
        | "" => Malformed
        end)
  end

with parse_members (fuel : nat) (s : string)
  : parsed (list (string * json) * string) :=
  match fuel with
  | O => Outside
  | S fuel =>
      match skip_ws s with
      | String c r =>
          if (c =? dquote)%char then
            pbind (parse_chars r) (fun k =>
              match skip_ws (snd k) with
              | String c1 r1 =>
                  if (c1 =? ":")%char then
                    pbind (parse_value fuel r1) (fun p =>
                      match skip_ws (snd p) with
                      | String c2 r2 =>
                          if (c2 =? ",")%char then
                            pbind (parse_members fuel r2) (fun q =>
                              Parsed ((fst k, fst p) :: fst q, snd q))
                          else if (c2 =? "}")%char then
                            Parsed ([(fst k, fst p)], r2)
                          else Malformed
                      | "" => Malformed
                      end)
                  else Malformed
              | "" => Malformed
              end)
          else Malformed
      | "" => Malformed
      end
  end.

(** [JSON.parse(text)]: one value, then nothing but white space. *)
Definition parse (text : string) : parsed json :=
  pbind (parse_value (S (String.length text)) text) (fun p =>
    match skip_ws (snd p) with
    | "" => Parsed (fst p)
    | String _ _ => Malformed
    end).

(** The values of the fragment. *)
Fixpoint json_ok (v : json) : bool :=
  match v with
  | JNull | JBool _ | JString _ => true
  | JNumber n => Z.abs n <=? max_safe_integer
  | JArray l => forallb json_ok l
  | JObject l => members_ok l && forallb (fun kv => json_ok (snd kv)) l
  end.

(** ToBoolean of a value of the fragment. *)
Definition truthy (v : json) : bool :=
  match v with
  | JNull => false
  | JBool b => b
  | JNumber n => negb (n =? 0)
  | JString s => negb (s =? "")%string
  | JArray _ | JObject _ => true
  end.

(** The number of [parse_value] steps a value takes. *)
Section Sizes.
Variable size : json -> nat.

Fixpoint elements_size (l : list json) : nat :=
  match l with
  | [] => O
  | x :: l' => S (size x + elements_size l')
  end.

Fixpoint members_size (l : list (string * json)) : nat :=
  match l with
  | [] => O
  | (_, x) :: l' => S (size x + members_size l')
  end.
End Sizes.

Fixpoint size (v : json) : nat :=
  match v with
  | JArray l => S (elements_size size l)
  | JObject l => S (members_size size l)
  | _ => 1%nat
  end.

(** What follows a value inside a text written by [stringify]: the end of
    the text or one of [,] [\]] [}]. *)
Definition delimited (rest : string) : bool :=
  match rest with
  | "" => true
  | String c _ => ((c =? ",") || (c =? "]") || (c =? "}"))%char
  end.

End JSON.

(* ------------------------------------------------------------------------- *)
(** * Errors and results *)

(** What a method can throw (an [async] method rejects with it). *)
Inductive error : Type :=
| Error (message : string)      (* new Error(message) *)
| SqliteError (code : string)   (* thrown by better-sqlite3 *)
| SyntaxError                   (* thrown by JSON.parse *)
| OutsideFragment.              (* a JSON text the model of JSON.parse does not cover *)

Inductive result (A : Type) : Type :=
| Ok (a : A)
| Throw (e : error).
Arguments Ok {A} a.
Arguments Throw {A} e.

(** The error kinds of the specification (section 7), and the kind each
    thrown value falls under: the adapter has no error classes of its own. *)
Inductive error_kind : Type :=
| NotOpenError
| OpenError
| ConstraintError
| BusyError
| SerializationError.

Definition kind_of (e : error) : option error_kind :=
  match e with
  | Error "DB closed" => Some NotOpenError
  | Error _ => None
  | SqliteError "SQLITE_CONSTRAINT_PRIMARYKEY" => Some ConstraintError
  | SqliteError "SQLITE_CONSTRAINT_NOTNULL" => Some ConstraintError
  | SqliteError "SQLITE_BUSY" => Some BusyError
  | SqliteError "SQLITE_CANTOPEN" => Some OpenError
  | SqliteError _ => None
  | SyntaxError => Some SerializationError
  | OutsideFragment => None
  end.

Definition rbind {A B} (r : result A) (f : A -> result B) : result B :=
  match r with
  | Ok a => f a
  | Throw e => Throw e
  end.

(** [l.map(f)] where [f] may throw: the first exception ends the map. *)
Fixpoint map_result {A B} (f : A -> result B) (l : list A) : result (list B) :=
  match l with
  | [] => Ok []
  | x :: l' =>
      rbind (f x) (fun y => rbind (map_result f l') (fun ys => Ok (y :: ys)))
  end.

(** [JSON.parse(text)] as the adapter sees it. *)
Definition JSON_parse (text : string) : result JSON.json :=
  match JSON.parse text with
  | JSON.Parsed v => Ok v
  | JSON.Malformed => Throw SyntaxError
  | JSON.Outside => Throw OutsideFragment
  end.

(* ------------------------------------------------------------------------- *)
(** * The records of the Database interface (package waylis/shared) *)

Module Chat.
Record t : Type := mk
  { id : string; name : string; creatorID : string; createdAt : Date }.
End Chat.

(** [Partial<Chat>]. *)
Module PartialChat.
Record t : Type := mk
  { id : optional string; name : optional string;
    creatorID : optional string; createdAt : optional Date }.
End PartialChat.

Module Message.
Record t : Type := mk
  { id : string; chatID : string; senderID : string;
    replyTo : optional string; threadID : optional string;
    scene : optional string; step : optional string;
    body : JSON.json; replyRestriction : optional JSON.json;
    createdAt : Date }.
End Message.

Module ConfirmedStep.
Record t : Type := mk
  { id : string; threadID : string; messageID : string;
    scene : string; step : string; createdAt : Date }.
End ConfirmedStep.

Module FileMeta.
Record t : Type := mk
  { id : string; name : string; size : Z; mimeType : string; createdAt : Date }.
End FileMeta.

(* ------------------------------------------------------------------------- *)
(** * Rows and tables

    One record per table of the migrations of [open]: a [TEXT NOT NULL]
    column is a string, a nullable [TEXT] column an optional string, an
    [INTEGER NOT NULL] column an integer. A table is the list of its rows in
    the order they were inserted. *)

(** chats (id TEXT PRIMARY KEY, name TEXT NOT NULL, creatorID TEXT NOT NULL,
    createdAt INTEGER NOT NULL) *)
Module ChatRow.
Record t : Type := mk
  { id : string; name : string; creatorID : string; createdAt : Z }.
End ChatRow.

(** messages (id TEXT PRIMARY KEY, chatID TEXT NOT NULL, senderID TEXT NOT
    NULL, replyTo TEXT, threadID TEXT, scene TEXT, step TEXT, body TEXT NOT
    NULL, replyRestriction TEXT, createdAt INTEGER NOT NULL) *)
Module MessageRow.
Record t : Type := mk
  { id : string; chatID : string; senderID : string;
    replyTo : option string; threadID : option string;
    scene : option string; step : option string;
    body : string; replyRestriction : option string;
    createdAt : Z }.
End MessageRow.

(** confirmed_steps (id TEXT PRIMARY KEY, threadID TEXT NOT NULL, messageID
    TEXT NOT NULL, scene TEXT NOT NULL, step TEXT NOT NULL, createdAt INTEGER
    NOT NULL) *)
Module ConfirmedStepRow.
Record t : Type := mk
  { id : string; threadID : string; messageID : string;
    scene : string; step : string; createdAt : Z }.
End ConfirmedStepRow.

(** files (id TEXT PRIMARY KEY, name TEXT NOT NULL, size INTEGER NOT NULL,
    mimeType TEXT NOT NULL, createdAt INTEGER NOT NULL) *)
Module FileRow.
Record t : Type := mk
  { id : string; name : string; size : Z; mimeType : string; createdAt : Z }.
End FileRow.

Record Tables : Type := mkTables
  { chats : list ChatRow.t;
    messages : list MessageRow.t;
    confirmed_steps : list ConfirmedStepRow.t;
    files : list FileRow.t }.

Definition set_chats (d : Tables) (l : list ChatRow.t) : Tables :=
  mkTables l (messages d) (confirmed_steps d) (files d).
Definition set_messages (d : Tables) (l : list MessageRow.t) : Tables :=
  mkTables (chats d) l (confirmed_steps d) (files d).
Definition set_confirmed_steps (d : Tables) (l : list ConfirmedStepRow.t) : Tables :=
  mkTables (chats d) (messages d) l (files d).
Definition set_files (d : Tables) (l : list FileRow.t) : Tables :=
  mkTables (chats d) (messages d) (confirmed_steps d) l.

(* ------------------------------------------------------------------------- *)
(** * SQL on one table *)

Section Table.
Context {row : Type}.
(** The [id] column (the primary key) and the [createdAt] column. *)
Variable id : row -> string.
Variable createdAt : row -> Z.

Definition has_id (k : string) (r : row) : bool := (id r =? k)%string.

(** [id IN (?, ..., ?)] *)
Definition id_in (ids : list string) (r : row) : bool :=
  existsb (String.eqb (id r)) ids.

(** [createdAt < ?]: a comparison with NULL holds of no row. *)
Definition older_than (bound : option Z) (r : row) : bool :=
  match bound with
  | Some ms => createdAt r <? ms
  | None => false
  end.

(** [INSERT INTO t VALUES (...)]: the primary key refuses a second row with
    the same id; the new row comes last. *)
Definition insert (r : row) (t : list row) : result (list row) :=
  if existsb (has_id (id r)) t
  then Throw (SqliteError "SQLITE_CONSTRAINT_PRIMARYKEY")
  else Ok (t ++ [r])%list.

(** [SELECT * FROM t WHERE p]: the rows are visited in the order of the
    table (SQL leaves the order open when there is no ORDER BY). *)
Definition select (p : row -> bool) (t : list row) : list row := filter p t.

(** [DELETE FROM t WHERE p]: the rows left, and the number of rows deleted
    ([changes]). *)
Definition delete (p : row -> bool) (t : list row) : list row * Z :=
  (filter (fun r => negb (p r)) t, Z.of_nat (List.length (filter p t))).

(** [ORDER BY]: [earlier a b] tells that [a] may stand before [b]; rows that
    compare equal keep the order of the table. *)
Fixpoint place (earlier : row -> row -> bool) (a : row) (l : list row) : list row :=
  match l with
  | [] => [a]
  | b :: l' => if earlier a b then a :: l else b :: place earlier a l'
  end.

Definition order_by (earlier : row -> row -> bool) (l : list row) : list row :=
  fold_right (place earlier) [] l.

(** [ORDER BY createdAt DESC] *)
Definition createdAt_desc (a b : row) : bool := createdAt b <=? createdAt a.

(** [ORDER BY createdAt DESC, id DESC] (ids compare byte by byte). *)
Definition createdAt_desc_id_desc (a b : row) : bool :=
  (createdAt b <? createdAt a)
  || ((createdAt b =? createdAt a) && String.leb (id b) (id a)).

(** [LIMIT ? OFFSET ?]: a negative limit is no limit, a negative offset is 0. *)
Definition limit_offset (limit offset : Z) (l : list row) : list row :=
  let l' := skipn (Z.to_nat offset) l in
  if limit <? 0 then l' else firstn (Z.to_nat limit) l'.

End Table.

(** [coalesce(?, column)] *)
Definition coalesce {A} (x : option A) (old : A) : A :=
  match x with
  | Some a => a
  | None => old
  end.

(** A number bound to a statement: NaN is bound as NULL. *)
Definition bind_number (n : option Z) : option Z := n.

(** A parameter stored in a NOT NULL column. *)
Definition not_null {A B} (x : option A) (k : A -> result B) : result B :=
  match x with
  | Some a => k a
  | None => Throw (SqliteError "SQLITE_CONSTRAINT_NOTNULL")
  end.

(* ------------------------------------------------------------------------- *)
(** * The engine, as the adapter drives it *)

(** [new Sqlite(path, { fileMustExist: false })] *)
Inductive Connection : Type :=
| connection (path : string).

(** A statement sent to the engine. *)
Inductive statement : Type :=
| pragma (directive : string)   (* db.pragma(directive) *)
| migration (sql : string)      (* db.exec(sql), inside the transaction of open *)
| prepared (name : string)      (* this.stmts[name].run / get / all *)
| dynamic (sql : string).       (* this.db.prepare(sql).run / all *)

(** What lies outside the adapter object: the contents of the data file at
    [dbPath] (a table that was never created is an empty one), whether the
    engine serves [DELETE ... RETURNING], and the statements the engine was
    sent, the latest first. The adapter is the only writer of the file. The
    engine is taken to be correct and without resource limits: no lock
    contention, no input or output error, no bound on the length of a
    statement or on the number of its parameters. *)
Record World : Type := mkWorld
  { data : Tables;
    returning : bool;
    log : list statement }.

(** A method body: it returns or throws, and may change the world. The
    methods are [async] over a synchronous driver; they run one at a time. *)
Definition M (A : Type) : Type := World -> result A * World.

Definition ret {A} (a : A) : M A := fun w => (Ok a, w).

Definition throw {A} (e : error) : M A := fun w => (Throw e, w).

Definition bind {A B} (m : M A) (f : A -> M B) : M B :=
  fun w =>
    match m w with
    | (Ok a, w') => f a w'
    | (Throw e, w') => (Throw e, w')
    end.

(** [try { m } catch { handler }] *)
Definition try_catch {A} (m : M A) (handler : M A) : M A :=
  fun w =>
    match m w with
    | (Ok a, w') => (Ok a, w')
    | (Throw _, w') => handler w'
    end.

Definition lift {A} (r : result A) : M A := fun w => (r, w).

Notation "x <- m ;; k" := (bind m (fun x => k))
  (at level 61, m at next level, right associativity).

(** Running a statement: the engine takes note of it, and the tables change
    as the statement says unless it fails. *)
Definition execute {A} (st : statement) (f : Tables -> result (Tables * A)) : M A :=
  fun w =>
    match f (data w) with
    | Ok (d, a) => (Ok a, mkWorld d (returning w) (st :: log w))
    | Throw e => (Throw e, mkWorld (data w) (returning w) (st :: log w))
    end.

(** ** The statements of [prepareStatements] *)

Module stmts.

(** INSERT INTO chats (id, name, creatorID, createdAt) VALUES (?, ?, ?, ?) *)
Definition addChat (id name creatorID : string) (createdAt : option Z)
    (d : Tables) : result (Tables * unit) :=
  not_null createdAt (fun ms =>
    rbind (insert ChatRow.id (ChatRow.mk id name creatorID ms) (chats d))
      (fun l => Ok (set_chats d l, tt))).

(** SELECT * FROM chats WHERE id = ? *)
Definition getChatByID (id : string) (d : Tables)
    : result (Tables * option ChatRow.t) :=
  Ok (d, hd_error (select (has_id ChatRow.id id) (chats d))).

(** SELECT * FROM chats WHERE creatorID = ? ORDER BY createdAt DESC LIMIT ?
    OFFSET ? *)
Definition getChatsByCreatorID (creatorID : string) (limit offset : Z)
    (d : Tables) : result (Tables * list ChatRow.t) :=
  Ok (d, limit_offset limit offset
           (order_by (createdAt_desc ChatRow.createdAt)
              (select (fun r => (ChatRow.creatorID r =? creatorID)%string)
                 (chats d)))).

(** SELECT COUNT(1) as c FROM chats WHERE creatorID = ? *)
Definition countChatsByCreatorID (creatorID : string) (d : Tables)
    : result (Tables * Z) :=
  Ok (d, Z.of_nat (List.length
           (select (fun r => (ChatRow.creatorID r =? creatorID)%string)
              (chats d)))).

(** UPDATE chats SET name = coalesce(?, name), creatorID = coalesce(?,
    creatorID), createdAt = coalesce(?, createdAt) WHERE id = ? *)
Definition editChatByID (name creatorID : option string) (createdAt : option Z)
    (id : string) (d : Tables) : result (Tables * unit) :=
  Ok (set_chats d
        (map (fun r =>
                if has_id ChatRow.id id r
                then ChatRow.mk (ChatRow.id r)
                       (coalesce name (ChatRow.name r))
                       (coalesce creatorID (ChatRow.creatorID r))
                       (coalesce createdAt (ChatRow.createdAt r))
                else r)
           (chats d)), tt).

(** DELETE FROM chats WHERE id = ? RETURNING id, name, creatorID, createdAt
    ([get] hands back the first row returned); an engine without RETURNING
    raises instead. *)
Definition deleteChatByID (supported : bool) (id : string) (d : Tables)
    : result (Tables * option ChatRow.t) :=
  if supported
  then Ok (set_chats d (fst (delete (has_id ChatRow.id id) (chats d))),
           hd_error (select (has_id ChatRow.id id) (chats d)))
  else Throw (SqliteError "SQLITE_ERROR").

(** INSERT INTO messages(id, chatID, senderID, replyTo, threadID, scene,
    step, body, replyRestriction, createdAt) VALUES (?, ?, ?, ?, ?, ?, ?, ?,
    ?, ?) *)
Definition addMessage (id chatID senderID : string)
    (replyTo threadID scene step : option string) (body : string)
    (replyRestriction : option string) (createdAt : option Z)
    (d : Tables) : result (Tables * unit) :=
  not_null createdAt (fun ms =>
    rbind (insert MessageRow.id
             (MessageRow.mk id chatID senderID replyTo threadID scene step
                body replyRestriction ms)
             (messages d))
      (fun l => Ok (set_messages d l, tt))).

(** SELECT * FROM messages WHERE id = ? *)
Definition getMessageByID (id : string) (d : Tables)
    : result (Tables * option MessageRow.t) :=
  Ok (d, hd_error (select (has_id MessageRow.id id) (messages d))).

(** SELECT * FROM messages WHERE chatID = ? ORDER BY createdAt DESC, id DESC
    LIMIT ? OFFSET ? *)
Definition getMessagesByChatID (chatID : string) (limit offset : Z)
    (d : Tables) : result (Tables * list MessageRow.t) :=
  Ok (d, limit_offset limit offset
           (order_by (createdAt_desc_id_desc MessageRow.id MessageRow.createdAt)
              (select (fun r => (MessageRow.chatID r =? chatID)%string)
                 (messages d)))).

(** DELETE FROM messages WHERE createdAt < ? *)
Definition deleteOldMessages (bound : option Z) (d : Tables)
    : result (Tables * Z) :=
  let (left, changes) := delete (older_than MessageRow.createdAt bound) (messages d) in
  Ok (set_messages d left, changes).

(** DELETE FROM messages WHERE chatID = ? *)
Definition deleteMessagesByChatID (chatID : string) (d : Tables)
    : result (Tables * Z) :=
  let (left, changes) :=
    delete (fun r => (MessageRow.chatID r =? chatID)%string) (messages d) in
  Ok (set_messages d left, changes).

(** INSERT INTO confirmed_steps(id, threadID, messageID, scene, step,
    createdAt) VALUES (?, ?, ?, ?, ?, ?) *)
Definition addConfirmedStep (id threadID messageID scene step : string)
    (createdAt : option Z) (d : Tables) : result (Tables * unit) :=
  not_null createdAt (fun ms =>
    rbind (insert ConfirmedStepRow.id
             (ConfirmedStepRow.mk id threadID messageID scene step ms)
             (confirmed_steps d))
      (fun l => Ok (set_confirmed_steps d l, tt))).

(** SELECT * FROM confirmed_steps WHERE threadID = ? ORDER BY createdAt DESC *)
Definition getConfirmedStepsByThreadID (threadID : string) (d : Tables)
    : result (Tables * list ConfirmedStepRow.t) :=
  Ok (d, order_by (createdAt_desc ConfirmedStepRow.createdAt)
           (select (fun r => (ConfirmedStepRow.threadID r =? threadID)%string)
              (confirmed_steps d))).

(** DELETE FROM confirmed_steps WHERE createdAt < ? *)
Definition deleteOldConfirmedSteps (bound : option Z) (d : Tables)
    : result (Tables * Z) :=
  let (left, changes) :=
    delete (older_than ConfirmedStepRow.createdAt bound) (confirmed_steps d) in
  Ok (set_confirmed_steps d left, changes).

(** INSERT INTO files(id, name, size, mimeType, createdAt) VALUES (?, ?, ?,
    ?, ?) *)
Definition addFile (id name : string) (size : Z) (mimeType : string)
    (createdAt : option Z) (d : Tables) : result (Tables * unit) :=
  not_null createdAt (fun ms =>
    rbind (insert FileRow.id (FileRow.mk id name size mimeType ms) (files d))
      (fun l => Ok (set_files d l, tt))).

(** SELECT * FROM files WHERE id = ? *)
Definition getFileByID (id : string) (d : Tables)
    : result (Tables * option FileRow.t) :=
  Ok (d, hd_error (select (has_id FileRow.id id) (files d))).

(** DELETE FROM files WHERE id = ? RETURNING id, name, size, mimeType,
    createdAt *)
Definition deleteFileByID (supported : bool) (id : string) (d : Tables)
    : result (Tables * option FileRow.t) :=
  if supported
  then Ok (set_files d (fst (delete (has_id FileRow.id id) (files d))),
           hd_error (select (has_id FileRow.id id) (files d)))
  else Throw (SqliteError "SQLITE_ERROR").

(** SELECT id FROM files WHERE createdAt < ? *)
Definition deleteOldFiles (bound : option Z) (d : Tables)
    : result (Tables * list string) :=
  Ok (d, map FileRow.id (select (older_than FileRow.createdAt bound) (files d))).

End stmts.

(** ** Statements prepared at the call *)

(** [ids.map(() => "?").join(",")] *)
Definition placeholders (ids : list string) : string :=
  Str.join "," (map (fun _ : string => "?") ids).

Module sql.

(** [`DELETE FROM chats WHERE id = ?`] *)
Definition delete_chat (id : string) (d : Tables) : result (Tables * unit) :=
  Ok (set_chats d (fst (delete (has_id ChatRow.id id) (chats d))), tt).

(** [`SELECT * FROM messages WHERE id IN (${placeholders})`] *)
Definition select_messages_in (ids : list string) (d : Tables)
    : result (Tables * list MessageRow.t) :=
  Ok (d, select (id_in MessageRow.id ids) (messages d)).

(** [`SELECT * FROM files WHERE id IN (${placeholders})`] *)
Definition select_files_in (ids : list string) (d : Tables)
    : result (Tables * list FileRow.t) :=
  Ok (d, select (id_in FileRow.id ids) (files d)).

(** [`DELETE FROM files WHERE id = ?`] *)
Definition delete_file (id : string) (d : Tables) : result (Tables * unit) :=
  Ok (set_files d (fst (delete (has_id FileRow.id id) (files d))), tt).

(** [`DELETE FROM files WHERE id IN (${placeholders})`] *)
Definition delete_files_in (ids : list string) (d : Tables)
    : result (Tables * unit) :=
  Ok (set_files d (fst (delete (id_in FileRow.id ids) (files d))), tt).

End sql.

(* ------------------------------------------------------------------------- *)
(** * class SqliteDatabase *)

Record SqliteDatabase : Type := mkSqliteDatabase
  { dbPath : string;
    db : option Connection;
    pragmas : list string;
    isOpen : bool }.

Definition default_pragmas : list string :=
  [ "journal_mode = WAL";
    "synchronous = NORMAL";
    "cache_size = -2000";
    "busy_timeout = 5000" ].

(** [constructor(dbPath, pragmas?)]: [if (pragmas?.length) this.pragmas =
    pragmas]. *)
Definition constructor (path : string) (given : option (list string))
    : SqliteDatabase :=
  mkSqliteDatabase path None
    (match given with
     | Some (p :: l) => p :: l
     | Some [] | None => default_pragmas
     end)
    false.

(** The statements [open] executes in one transaction. *)
Definition migrations : list string :=
  [ "CREATE TABLE IF NOT EXISTS chats (id TEXT PRIMARY KEY, name TEXT NOT NULL, creatorID TEXT NOT NULL, createdAt INTEGER NOT NULL);";
    "CREATE INDEX IF NOT EXISTS idx_chats_creator_createdAt ON chats(creatorID, createdAt);";
    "CREATE TABLE IF NOT EXISTS messages (id TEXT PRIMARY KEY, chatID TEXT NOT NULL, senderID TEXT NOT NULL, replyTo TEXT, threadID TEXT, scene TEXT, step TEXT, body TEXT NOT NULL, replyRestriction TEXT, createdAt INTEGER NOT NULL);";
    "CREATE INDEX IF NOT EXISTS idx_messages_chat_createdAt ON messages(chatID, createdAt DESC, id DESC);";
    "CREATE TABLE IF NOT EXISTS confirmed_steps (id TEXT PRIMARY KEY, threadID TEXT NOT NULL, messageID TEXT NOT NULL, scene TEXT NOT NULL, step TEXT NOT NULL, createdAt INTEGER NOT NULL);";
    "CREATE INDEX IF NOT EXISTS idx_confirmed_steps_thread_createdAt ON confirmed_steps(threadID, createdAt);";
    "CREATE TABLE IF NOT EXISTS files (id TEXT PRIMARY KEY, name TEXT NOT NULL, size INTEGER NOT NULL, mimeType TEXT NOT NULL, createdAt INTEGER NOT NULL);";
    "CREATE INDEX IF NOT EXISTS idx_files_createdAt ON files(createdAt);" ].

(** [prepareStatements()]: the statements themselves are [stmts] above. *)
Definition prepareStatements (this : SqliteDatabase) : result unit :=
  match db this with
  | None => Throw (Error "DB not open")
  | Some _ => Ok tt
  end.

(** [open()]. The pragmas, then the migrations, reach the engine; the tables
    are there already (empty if the file is new), so that the migrations
    leave [data] as it is. *)
Definition open (this : SqliteDatabase) (w : World)
    : result unit * SqliteDatabase * World :=
  if isOpen this then (Ok tt, this, w)
  else
    let this' :=
      mkSqliteDatabase (dbPath this) (Some (connection (dbPath this)))
        (pragmas this) true in
    (prepareStatements this', this',
     mkWorld (data w) (returning w)
       (rev (map migration migrations) ++ rev (map pragma (pragmas this))
          ++ log w)%list).

(** [close()] *)
Definition close (this : SqliteDatabase) : SqliteDatabase :=
  match db this with
  | None => this
  | Some _ =>
      if negb (isOpen this) then this
      else mkSqliteDatabase (dbPath this) None (pragmas this) false
  end.

(** [if (!this.db) throw new Error("DB closed");] *)
Definition if_db {A} (this : SqliteDatabase) (body : M A) : M A :=
  match db this with
  | None => throw (Error "DB closed")
  | Some _ => body
  end.

(** ** Rows to records *)

Definition rowToChat (row : ChatRow.t) : Chat.t :=
  Chat.mk (ChatRow.id row) (ChatRow.name row) (ChatRow.creatorID row)
    (new_Date (ChatRow.createdAt row)).

(** The properties are evaluated in the order written: [body] is parsed
    before [replyRestriction]. A string is falsy when it is empty. *)
Definition rowToMessage (row : MessageRow.t) : result Message.t :=
  rbind (JSON_parse (MessageRow.body row)) (fun body =>
  rbind (match MessageRow.replyRestriction row with
         | Some text =>
             if (text =? "")%string then Ok undefined
             else rbind (JSON_parse text) (fun v => Ok (val v))
         | None => Ok undefined
         end) (fun replyRestriction =>
  Ok (Message.mk (MessageRow.id row) (MessageRow.chatID row)
        (MessageRow.senderID row)
        (or_undefined (MessageRow.replyTo row))
        (column (MessageRow.threadID row))
        (or_undefined (MessageRow.scene row))
        (or_undefined (MessageRow.step row))
        body replyRestriction
        (new_Date (MessageRow.createdAt row))))).

Definition rowToConfirmedStep (row : ConfirmedStepRow.t) : ConfirmedStep.t :=
  ConfirmedStep.mk (ConfirmedStepRow.id row) (ConfirmedStepRow.threadID row)
    (ConfirmedStepRow.messageID row) (ConfirmedStepRow.scene row)
    (ConfirmedStepRow.step row) (new_Date (ConfirmedStepRow.createdAt row)).

Definition rowToFile (row : FileRow.t) : FileMeta.t :=
  FileMeta.mk (FileRow.id row) (FileRow.name row) (FileRow.size row)
    (FileRow.mimeType row) (new_Date (FileRow.createdAt row)).

(** A default parameter: [offset = 0]. *)
Definition default (d : Z) (x : option Z) : Z :=
  match x with
  | Some v => v
  | None => d
  end.

(** ** ChatDatabase *)

Definition addChat (this : SqliteDatabase) (chat : Chat.t) : M unit :=
  if_db this
    (execute (prepared "addChat")
       (stmts.addChat (Chat.id chat) (Chat.name chat) (Chat.creatorID chat)
          (bind_number (getTime (Chat.createdAt chat))))).

Definition getChatByID (this : SqliteDatabase) (id : string)
    : M (option Chat.t) :=
  if_db this
    (row <- execute (prepared "getChatByID") (stmts.getChatByID id) ;;
     ret (option_map rowToChat row)).

Definition getChatsByCreatorID (this : SqliteDatabase) (creatorID : string)
    (offset limit : option Z) : M (list Chat.t) :=
  if_db this
    (rows <- execute (prepared "getChatsByCreatorID")
               (stmts.getChatsByCreatorID creatorID (default 50 limit)
                  (default 0 offset)) ;;
     ret (map rowToChat rows)).

Definition countChatsByCreatorID (this : SqliteDatabase) (creatorID : string)
    : M Z :=
  if_db this
    (execute (prepared "countChatsByCreatorID")
       (stmts.countChatsByCreatorID creatorID)).

Definition editChatByID (this : SqliteDatabase) (id : string)
    (updated : PartialChat.t) : M (option Chat.t) :=
  if_db this
    (let createdAt :=
       match PartialChat.createdAt updated with
       | val d => bind_number (getTime d)
       | undefined | null => None
       end in
     _ <- execute (prepared "editChatByID")
            (stmts.editChatByID (or_null (PartialChat.name updated))
               (or_null (PartialChat.creatorID updated)) createdAt id) ;;
     getChatByID this id).

Definition deleteChatByID (this : SqliteDatabase) (id : string)
    : M (option Chat.t) :=
  if_db this
    (try_catch
       (row <- (fun w => execute (prepared "deleteChatByID")
                           (stmts.deleteChatByID (returning w) id) w) ;;
        ret (option_map rowToChat row))
       (chat <- getChatByID this id ;;
        match chat with
        | None => ret None
        | Some c =>
            _ <- execute (dynamic "DELETE FROM chats WHERE id = ?")
                   (sql.delete_chat id) ;;
            ret (Some c)
        end)).

(** ** MessageDatabase *)

Definition addMessage (this : SqliteDatabase) (msg : Message.t) : M unit :=
  if_db this
    (execute (prepared "addMessage")
       (stmts.addMessage (Message.id msg) (Message.chatID msg)
          (Message.senderID msg)
          (or_null (Message.replyTo msg))
          (or_null (Message.threadID msg))
          (or_null (Message.scene msg))
          (or_null (Message.step msg))
          (JSON.stringify (Message.body msg))
          (match Message.replyRestriction msg with
           | val v => if JSON.truthy v then Some (JSON.stringify v) else None
           | undefined | null => None
           end)
          (bind_number (getTime (Message.createdAt msg))))).

Definition getMessageByID (this : SqliteDatabase) (id : string)
    : M (option Message.t) :=
  if_db this
    (row <- execute (prepared "getMessageByID") (stmts.getMessageByID id) ;;
     match row with
     | Some r => m <- lift (rowToMessage r) ;; ret (Some m)
     | None => ret None
     end).

Definition getMessagesByIDs (this : SqliteDatabase) (ids : list string)
    : M (list Message.t) :=
  if_db this
    (match ids with
     | [] => ret []
     | _ :: _ =>
         rows <- execute
                   (dynamic ("SELECT * FROM messages WHERE id IN ("
                             ++ placeholders ids ++ ")"))
                   (sql.select_messages_in ids) ;;
         lift (map_result rowToMessage rows)
     end).

Definition getMessagesByChatID (this : SqliteDatabase) (chatID : string)
    (offset limit : option Z) : M (list Message.t) :=
  if_db this
    (rows <- execute (prepared "getMessagesByChatID")
               (stmts.getMessagesByChatID chatID (default 100 limit)
                  (default 0 offset)) ;;
     lift (map_result rowToMessage rows)).

Definition deleteOldMessages (this : SqliteDatabase) (maxDate : Date) : M Z :=
  if_db this
    (execute (prepared "deleteOldMessages")
       (stmts.deleteOldMessages (bind_number (getTime maxDate)))).

Definition deleteMessagesByChatID (this : SqliteDatabase) (chatID : string)
    : M Z :=
  if_db this
    (execute (prepared "deleteMessagesByChatID")
       (stmts.deleteMessagesByChatID chatID)).

(** ** ConfirmedStepDatabase *)

Definition addConfirmedStep (this : SqliteDatabase) (step : ConfirmedStep.t)
    : M unit :=
  if_db this
    (execute (prepared "addConfirmedStep")
       (stmts.addConfirmedStep (ConfirmedStep.id step)
          (ConfirmedStep.threadID step) (ConfirmedStep.messageID step)
          (ConfirmedStep.scene step) (ConfirmedStep.step step)
          (bind_number (getTime (ConfirmedStep.createdAt step))))).

Definition getConfirmedStepsByThreadID (this : SqliteDatabase)
    (threadID : string) : M (list ConfirmedStep.t) :=
  if_db this
    (rows <- execute (prepared "getConfirmedStepsByThreadID")
               (stmts.getConfirmedStepsByThreadID threadID) ;;
     ret (map rowToConfirmedStep rows)).

Definition deleteOldConfirmedSteps (this : SqliteDatabase) (maxDate : Date)
    : M Z :=
  if_db this
    (execute (prepared "deleteOldConfirmedSteps")
       (stmts.deleteOldConfirmedSteps (bind_number (getTime maxDate)))).

(** ** FileDatabase *)

Definition addFile (this : SqliteDatabase) (data : FileMeta.t) : M unit :=
  if_db this
    (execute (prepared "addFile")
       (stmts.addFile (FileMeta.id data) (FileMeta.name data)
          (FileMeta.size data) (FileMeta.mimeType data)
          (bind_number (getTime (FileMeta.createdAt data))))).

Definition getFileByID (this : SqliteDatabase) (id : string)
    : M (option FileMeta.t) :=
  if_db this
    (row <- execute (prepared "getFileByID") (stmts.getFileByID id) ;;
     ret (option_map rowToFile row)).

Definition getFilesByIDs (this : SqliteDatabase) (ids : list string)
    : M (list FileMeta.t) :=
  if_db this
    (match ids with
     | [] => ret []
     | _ :: _ =>
         rows <- execute
                   (dynamic ("SELECT * FROM files WHERE id IN ("
                             ++ placeholders ids ++ ")"))
                   (sql.select_files_in ids) ;;
         ret (map rowToFile rows)
     end).

Definition deleteFileByID (this : SqliteDatabase) (id : string)
    : M (option FileMeta.t) :=
  if_db this
    (try_catch
       (row <- (fun w => execute (prepared "deleteFileByID")
                           (stmts.deleteFileByID (returning w) id) w) ;;
        ret (option_map rowToFile row))
       (file <- getFileByID this id ;;
        match file with
        | None => ret None
        | Some f =>
            _ <- execute (dynamic "DELETE FROM files WHERE id = ?")
                   (sql.delete_file id) ;;
            ret (Some f)
        end)).

Definition deleteOldFiles (this : SqliteDatabase) (maxDate : Date)
    : M (list string) :=
  if_db this
    (ids <- execute (prepared "deleteOldFiles")
              (stmts.deleteOldFiles (bind_number (getTime maxDate))) ;;
     match ids with
     | [] => ret ids
     | _ :: _ =>
         _ <- execute
                (dynamic ("DELETE FROM files WHERE id IN ("
                          ++ placeholders ids ++ ")"))
                (sql.delete_files_in ids) ;;
         ret ids
     end).

(* ------------------------------------------------------------------------- *)
(** * Calls

    The public methods as one type, to speak of every operation at once and
    of the states an adapter reaches through them. *)

Inductive crud : Type :=
| AddChat (chat : Chat.t)
| GetChatByID (id : string)
| GetChatsByCreatorID (creatorID : string) (offset limit : option Z)
| CountChatsByCreatorID (creatorID : string)
| EditChatByID (id : string) (updated : PartialChat.t)
| DeleteChatByID (id : string)
| AddMessage (msg : Message.t)
| GetMessageByID (id : string)
| GetMessagesByIDs (ids : list string)
| GetMessagesByChatID (chatID : string) (offset limit : option Z)
| DeleteOldMessages (maxDate : Date)
| DeleteMessagesByChatID (chatID : string)
| AddConfirmedStep (step : ConfirmedStep.t)
| GetConfirmedStepsByThreadID (threadID : string)
| DeleteOldConfirmedSteps (maxDate : Date)
| AddFile (file : FileMeta.t)
| GetFileByID (id : string)
| GetFilesByIDs (ids : list string)
| DeleteFileByID (id : string)
| DeleteOldFiles (maxDate : Date).

(** What a method resolves to. *)
Inductive answer : Type :=
| Void
| AChat (c : option Chat.t)
| AChats (l : list Chat.t)
| ANumber (n : Z)
| AMessage (m : option Message.t)
| AMessages (l : list Message.t)
| AConfirmedSteps (l : list ConfirmedStep.t)
| AFile (f : option FileMeta.t)
| AFiles (l : list FileMeta.t)
| AIds (l : list string).

Definition answering {A} (f : A -> answer) (m : M A) : M answer :=
  a <- m ;; ret (f a).

Definition perform (this : SqliteDatabase) (c : crud) : M answer :=
  match c with
  | AddChat chat => answering (fun _ => Void) (addChat this chat)
  | GetChatByID id => answering AChat (getChatByID this id)
  | GetChatsByCreatorID c o l => answering AChats (getChatsByCreatorID this c o l)
  | CountChatsByCreatorID c => answering ANumber (countChatsByCreatorID this c)
  | EditChatByID id u => answering AChat (editChatByID this id u)
  | DeleteChatByID id => answering AChat (deleteChatByID this id)
  | AddMessage msg => answering (fun _ => Void) (addMessage this msg)
  | GetMessageByID id => answering AMessage (getMessageByID this id)
  | GetMessagesByIDs ids => answering AMessages (getMessagesByIDs this ids)
  | GetMessagesByChatID c o l => answering AMessages (getMessagesByChatID this c o l)
  | DeleteOldMessages d => answering ANumber (deleteOldMessages this d)
  | DeleteMessagesByChatID c => answering ANumber (deleteMessagesByChatID this c)
  | AddConfirmedStep s => answering (fun _ => Void) (addConfirmedStep this s)
  | GetConfirmedStepsByThreadID t =>
      answering AConfirmedSteps (getConfirmedStepsByThreadID this t)
  | DeleteOldConfirmedSteps d => answering ANumber (deleteOldConfirmedSteps this d)
  | AddFile f => answering (fun _ => Void) (addFile this f)
  | GetFileByID id => answering AFile (getFileByID this id)
  | GetFilesByIDs ids => answering AFiles (getFilesByIDs this ids)
  | DeleteFileByID id => answering AFile (deleteFileByID this id)
  | DeleteOldFiles d => answering AIds (deleteOldFiles this d)
  end.

Inductive call : Type :=
| Open
| Close
| Crud (c : crud).

(** One call on the adapter: the adapter and the world after it. *)
Definition step (c : call) (s : SqliteDatabase * World) : SqliteDatabase * World :=
  match c with
  | Open => let '(_, this, w) := open (fst s) (snd s) in (this, w)
  | Close => (close (fst s), snd s)
  | Crud op => (fst s, snd (perform (fst s) op (snd s)))
  end.

(** The adapters a program can hold: built by the constructor, then used
    through the public methods only. *)
Inductive reachable : SqliteDatabase * World -> Prop :=
| reach_new (path : string) (given : option (list string)) (w : World) :
    reachable (constructor path given, w)
| reach_step (c : call) (s : SqliteDatabase * World) :
    reachable s -> reachable (step c s).

(** The error of a closed adapter, whatever its message. *)
Definition is_Error {A} (r : result A) : bool :=
  match r with
  | Throw (Error _) => true
  | _ => false
  end.

(** A method body that never throws an [Error]. *)
Definition quiet {A} (m : M A) : Prop :=
  forall w, is_Error (fst (m w)) = false.

(** Several calls, one after the other. *)
Definition run (cs : list call) (s : SqliteDatabase * World)
    : SqliteDatabase * World :=
  fold_left (fun s c => step c s) cs s.

(** The primary keys of the four tables. *)
Definition keys_unique (d : Tables) : Prop :=
  NoDup (map ChatRow.id (chats d))
  /\ NoDup (map MessageRow.id (messages d))
  /\ NoDup (map ConfirmedStepRow.id (confirmed_steps d))
  /\ NoDup (map FileRow.id (files d)).

(** A method body that keeps the primary keys unique. *)
Definition keeps_keys {A} (m : M A) : Prop :=
  forall w, keys_unique (data w) -> keys_unique (data (snd (m w))).

(* ------------------------------------------------------------------------- *)
(** * Values the properties speak of *)

(** [{ text: "hello" }] *)
Definition body_hello : JSON.json :=
  JSON.JObject [("text", JSON.JString "hello")].

(** The row [addChat] stores for a chat whose date is [ms]. *)
Definition chatToRow (chat : Chat.t) (ms : Z) : ChatRow.t :=
  ChatRow.mk (Chat.id chat) (Chat.name chat) (Chat.creatorID chat) ms.

(** The row [addMessage] stores for a message whose date is [ms]. *)
Definition messageToRow (msg : Message.t) (ms : Z) : MessageRow.t :=
  MessageRow.mk (Message.id msg) (Message.chatID msg) (Message.senderID msg)
    (or_null (Message.replyTo msg)) (or_null (Message.threadID msg))
    (or_null (Message.scene msg)) (or_null (Message.step msg))
    (JSON.stringify (Message.body msg))
    (match Message.replyRestriction msg with
     | val v => if JSON.truthy v then Some (JSON.stringify v) else None
     | undefined | null => None
     end)
    ms.

(** What [getMessageByID] makes of the row [addMessage] stored for [msg]:
    the same message, except that a missing or [null] optional string comes
    back as [undefined] and a missing [threadID] as [null], and that a
    [replyRestriction] that is falsy comes back as [undefined]. *)
Definition stored_and_read (msg : Message.t) : Message.t :=
  Message.mk (Message.id msg) (Message.chatID msg) (Message.senderID msg)
    (or_undefined (or_null (Message.replyTo msg)))
    (column (or_null (Message.threadID msg)))
    (or_undefined (or_null (Message.scene msg)))
    (or_undefined (or_null (Message.step msg)))
    (Message.body msg)
    (match Message.replyRestriction msg with
     | val v => if JSON.truthy v then val v else undefined
     | undefined | null => undefined
     end)
    (Message.createdAt msg).



(** What the UPDATE of [editChatByID] makes of a row it applies to. *)
Definition updated_row (name creatorID : option string) (createdAt : option Z)
    (r : ChatRow.t) : ChatRow.t :=
  ChatRow.mk (ChatRow.id r) (coalesce name (ChatRow.name r))
    (coalesce creatorID (ChatRow.creatorID r))
    (coalesce createdAt (ChatRow.createdAt r)).

(** A row created at [createdAt] is older than [maxDate]: strictly before
    it. No row is older than an Invalid Date. *)
Definition older (maxDate : Date) (createdAt : Z) : Prop :=
  match getTime maxDate with
  | Some t => createdAt < t
  | None => False
  end.


(** The stored messages of a chat. *)
Definition messages_of (chatID : string) (d : Tables) : list MessageRow.t :=
  filter (fun r => (MessageRow.chatID r =? chatID)%string) (messages d).


(** Two worlds with the same data file on the same engine: they may differ
    in what the engine was sent so far. *)
Definition same_store (w1 w2 : World) : Prop :=
  data w1 = data w2 /\ returning w1 = returning w2.


(** A method body that leaves the tables as they are. *)
Definition reads_only {A} (m : M A) : Prop :=
  forall w, data (snd (m w)) = data w.

(** The operations that only read. *)
Definition is_read (op : crud) : bool :=
  match op with
  | GetChatByID _ | GetChatsByCreatorID _ _ _ | CountChatsByCreatorID _
  | GetMessageByID _ | GetMessagesByIDs _ | GetMessagesByChatID _ _ _
  | GetConfirmedStepsByThreadID _ | GetFileByID _ | GetFilesByIDs _ => true
  | _ => false
  end.

(** The stored chats of a creator, the stored steps of a thread. *)
Definition chats_of (creatorID : string) (d : Tables) : list ChatRow.t :=
  filter (fun r => (ChatRow.creatorID r =? creatorID)%string) (chats d).

Definition steps_of (threadID : string) (d : Tables) : list ConfirmedStepRow.t :=
  filter (fun r => (ConfirmedStepRow.threadID r =? threadID)%string)
    (confirmed_steps d).

(** The rows [addConfirmedStep] and [addFile] store. *)
Definition stepToRow (cs : ConfirmedStep.t) (ms : Z) : ConfirmedStepRow.t :=
  ConfirmedStepRow.mk (ConfirmedStep.id cs) (ConfirmedStep.threadID cs)
    (ConfirmedStep.messageID cs) (ConfirmedStep.scene cs) (ConfirmedStep.step cs)
    ms.


(** [{}] as a partial update. *)
Definition no_update : PartialChat.t :=
  PartialChat.mk undefined undefined undefined undefined.

(** How often the character [c] stands in [s]. *)
Fixpoint count_char (c : ascii) (s : string) : nat :=
  match s with
  | EmptyString => 0
  | String x s' => ((if (x =? c)%char then 1 else 0) + count_char c s')%nat
  end.

(** The same data file, on an engine whose [DELETE ... RETURNING] throws
    when it is run. *)
Definition without_returning (w : World) : World :=
  mkWorld (data w) false (log w).

Definition with_returning (w : World) : World :=
  mkWorld (data w) true (log w).

(* ------------------------------------------------------------------------- *)
(** * A small database, for examples *)

Definition no_tables : Tables := mkTables [] [] [] [].

(** A new data file, on an engine with RETURNING. *)
Definition new_world : World := mkWorld no_tables true [].

(** [new SqliteDatabase("sqlite.db")], opened. *)
Definition opened : SqliteDatabase * World :=
  step Open (constructor "sqlite.db" None, new_world).

Definition chat_1 : Chat.t :=
  Chat.mk "c1" "general" "u1" (new_Date 1700000000000).

Definition message_1 : Message.t :=
  Message.mk "m1" "c1" "u1" undefined undefined undefined undefined
    body_hello undefined (new_Date 1700000000500).

Definition message_2 : Message.t :=
  Message.mk "m2" "c1" "u2" (val "m1") (val "t1") (val "order") (val "pay")
    (JSON.JObject [("text", JSON.JString "bye"); ("n", JSON.JNumber 3)])
    (val (JSON.JObject [("bodyType", JSON.JString "text")]))
    (new_Date 1700000000500).

Definition message_3 : Message.t :=
  Message.mk "m3" "c1" "u1" undefined undefined undefined undefined
    (JSON.JString "later") undefined (new_Date 1700000000900).

Definition step_1 : ConfirmedStep.t :=
  ConfirmedStep.mk "s1" "t1" "m2" "order" "pay" (new_Date 1700000000600).

Definition file_a : FileMeta.t :=
  FileMeta.mk "a" "a.txt" 10 "text/plain" (new_Date 1000).

Definition file_b : FileMeta.t :=
  FileMeta.mk "b" "b.png" 2048 "image/png" (new_Date 2000).


(** A chat, a message, a step and a file whose date is an Invalid Date. *)
Definition Invalid_Date : Date := mkDate None.

Definition undated_chat : Chat.t := Chat.mk "c0" "lost" "u1" Invalid_Date.

Definition undated_message : Message.t :=
  Message.mk "m0" "c1" "u1" undefined undefined undefined undefined
    body_hello undefined Invalid_Date.

Definition undated_step : ConfirmedStep.t :=
  ConfirmedStep.mk "s0" "t1" "m2" "order" "pay" Invalid_Date.

Definition undated_file : FileMeta.t :=
  FileMeta.mk "f0" "f.txt" 1 "text/plain" Invalid_Date.

(** [{ createdAt: new Date(NaN) }] *)
Definition redate_invalid : PartialChat.t :=
  PartialChat.mk undefined undefined undefined (val Invalid_Date).

Definition chat_2 : Chat.t :=
  Chat.mk "c2" "support" "u1" (new_Date 1700000001000).

Definition chat_3 : Chat.t :=
  Chat.mk "c3" "archive" "u1" (new_Date 1699999999000).

(** The adapter after three chats of creator u1 were added: c1, then the
    newer c2, then the older c3. *)
Definition three_chats : SqliteDatabase * World :=
  run [Crud (AddChat chat_1); Crud (AddChat chat_2); Crud (AddChat chat_3)]
    opened.

(** A message with no [threadID]. *)
Definition message_4 : Message.t :=
  Message.mk "m4" "c1" "u2" (val "m1") undefined (val "order") undefined
    (JSON.JArray [JSON.JNumber (-7); JSON.JNull; JSON.JBool true])
    (val (JSON.JObject [("bodyType", JSON.JString "text")]))
    (new_Date 1700000000700).

(** A data file in which the body of message m9 is not a JSON text. *)
Definition damaged_row : MessageRow.t :=
  MessageRow.mk "m9" "c1" "u1" None None None None "{text: hello" None
    1700000000000.

Definition damaged_world : World :=
  mkWorld (mkTables [] [damaged_row] [] []) true [].

(** [{ name: "renamed" }] *)
Definition rename : PartialChat.t :=
  PartialChat.mk undefined (val "renamed") undefined undefined.

(** The adapter after a chat, three messages, a confirmed step and two files
    were added. *)
Definition populated : SqliteDatabase * World :=
  run [ Crud (AddChat chat_1);
        Crud (AddMessage message_1); Crud (AddMessage message_2);
        Crud (AddMessage message_3);
        Crud (AddConfirmedStep step_1);
        Crud (AddFile file_a); Crud (AddFile file_b) ]
    opened.

(* ========================================================================= *)
(** * Facts about the platform model *)

Lemma append_assoc (a b c : string) : (a ++ b) ++ c = a ++ (b ++ c).
Proof. induction a as [|x a IH]; simpl; [reflexivity | now rewrite IH]. Qed.

Lemma append_empty_r (a : string) : a ++ "" = a.
Proof. induction a as [|x a IH]; simpl; [reflexivity | now rewrite IH]. Qed.

Lemma length_append (a b : string) :
  String.length (a ++ b) = (String.length a + String.length b)%nat.
Proof. induction a as [|x a IH]; simpl; [reflexivity | now rewrite IH]. Qed.

Lemma TimeClip_id (t : Z) : Z.abs t <= max_time -> TimeClip t = Some t.
Proof. intros H. unfold TimeClip. apply Z.leb_le in H. now rewrite H. Qed.

(** [new Date(d.getTime())] is [d] again for a valid date [d]. *)
Lemma new_Date_getTime (d : Date) (t : Z) :
  Date_ok d -> getTime d = Some t -> new_Date t = d.
Proof.
  destruct d as [[u|]]; unfold Date_ok, getTime, new_Date; simpl; intros Hok E;
    inversion E; subst.
  now rewrite TimeClip_id.
Qed.

(** ** JSON.parse after JSON.stringify *)

(** A string literal is read back as the string it quotes. *)
Lemma parse_chars_escape_all (s rest : string) :
  JSON.parse_chars (JSON.escape_all s ++ String JSON.dquote rest)
  = JSON.Parsed (s, rest).
Proof.
  induction s as [|c s IH]; [reflexivity|].
  cbn [JSON.escape_all]. rewrite append_assoc.
  destruct c as [[] [] [] [] [] [] [] []];
    (cbn -[JSON.parse_chars JSON.escape_all];
     cbn [JSON.parse_chars]; cbn -[JSON.parse_chars JSON.escape_all append];
     rewrite IH; reflexivity).
Qed.

Lemma delimited_cases (rest : string) :
  JSON.delimited rest = true ->
  rest = "" \/ exists r, rest = String "," r \/ rest = String "]" r
                         \/ rest = String "}" r.
Proof.
  destruct rest as [|c r]; [now left|]. simpl. intros H. right. exists r.
  apply orb_true_iff in H. destruct H as [H|H].
  - apply orb_true_iff in H. destruct H as [H|H]; apply Ascii.eqb_eq in H; subst; auto.
  - apply Ascii.eqb_eq in H; subst; auto.
Qed.

Lemma read_digits_string_of_uint (d : Decimal.uint) (rest : string) :
  JSON.delimited rest = true ->
  JSON.read_digits (NilEmpty.string_of_uint d ++ rest) = (d, rest).
Proof.
  intros H. induction d; simpl; try (rewrite IHd; reflexivity).
  destruct (delimited_cases rest H) as [->|[r [->|[->| ->]]]]; reflexivity.
Qed.

Lemma continues_number_delimited (rest : string) :
  JSON.delimited rest = true -> JSON.continues_number rest = false.
Proof.
  intros H. destruct (delimited_cases rest H) as [->|[r [->|[->| ->]]]]; reflexivity.
Qed.

(** The decimal digits of a positive number do not start with a zero. *)
Lemma to_uint_head (p : positive) :
  match Pos.to_uint p with
  | Decimal.Nil | Decimal.D0 _ => False
  | _ => True
  end.
Proof.
  pose proof (DecimalPos.Unsigned.to_of (Pos.to_uint p)) as E.
  rewrite DecimalPos.Unsigned.of_to in E. simpl in E.
  pose proof (DecimalPos.Unsigned.to_uint_nonnil p) as Hn.
  pose proof (DecimalPos.Unsigned.to_uint_nonzero p) as Hz.
  destruct (Pos.to_uint p) as [|u|u|u|u|u|u|u|u|u|u] eqn:Ed; try exact I.
  - now apply Hn.
  - rewrite DecimalFacts.unorm_D0 in E.
    assert (Hu : u <> Decimal.Nil) by (intros ->; now apply Hz).
    pose proof (DecimalFacts.nb_digits_unorm u Hu) as Hle.
    rewrite <- E in Hle. simpl in Hle. lia.
Qed.

Lemma string_of_uint_to_uint (p : positive) :
  NilZero.string_of_uint (Pos.to_uint p) = NilEmpty.string_of_uint (Pos.to_uint p).
Proof.
  pose proof (to_uint_head p) as H. now destruct (Pos.to_uint p).
Qed.

Lemma of_uint_to_uint (p : positive) : Z.of_uint (Pos.to_uint p) = Z.pos p.
Proof.
  unfold Z.of_uint. now rewrite DecimalPos.Unsigned.of_to.
Qed.

(** The digits of a positive number are read back as that number. *)
Lemma parse_number_digits (neg : bool) (p : positive) (rest : string) :
  JSON.delimited rest = true ->
  Z.pos p <= JSON.max_safe_integer ->
  JSON.parse_number
    ((if neg then "-" else "") ++ NilEmpty.string_of_uint (Pos.to_uint p) ++ rest)
  = JSON.Parsed (JSON.JNumber (if neg then Z.neg p else Z.pos p), rest).
Proof.
  intros Hd Hp.
  assert (Hread : forall s, s = NilEmpty.string_of_uint (Pos.to_uint p) ++ rest ->
            (let (d, r) := JSON.read_digits s in
             match d with
             | Decimal.Nil => JSON.Malformed
             | Decimal.D0 (Decimal.D0 _ | Decimal.D1 _ | Decimal.D2 _ | Decimal.D3 _
                          | Decimal.D4 _ | Decimal.D5 _ | Decimal.D6 _ | Decimal.D7 _
                          | Decimal.D8 _ | Decimal.D9 _) => JSON.Malformed
             | _ =>
                 if JSON.continues_number r then JSON.Outside
                 else
                   let z := Z.of_uint d in
                   if neg && (z =? 0) then JSON.Outside
                   else if JSON.max_safe_integer <? z then JSON.Outside
                   else JSON.Parsed (JSON.JNumber (if neg then - z else z), r)
             end)
            = JSON.Parsed (JSON.JNumber (if neg then Z.neg p else Z.pos p), rest)).
  { intros s ->. rewrite read_digits_string_of_uint by exact Hd.
    pose proof (to_uint_head p) as Hh. pose proof (of_uint_to_uint p) as Hz.
    assert (Hmax : (JSON.max_safe_integer <? Z.pos p) = false) by (apply Z.ltb_ge; exact Hp).
    destruct (Pos.to_uint p) eqn:E; try contradiction;
      rewrite (continues_number_delimited rest Hd); cbv zeta; rewrite Hz;
      rewrite Hmax; destruct neg; reflexivity. }
  pose proof (to_uint_head p) as Hh.
  destruct neg.
  - unfold JSON.parse_number. cbn [append]. cbn [Ascii.eqb Bool.eqb].
    apply Hread. reflexivity.
  - cbn [append]. unfold JSON.parse_number.
    destruct (Pos.to_uint p) eqn:E; try contradiction;
      cbn [NilEmpty.string_of_uint append Ascii.eqb Bool.eqb];
      (apply (Hread _); try rewrite E; reflexivity).
Qed.

Lemma parse_number_stringify (n : Z) (rest : string) :
  JSON.delimited rest = true ->
  Z.abs n <= JSON.max_safe_integer ->
  JSON.parse_number (NilZero.string_of_int (Z.to_int n) ++ rest)
  = JSON.Parsed (JSON.JNumber n, rest).
Proof.
  intros Hd Hn. destruct n as [|p|p].
  - change (NilZero.string_of_int (Z.to_int 0) ++ rest)
      with (String "0" (NilEmpty.string_of_uint Decimal.Nil ++ rest)).
    unfold JSON.parse_number. cbn [Ascii.eqb Bool.eqb].
    change (String "0" (NilEmpty.string_of_uint Decimal.Nil ++ rest))
      with (NilEmpty.string_of_uint (Decimal.D0 Decimal.Nil) ++ rest).
    rewrite read_digits_string_of_uint by exact Hd.
    rewrite (continues_number_delimited rest Hd). reflexivity.
  - cbn [Z.to_int NilZero.string_of_int]. rewrite string_of_uint_to_uint.
    apply (parse_number_digits false p rest Hd). exact Hn.
  - cbn [Z.to_int NilZero.string_of_int]. rewrite string_of_uint_to_uint.
    apply (parse_number_digits true p rest Hd). exact Hn.
Qed.

Lemma size_pos (v : JSON.json) : (1 <= JSON.size v)%nat.
Proof. destruct v; simpl; lia. Qed.

(** The first character of a number decides that a number is read. *)
Lemma parse_value_number (fuel : nat) (c : ascii) (r : string) :
  (match JSON.digit_of c with Some _ => true | None => (c =? "-")%char end) = true ->
  JSON.parse_value (S fuel) (String c r) = JSON.parse_number (String c r).
Proof.
  destruct c as [[] [] [] [] [] [] [] []]; intros H; try discriminate H; reflexivity.
Qed.

(** A text written by [stringify] starts with a character of its value. *)
Lemma stringify_head (v : JSON.json) (rest : string) :
  exists c r, JSON.stringify v ++ rest = String c r
    /\ JSON.is_ws c = false
    /\ (c =? "]")%char = false /\ (c =? "}")%char = false
    /\ (forall n, v = JSON.JNumber n ->
          (match JSON.digit_of c with Some _ => true | None => (c =? "-")%char end) = true).
Proof.
  destruct v as [|[]|n|s|[|x l]|[|[k x] l]];
    try (eexists; eexists; split; [reflexivity|];
         repeat split; try reflexivity; intros ? [=]).
  destruct n as [|p|p].
  - eexists; eexists; split; [reflexivity|]. repeat split; reflexivity.
  - cbn [JSON.stringify Z.to_int NilZero.string_of_int].
    rewrite string_of_uint_to_uint. pose proof (to_uint_head p) as H.
    destruct (Pos.to_uint p); try contradiction;
      (eexists; eexists; split; [reflexivity|]; repeat split; reflexivity).
  - eexists; eexists; split; [reflexivity|]. repeat split; reflexivity.
Qed.

Lemma skip_ws_stringify (v : JSON.json) (rest : string) :
  JSON.skip_ws (JSON.stringify v ++ rest) = JSON.stringify v ++ rest.
Proof.
  destruct (stringify_head v rest) as (c & r & E & Hws & _). rewrite E.
  simpl. now rewrite Hws.
Qed.

Lemma closes_stringify (c : ascii) (v : JSON.json) (rest : string) :
  c = "]"%char \/ c = "}"%char ->
  JSON.closes c (JSON.stringify v ++ rest) = None.
Proof.
  intros Hc. unfold JSON.closes. rewrite skip_ws_stringify.
  destruct (stringify_head v rest) as (x & r & E & _ & H1 & H2 & _). rewrite E.
  destruct Hc as [-> | ->]; [now rewrite H1 | now rewrite H2].
Qed.

Lemma delimited_elements_tail (l : list JSON.json) (rest : string) :
  JSON.delimited (JSON.elements_tail JSON.stringify l ++ rest) = true.
Proof. destruct l; reflexivity. Qed.

Lemma delimited_members_tail (l : list (string * JSON.json)) (rest : string) :
  JSON.delimited (JSON.members_tail JSON.stringify l ++ rest) = true.
Proof. destruct l as [|[k x] l]; reflexivity. Qed.

Lemma quote_append (s rest : string) :
  JSON.quote s ++ rest
  = String JSON.dquote (JSON.escape_all s ++ String JSON.dquote rest).
Proof. unfold JSON.quote. simpl. now rewrite append_assoc. Qed.

Lemma parse_value_string (fuel : nat) (t : string) :
  JSON.parse_value (S fuel) (String JSON.dquote t)
  = JSON.pbind (JSON.parse_chars t)
      (fun p => JSON.Parsed (JSON.JString (fst p), snd p)).
Proof. reflexivity. Qed.

Lemma parse_value_array (fuel : nat) (t : string) :
  JSON.parse_value (S fuel) (String "[" t)
  = match JSON.closes "]" t with
    | Some r' => JSON.Parsed (JSON.JArray [], r')
    | None =>
        JSON.pbind (JSON.parse_elements fuel t)
          (fun p => JSON.Parsed (JSON.JArray (fst p), snd p))
    end.
Proof. reflexivity. Qed.

Lemma parse_value_object (fuel : nat) (t : string) :
  JSON.parse_value (S fuel) (String "{" t)
  = match JSON.closes "}" t with
    | Some r' => JSON.Parsed (JSON.JObject [], r')
    | None =>
        JSON.pbind (JSON.parse_members fuel t)
          (fun p => if JSON.members_ok (fst p)
                    then JSON.Parsed (JSON.JObject (fst p), snd p)
                    else JSON.Outside)
    end.
Proof. reflexivity. Qed.

Lemma parse_elements_step (fuel : nat) (s : string) :
  JSON.parse_elements (S fuel) s
  = JSON.pbind (JSON.parse_value fuel s) (fun p =>
      match JSON.skip_ws (snd p) with
      | String c r =>
          if (c =? ",")%char then
            JSON.pbind (JSON.parse_elements fuel r) (fun q =>
              JSON.Parsed (fst p :: fst q, snd q))
          else if (c =? "]")%char then JSON.Parsed ([fst p], r)
          else JSON.Malformed
      | "" => JSON.Malformed
      end).
Proof. reflexivity. Qed.

Lemma parse_members_step (fuel : nat) (t : string) :
  JSON.parse_members (S fuel) (String JSON.dquote t)
  = JSON.pbind (JSON.parse_chars t) (fun k =>
      match JSON.skip_ws (snd k) with
      | String c1 r1 =>
          if (c1 =? ":")%char then
            JSON.pbind (JSON.parse_value fuel r1) (fun p =>
              match JSON.skip_ws (snd p) with
              | String c2 r2 =>
                  if (c2 =? ",")%char then
                    JSON.pbind (JSON.parse_members fuel r2) (fun q =>
                      JSON.Parsed ((fst k, fst p) :: fst q, snd q))
                  else if (c2 =? "}")%char then
                    JSON.Parsed ([(fst k, fst p)], r2)
                  else JSON.Malformed
              | "" => JSON.Malformed
              end)
          else JSON.Malformed
      | "" => JSON.Malformed
      end).
Proof. reflexivity. Qed.

Lemma closes_quote (k t : string) : JSON.closes "}" (JSON.quote k ++ t) = None.
Proof. rewrite quote_append. reflexivity. Qed.

(** Reading back what [stringify] wrote, with enough fuel: a value, the
    elements of an array after its bracket, the members of an object after
    its brace. *)
Lemma parse_stringify_fuel (fuel : nat) :
  (forall v rest,
      (JSON.size v <= fuel)%nat -> JSON.json_ok v = true ->
      JSON.delimited rest = true ->
      JSON.parse_value fuel (JSON.stringify v ++ rest) = JSON.Parsed (v, rest))
  /\ (forall x l rest,
      (JSON.elements_size JSON.size (x :: l) <= fuel)%nat ->
      forallb JSON.json_ok (x :: l) = true ->
      JSON.parse_elements fuel
        (JSON.stringify x ++ JSON.elements_tail JSON.stringify l ++ rest)
      = JSON.Parsed (x :: l, rest))
  /\ (forall k x l rest,
      (JSON.members_size JSON.size ((k, x) :: l) <= fuel)%nat ->
      forallb (fun kv => JSON.json_ok (snd kv)) ((k, x) :: l) = true ->
      JSON.parse_members fuel
        (JSON.quote k ++ ":" ++ JSON.stringify x
           ++ JSON.members_tail JSON.stringify l ++ rest)
      = JSON.Parsed ((k, x) :: l, rest)).
Proof.
  induction fuel as [|fuel (IHv & IHe & IHm)].
  - repeat split.
    + intros v rest H. pose proof (size_pos v). lia.
    + intros x l rest H. simpl in H. lia.
    + intros k x l rest H. simpl in H. lia.
  - repeat split.
    + (* a value *)
      intros v rest Hsize Hok Hrest.
      destruct v as [|[]|n|s|[|x l]|[|[k x] l]]; try reflexivity.
      * (* number *)
        destruct (stringify_head (JSON.JNumber n) rest) as (c & r & E & _ & _ & _ & Hn).
        rewrite E. rewrite parse_value_number by (apply (Hn n); reflexivity).
        rewrite <- E. apply parse_number_stringify; [exact Hrest|].
        simpl in Hok. now apply Z.leb_le.
      * (* string *)
        change (JSON.stringify (JSON.JString s)) with (JSON.quote s).
        rewrite quote_append, parse_value_string, parse_chars_escape_all.
        reflexivity.
      * (* array *)
        change (JSON.stringify (JSON.JArray (x :: l)))
          with ("[" ++ JSON.stringify x ++ JSON.elements_tail JSON.stringify l).
        rewrite !append_assoc.
        change ("[" ++ JSON.stringify x ++ JSON.elements_tail JSON.stringify l ++ rest)
          with (String "[" (JSON.stringify x ++ JSON.elements_tail JSON.stringify l ++ rest)).
        rewrite parse_value_array.
        rewrite closes_stringify by (now left).
        rewrite IHe.
        -- reflexivity.
        -- simpl in Hsize. simpl. lia.
        -- exact Hok.
      * (* object *)
        change (JSON.stringify (JSON.JObject ((k, x) :: l)))
          with ("{" ++ JSON.quote k ++ ":" ++ JSON.stringify x
                 ++ JSON.members_tail JSON.stringify l).
        rewrite !append_assoc.
        change ("{" ++ JSON.quote k ++ ":" ++ JSON.stringify x
                 ++ JSON.members_tail JSON.stringify l ++ rest)
          with (String "{" (JSON.quote k ++ ":" ++ JSON.stringify x
                 ++ JSON.members_tail JSON.stringify l ++ rest)).
        rewrite parse_value_object, closes_quote.
        simpl in Hok. apply andb_true_iff in Hok. destruct Hok as [Hm Hok].
        rewrite IHm.
        -- cbn [JSON.pbind fst snd]. rewrite Hm. reflexivity.
        -- simpl in Hsize. simpl. lia.
        -- exact Hok.
    + (* the elements of an array *)
      intros x l rest Hsize Hok.
      rewrite parse_elements_step. cbn [JSON.elements_size] in Hsize.
      cbn [forallb] in Hok. apply andb_true_iff in Hok. destruct Hok as [Hx Hl].
      rewrite IHv; [|lia|exact Hx|apply delimited_elements_tail].
      cbn [JSON.pbind fst snd].
      destruct l as [|y l].
      * reflexivity.
      * change (JSON.elements_tail JSON.stringify (y :: l) ++ rest)
          with (String "," ((JSON.stringify y ++ JSON.elements_tail JSON.stringify l) ++ rest)).
        rewrite append_assoc.
        change (JSON.skip_ws (String "," ?t)) with (String "," t).
        cbn [JSON.skip_ws JSON.is_ws]. cbn -[JSON.parse_elements JSON.stringify JSON.elements_tail append].
        rewrite IHe; [reflexivity| |exact Hl].
        cbn [JSON.elements_size] in *. lia.
    + (* the members of an object *)
      intros k x l rest Hsize Hok.
      cbn [JSON.members_size] in Hsize.
      cbn [forallb snd] in Hok. apply andb_true_iff in Hok. destruct Hok as [Hx Hl].
      rewrite quote_append, parse_members_step, parse_chars_escape_all.
      cbn [JSON.pbind fst snd].
      change (":" ++ JSON.stringify x ++ JSON.members_tail JSON.stringify l ++ rest)
        with (String ":" (JSON.stringify x ++ JSON.members_tail JSON.stringify l ++ rest)).
      cbn -[JSON.parse_value JSON.parse_members JSON.stringify JSON.members_tail append].
      rewrite IHv; [|lia|exact Hx|apply delimited_members_tail].
      cbn [JSON.pbind fst snd].
      destruct l as [|[k' y] l].
      * reflexivity.
      * change (JSON.members_tail JSON.stringify ((k', y) :: l) ++ rest)
          with (String "," ((JSON.quote k' ++ ":" ++ JSON.stringify y
                  ++ JSON.members_tail JSON.stringify l) ++ rest)).
        rewrite !append_assoc.
        cbn -[JSON.parse_members JSON.stringify JSON.members_tail append JSON.quote].
        rewrite IHm; [reflexivity| |exact Hl].
        cbn [JSON.members_size] in *. lia.
Qed.

Lemma stringify_nonempty (v : JSON.json) : (1 <= String.length (JSON.stringify v))%nat.
Proof.
  destruct (stringify_head v "") as (c & r & E & _).
  rewrite append_empty_r in E. rewrite E. simpl. lia.
Qed.

Lemma quote_length (k : string) : (2 <= String.length (JSON.quote k))%nat.
Proof. unfold JSON.quote. simpl. rewrite length_append. simpl. lia. Qed.

Lemma elements_tail_length (l : list JSON.json) :
  (forall y, In y l -> (JSON.size y <= String.length (JSON.stringify y))%nat) ->
  (S (JSON.elements_size JSON.size l)
   <= String.length (JSON.elements_tail JSON.stringify l))%nat.
Proof.
  induction l as [|y l IH]; intros H; simpl; [lia|].
  rewrite length_append.
  pose proof (H y (or_introl eq_refl)).
  assert (IH' := IH (fun z Hz => H z (or_intror Hz))). lia.
Qed.

Lemma members_tail_length (l : list (string * JSON.json)) :
  (forall k y, In (k, y) l -> (JSON.size y <= String.length (JSON.stringify y))%nat) ->
  (S (JSON.members_size JSON.size l)
   <= String.length (JSON.members_tail JSON.stringify l))%nat.
Proof.
  induction l as [|[k y] l IH]; intros H; simpl; [lia|].
  pose proof (H k y (or_introl eq_refl)).
  assert (IH' := IH (fun k' z Hz => H k' z (or_intror Hz))).
  repeat (rewrite length_append || simpl String.length). lia.
Qed.

Lemma elements_size_In (y : JSON.json) (l : list JSON.json) :
  In y l -> (JSON.size y < JSON.elements_size JSON.size l)%nat.
Proof.
  induction l as [|x l IH]; intros H; [destruct H|].
  destruct H as [->|H]; simpl; [lia|].
  specialize (IH H). lia.
Qed.

Lemma members_size_In (k : string) (y : JSON.json) (l : list (string * JSON.json)) :
  In (k, y) l -> (JSON.size y < JSON.members_size JSON.size l)%nat.
Proof.
  induction l as [|[k' x] l IH]; intros H; [destruct H|].
  destruct H as [E|H]; simpl.
  - inversion E; subst. lia.
  - specialize (IH H). lia.
Qed.

(** A text is at least as long as the number of steps its value takes. *)
Lemma size_le_length (v : JSON.json) :
  (JSON.size v <= String.length (JSON.stringify v))%nat.
Proof.
  assert (H : forall n v, (JSON.size v <= n)%nat ->
            (JSON.size v <= String.length (JSON.stringify v))%nat).
  { induction n as [|n IH]; intros w Hn.
    - pose proof (size_pos w). lia.
    - destruct w as [|b|m|s|[|x l]|[|[k x] l]];
        try apply stringify_nonempty.
      + change (JSON.stringify (JSON.JArray (x :: l)))
          with ("[" ++ JSON.stringify x ++ JSON.elements_tail JSON.stringify l).
        cbn [JSON.size JSON.elements_size] in *.
        rewrite !length_append. simpl String.length.
        assert (Hx : (JSON.size x <= String.length (JSON.stringify x))%nat)
          by (apply IH; lia).
        assert (Hl : (S (JSON.elements_size JSON.size l)
                      <= String.length (JSON.elements_tail JSON.stringify l))%nat).
        { apply elements_tail_length. intros y Hy. apply IH.
          pose proof (elements_size_In y l Hy). lia. }
        lia.
      + change (JSON.stringify (JSON.JObject ((k, x) :: l)))
          with ("{" ++ JSON.quote k ++ ":" ++ JSON.stringify x
                 ++ JSON.members_tail JSON.stringify l).
        cbn [JSON.size JSON.members_size] in *.
        repeat (rewrite length_append || simpl String.length).
        assert (Hx : (JSON.size x <= String.length (JSON.stringify x))%nat)
          by (apply IH; lia).
        assert (Hl : (S (JSON.members_size JSON.size l)
                      <= String.length (JSON.members_tail JSON.stringify l))%nat).
        { apply members_tail_length. intros k' y Hy. apply IH.
          pose proof (members_size_In k' y l Hy). lia. }
        lia. }
  apply (H (JSON.size v)). lia.
Qed.

(** [JSON.parse(JSON.stringify(v))] is [v], for every value of the fragment. *)
Lemma parse_stringify (v : JSON.json) :
  JSON.json_ok v = true -> JSON.parse (JSON.stringify v) = JSON.Parsed v.
Proof.
  intros Hok. unfold JSON.parse.
  destruct (parse_stringify_fuel (S (String.length (JSON.stringify v)))) as (Hv & _).
  specialize (Hv v "").
  rewrite append_empty_r in Hv. rewrite Hv.
  - reflexivity.
  - pose proof (size_le_length v). lia.
  - exact Hok.
  - reflexivity.
Qed.

Lemma JSON_parse_stringify (v : JSON.json) :
  JSON.json_ok v = true -> JSON_parse (JSON.stringify v) = Ok v.
Proof. intros H. unfold JSON_parse. now rewrite parse_stringify. Qed.

(** A value that is truthy is written as a text that is not empty. *)
Lemma stringify_not_empty (v : JSON.json) : (JSON.stringify v =? "")%string = false.
Proof.
  pose proof (stringify_nonempty v) as H.
  destruct (JSON.stringify v); [simpl in H; lia | reflexivity].
Qed.

(* ========================================================================= *)
(** * Facts about tables *)

Section TableFacts.
Context {row : Type}.
Variable id : row -> string.

Lemma has_id_true (k : string) (r : row) : has_id id k r = true <-> id r = k.
Proof. unfold has_id. apply String.eqb_eq. Qed.

Lemma existsb_has_id (k : string) (t : list row) :
  existsb (has_id id k) t = true <-> In k (map id t).
Proof.
  rewrite existsb_exists, in_map_iff. split.
  - intros (r & Hin & H). exists r. split; [now apply has_id_true | exact Hin].
  - intros (r & H & Hin). exists r. split; [exact Hin | now apply has_id_true].
Qed.

Lemma select_absent (k : string) (t : list row) :
  ~ In k (map id t) -> select (has_id id k) t = [].
Proof.
  intros H. unfold select. induction t as [|r t IH]; [reflexivity|].
  simpl. destruct (has_id id k r) eqn:E.
  - exfalso. apply H. left. now apply has_id_true.
  - apply IH. intros Hin. apply H. now right.
Qed.


Lemma insert_Ok (r : row) (t t' : list row) :
  insert id r t = Ok t' -> t' = (t ++ [r])%list /\ ~ In (id r) (map id t).
Proof.
  unfold insert. destruct (existsb (has_id id (id r)) t) eqn:E; [discriminate|].
  intros [= <-]. split; [reflexivity|].
  intros H. apply existsb_has_id in H. congruence.
Qed.



Lemma NoDup_map_filter (p : row -> bool) (t : list row) :
  NoDup (map id t) -> NoDup (map id (filter p t)).
Proof.
  induction t as [|r t IH]; intros H; [constructor|].
  simpl in H. inversion H as [|? ? Hr Ht]; subst. simpl.
  destruct (p r); [|now apply IH].
  simpl. constructor; [|now apply IH].
  intros Hin. apply Hr. apply in_map_iff in Hin. destruct Hin as (x & Hx & Hin).
  apply filter_In in Hin. apply in_map_iff. exists x. tauto.
Qed.

Lemma NoDup_map_insert (r : row) (t : list row) :
  NoDup (map id t) -> ~ In (id r) (map id t) -> NoDup (map id (t ++ [r])).
Proof.
  intros Hnd Hr. rewrite map_app. simpl.
  apply NoDup_app; [exact Hnd | repeat constructor; intros [] |].
  intros a Ha [<-|[]]. contradiction.
Qed.

(** After [DELETE ... WHERE id = ?] no row has the id. *)
Lemma delete_has_id_absent (k : string) (t : list row) :
  ~ In k (map id (fst (delete (has_id id k) t))).
Proof.
  simpl. intros H. apply in_map_iff in H. destruct H as (r & Hr & Hin).
  apply filter_In in Hin. destruct Hin as [_ Hn].
  apply has_id_true in Hr. rewrite Hr in Hn. discriminate.
Qed.

(** Deleting by an id that no row has leaves the table as it is. *)
Lemma delete_absent (k : string) (t : list row) :
  ~ In k (map id t) -> fst (delete (has_id id k) t) = t.
Proof.
  simpl. induction t as [|r t IH]; intros H; [reflexivity|].
  simpl. destruct (has_id id k r) eqn:E.
  - exfalso. apply H. left. now apply has_id_true.
  - simpl. f_equal. apply IH. intros Hin. apply H. now right.
Qed.

End TableFacts.

(* ========================================================================= *)
(** * The adapter *)

(** ** Inserting and reading back *)

Lemma addChat_inv (this : SqliteDatabase) (chat : Chat.t) (w w1 : World) :
  addChat this chat w = (Ok tt, w1) ->
  db this <> None
  /\ exists ms, getTime (Chat.createdAt chat) = Some ms
       /\ ~ In (Chat.id chat) (map ChatRow.id (chats (data w)))
       /\ data w1 = set_chats (data w) (chats (data w) ++ [chatToRow chat ms]).
Proof.
  unfold addChat, if_db. destruct (db this) as [c|]; [|discriminate].
  unfold execute, stmts.addChat, not_null, bind_number.
  destruct (getTime (Chat.createdAt chat)) as [ms|]; [|discriminate].
  fold (chatToRow chat ms).
  destruct (insert ChatRow.id (chatToRow chat ms) (chats (data w))) as [l|e] eqn:E;
    simpl; [|discriminate].
  intros [= <-]. apply insert_Ok in E. destruct E as [-> Hfresh].
  split; [discriminate|]. exists ms. repeat split; assumption.
Qed.


Lemma getChatByID_eq (this : SqliteDatabase) (id : string) (w : World) :
  db this <> None ->
  getChatByID this id w
  = (Ok (option_map rowToChat
           (hd_error (select (has_id ChatRow.id id) (chats (data w))))),
     mkWorld (data w) (returning w) (prepared "getChatByID" :: log w)).
Proof.
  intros Hdb. unfold getChatByID, if_db. destruct (db this); [|contradiction].
  reflexivity.
Qed.

Lemma rowToChat_chatToRow (chat : Chat.t) (ms : Z) :
  Date_ok (Chat.createdAt chat) -> getTime (Chat.createdAt chat) = Some ms ->
  rowToChat (chatToRow chat ms) = chat.
Proof.
  intros Hok Ht. destruct chat as [i n c d]. unfold rowToChat, chatToRow. simpl in *.
  now rewrite (new_Date_getTime d ms Hok Ht).
Qed.

Lemma addMessage_inv (this : SqliteDatabase) (msg : Message.t) (w w1 : World) :
  addMessage this msg w = (Ok tt, w1) ->
  db this <> None
  /\ exists ms, getTime (Message.createdAt msg) = Some ms
       /\ ~ In (Message.id msg) (map MessageRow.id (messages (data w)))
       /\ data w1 = set_messages (data w) (messages (data w) ++ [messageToRow msg ms]).
Proof.
  unfold addMessage, if_db. destruct (db this) as [c|]; [|discriminate].
  unfold execute, stmts.addMessage, not_null, bind_number.
  destruct (getTime (Message.createdAt msg)) as [ms|]; [|discriminate].
  fold (messageToRow msg ms).
  destruct (insert MessageRow.id (messageToRow msg ms) (messages (data w))) as [l|e] eqn:E;
    simpl; [|discriminate].
  intros [= <-]. apply insert_Ok in E. destruct E as [-> Hfresh].
  split; [discriminate|]. exists ms. repeat split; assumption.
Qed.


Lemma getMessageByID_eq (this : SqliteDatabase) (id : string) (w : World) :
  db this <> None ->
  fst (getMessageByID this id w)
  = match hd_error (select (has_id MessageRow.id id) (messages (data w))) with
    | Some r => rbind (rowToMessage r) (fun m => Ok (Some m))
    | None => Ok None
    end.
Proof.
  intros Hdb. unfold getMessageByID, if_db. destruct (db this); [|contradiction].
  unfold bind, execute, stmts.getMessageByID. simpl.
  destruct (hd_error _) as [r|]; [|reflexivity].
  unfold lift, ret. destruct (rowToMessage r); reflexivity.
Qed.

Lemma rowToMessage_messageToRow (msg : Message.t) (ms : Z) :
  Date_ok (Message.createdAt msg) ->
  getTime (Message.createdAt msg) = Some ms ->
  JSON.json_ok (Message.body msg) = true ->
  (forall v, Message.replyRestriction msg = val v -> JSON.json_ok v = true) ->
  rowToMessage (messageToRow msg ms) = Ok (stored_and_read msg).
Proof.
  intros Hd Ht Hb Hr. unfold rowToMessage, messageToRow, stored_and_read.
  cbn [MessageRow.body MessageRow.replyRestriction MessageRow.id MessageRow.chatID
       MessageRow.senderID MessageRow.replyTo MessageRow.threadID MessageRow.scene
       MessageRow.step MessageRow.createdAt].
  rewrite (JSON_parse_stringify _ Hb). cbn [rbind].
  rewrite (new_Date_getTime _ ms Hd Ht).
  destruct (Message.replyRestriction msg) as [| |v]; try reflexivity.
  destruct (JSON.truthy v); [|reflexivity].
  rewrite stringify_not_empty.
  rewrite (JSON_parse_stringify v (Hr v eq_refl)). reflexivity.
Qed.





(** ** Rows that do not decode *)


(** ** Open and closed *)

(** [db] is set exactly while [isOpen] holds. *)
Lemma reachable_db_isOpen (s : SqliteDatabase * World) :
  reachable s -> (db (fst s) = None <-> isOpen (fst s) = false).
Proof.
  induction 1 as [path given w | c [this w] Hr IH].
  - simpl. tauto.
  - simpl in IH. destruct c as [| |op]; simpl.
    + unfold open. destruct (isOpen this) eqn:E; simpl.
      * rewrite E. exact IH.
      * split; discriminate.
    + unfold close. destruct (db this) eqn:Ed; simpl.
      * destruct (isOpen this) eqn:E; simpl; [tauto|]. rewrite Ed, E. exact IH.
      * rewrite Ed. exact IH.
    + exact IH.
Qed.

Lemma close_db (s : SqliteDatabase * World) :
  reachable s -> db (close (fst s)) = None.
Proof.
  intros Hr. apply reachable_db_isOpen in Hr. unfold close.
  destruct (db (fst s)) eqn:Ed; [|exact Ed].
  destruct (isOpen (fst s)) eqn:E; simpl; [reflexivity|].
  destruct Hr as [_ Hr]. specialize (Hr eq_refl). congruence.
Qed.

(** Without a connection every operation throws, and nothing reaches the
    engine. *)
Lemma perform_closed (this : SqliteDatabase) (op : crud) (w : World) :
  db this = None -> perform this op w = (Throw (Error "DB closed"), w).
Proof.
  intros H. destruct op; unfold perform, answering, bind;
    [ unfold addChat | unfold getChatByID | unfold getChatsByCreatorID
    | unfold countChatsByCreatorID | unfold editChatByID | unfold deleteChatByID
    | unfold addMessage | unfold getMessageByID | unfold getMessagesByIDs
    | unfold getMessagesByChatID | unfold deleteOldMessages
    | unfold deleteMessagesByChatID | unfold addConfirmedStep
    | unfold getConfirmedStepsByThreadID | unfold deleteOldConfirmedSteps
    | unfold addFile | unfold getFileByID | unfold getFilesByIDs
    | unfold deleteFileByID | unfold deleteOldFiles ];
    unfold if_db; rewrite H; reflexivity.
Qed.

(** Calls other than [open] leave a closed adapter closed. *)
Lemma run_closed (cs : list call) (s : SqliteDatabase * World) :
  Forall (fun c => c <> Open) cs -> db (fst s) = None ->
  db (fst (run cs s)) = None.
Proof.
  revert s. induction cs as [|c cs IH]; intros s Hcs Hdb; [exact Hdb|].
  inversion Hcs as [|? ? Hc Hcs']; subst. simpl. apply IH; [exact Hcs'|].
  destruct c as [| |op]; simpl.
  - contradiction.
  - unfold close. now rewrite Hdb.
  - exact Hdb.
Qed.

Lemma open_db (this : SqliteDatabase) (w : World) :
  (db this = None <-> isOpen this = false) ->
  db (fst (step Open (this, w))) <> None
  /\ isOpen (fst (step Open (this, w))) = true.
Proof.
  intros H. simpl. unfold open. destruct (isOpen this) eqn:E; simpl.
  - split; [|exact E]. intros Hn. apply H in Hn. discriminate.
  - split; [discriminate | reflexivity].
Qed.

Lemma quiet_ret {A} (a : A) : quiet (ret a).
Proof. intros w. reflexivity. Qed.

Lemma quiet_bind {A B} (m : M A) (f : A -> M B) :
  quiet m -> (forall a, quiet (f a)) -> quiet (bind m f).
Proof.
  intros Hm Hf w. unfold bind. specialize (Hm w).
  destruct (m w) as [[a|e] w']; [apply Hf|]. simpl in *. exact Hm.
Qed.

Lemma quiet_try_catch {A} (m handler : M A) :
  quiet handler -> quiet (try_catch m handler).
Proof.
  intros Hh w. unfold try_catch.
  destruct (m w) as [[a|e] w']; [reflexivity | apply Hh].
Qed.

Lemma quiet_lift {A} (r : result A) : is_Error r = false -> quiet (lift r).
Proof. intros H w. exact H. Qed.

Lemma quiet_execute {A} (st : statement) (f : Tables -> result (Tables * A)) :
  (forall d, is_Error (f d) = false) -> quiet (execute st f).
Proof.
  intros H w. unfold execute. specialize (H (data w)).
  destruct (f (data w)) as [[d a]|e]; [reflexivity | exact H].
Qed.

Lemma quiet_if_db {A} (this : SqliteDatabase) (body : M A) :
  db this <> None -> quiet body -> quiet (if_db this body).
Proof. intros H Hb. unfold if_db. now destruct (db this). Qed.

Lemma is_Error_not_null {A B} (x : option A) (k : A -> result B) :
  (forall a, is_Error (k a) = false) -> is_Error (not_null x k) = false.
Proof. intros H. destruct x; [apply H | reflexivity]. Qed.

Lemma is_Error_insert {row A} (key : row -> string) (r : row) (t : list row)
    (k : list row -> result A) :
  (forall l, is_Error (k l) = false) ->
  is_Error (rbind (insert key r t) k) = false.
Proof.
  intros H. unfold insert. destruct (existsb _ t); [reflexivity | apply H].
Qed.

Lemma is_Error_rowToMessage (r : MessageRow.t) : is_Error (rowToMessage r) = false.
Proof.
  unfold rowToMessage, JSON_parse.
  destruct (JSON.parse (MessageRow.body r)); simpl; try reflexivity.
  destruct (MessageRow.replyRestriction r) as [text|]; simpl; try reflexivity.
  destruct (text =? "")%string; simpl; try reflexivity.
  destruct (JSON.parse text); reflexivity.
Qed.

Lemma is_Error_map_result (l : list MessageRow.t) :
  is_Error (map_result rowToMessage l) = false.
Proof.
  induction l as [|r l IH]; simpl; [reflexivity|].
  pose proof (is_Error_rowToMessage r) as Hr.
  destruct (rowToMessage r) as [x|e]; simpl; [|exact Hr].
  destruct (map_result rowToMessage l) as [xs|e]; simpl; [reflexivity | exact IH].
Qed.

Lemma quiet_getChatByID (this : SqliteDatabase) (id : string) :
  db this <> None -> quiet (getChatByID this id).
Proof.
  intros H. apply quiet_if_db; [exact H|]. apply quiet_bind.
  - now apply quiet_execute.
  - intros a. apply quiet_ret.
Qed.

Lemma quiet_getFileByID (this : SqliteDatabase) (id : string) :
  db this <> None -> quiet (getFileByID this id).
Proof.
  intros H. apply quiet_if_db; [exact H|]. apply quiet_bind.
  - now apply quiet_execute.
  - intros a. apply quiet_ret.
Qed.

Ltac quiet_steps :=
  repeat first
    [ apply quiet_ret
    | apply quiet_bind; [|intros ?]
    | apply quiet_execute; intros ?
    | apply quiet_lift
    | apply is_Error_not_null; intros ?
    | apply is_Error_insert; intros ?
    | apply is_Error_map_result
    | apply is_Error_rowToMessage
    | reflexivity ].

(** With a connection, no operation throws the error of a closed adapter. *)
Lemma perform_open (this : SqliteDatabase) (op : crud) :
  db this <> None -> quiet (perform this op).
Proof.
  intros H. destruct op; unfold perform, answering;
    (apply quiet_bind; [|intros ?; apply quiet_ret]).
  - apply quiet_if_db; [exact H|]. quiet_steps.
  - now apply quiet_getChatByID.
  - apply quiet_if_db; [exact H|]. quiet_steps.
  - apply quiet_if_db; [exact H|]. quiet_steps.
  - apply quiet_if_db; [exact H|]. apply quiet_bind; [quiet_steps|].
    intros _. now apply quiet_getChatByID.
  - apply quiet_if_db; [exact H|]. apply quiet_try_catch.
    apply quiet_bind; [now apply quiet_getChatByID|].
    intros [c|]; quiet_steps.
  - apply quiet_if_db; [exact H|]. quiet_steps.
  - apply quiet_if_db; [exact H|]. apply quiet_bind; [quiet_steps|].
    intros [r|]; quiet_steps.
  - apply quiet_if_db; [exact H|]. destruct ids; quiet_steps.
  - apply quiet_if_db; [exact H|]. quiet_steps.
  - apply quiet_if_db; [exact H|]. apply quiet_execute. intros d.
    unfold stmts.deleteOldMessages. now destruct (delete _ _).
  - apply quiet_if_db; [exact H|]. apply quiet_execute. intros d.
    unfold stmts.deleteMessagesByChatID. now destruct (delete _ _).
  - apply quiet_if_db; [exact H|]. quiet_steps.
  - apply quiet_if_db; [exact H|]. quiet_steps.
  - apply quiet_if_db; [exact H|]. apply quiet_execute. intros d.
    unfold stmts.deleteOldConfirmedSteps. now destruct (delete _ _).
  - apply quiet_if_db; [exact H|]. quiet_steps.
  - now apply quiet_getFileByID.
  - apply quiet_if_db; [exact H|]. destruct ids; quiet_steps.
  - apply quiet_if_db; [exact H|]. apply quiet_try_catch.
    apply quiet_bind; [now apply quiet_getFileByID|].
    intros [c|]; quiet_steps.
  - apply quiet_if_db; [exact H|]. apply quiet_bind; [quiet_steps|].
    intros [|i ids]; quiet_steps.
Qed.

Lemma run_reachable (cs : list call) (s : SqliteDatabase * World) :
  reachable s -> reachable (run cs s).
Proof.
  revert s. induction cs as [|c cs IH]; intros s H; [exact H|].
  simpl. apply IH. now constructor.
Qed.

(** C5. After [close()], every operation on chats, messages, confirmed steps
    and files throws [Error("DB closed")], the specification's NotOpenError,
    and reaches neither the tables nor the engine; this goes on through any
    further calls that are not [open()]. After [open()] the connection is
    back and no operation throws that error. *)
Theorem closed_adapter_rejects
    (s : SqliteDatabase * World) (cs : list call) (op : crud) :
  reachable s ->
  Forall (fun c => c <> Open) cs ->
  let s' := run cs (step Close s) in
  perform (fst s') op (snd s') = (Throw (Error "DB closed"), snd s')
  /\ kind_of (Error "DB closed") = Some NotOpenError
  /\ db (fst (step Open s')) <> None
  /\ isOpen (fst (step Open s')) = true
  /\ is_Error (fst (perform (fst (step Open s')) op (snd (step Open s')))) = false.
Proof.
  intros Hr Hcs s'.
  assert (Hclosed : db (fst s') = None).
  { apply run_closed; [exact Hcs|]. simpl. now apply close_db. }
  assert (Hr' : reachable s') by (apply run_reachable; now constructor).
  pose proof (reachable_db_isOpen s' Hr') as Hinv.
  destruct s' as [this w]. simpl in Hclosed, Hinv.
  destruct (open_db this w Hinv) as [Hdb Hopen].
  repeat split.
  - now apply perform_closed.
  - exact Hdb.
  - exact Hopen.
  - now apply perform_open.
Qed.

(** ** Deleting by id *)

Lemma select_none_absent {row : Type} (key : row -> string) (k : string) (t : list row) :
  hd_error (select (has_id key k) t) = None -> ~ In k (map key t).
Proof.
  unfold select. induction t as [|r t IH]; simpl; [tauto|].
  destruct (has_id key k r) eqn:E; simpl; [discriminate|].
  intros H [Hk|Hin]; [|now apply IH].
  apply (has_id_true key) in Hk. congruence.
Qed.

Lemma select_some_present {row : Type} (key : row -> string) (k : string)
    (t : list row) (r : row) :
  hd_error (select (has_id key k) t) = Some r -> In r t /\ key r = k.
Proof.
  intros H. assert (Hin : In r (select (has_id key k) t)).
  { destruct (select (has_id key k) t); [discriminate|]. inversion H. now left. }
  apply filter_In in Hin. destruct Hin as [Hin Hk]. split; [exact Hin|].
  now apply (has_id_true key).
Qed.

Lemma select_present_some {row : Type} (key : row -> string) (k : string) (t : list row) :
  In k (map key t) -> exists r, hd_error (select (has_id key k) t) = Some r.
Proof.
  intros H. destruct (hd_error (select (has_id key k) t)) as [r|] eqn:E.
  - now exists r.
  - apply select_none_absent in E. contradiction.
Qed.

Lemma set_chats_same (d : Tables) : set_chats d (chats d) = d.
Proof. now destruct d. Qed.

Lemma set_files_same (d : Tables) : set_files d (files d) = d.
Proof. now destruct d. Qed.

(** What [deleteChatByID] returns and leaves behind, whether or not the
    engine serves RETURNING. *)
Lemma deleteChatByID_eq (this : SqliteDatabase) (id : string) (w : World) :
  db this <> None ->
  fst (deleteChatByID this id w)
  = Ok (option_map rowToChat (hd_error (select (has_id ChatRow.id id) (chats (data w)))))
  /\ data (snd (deleteChatByID this id w))
     = set_chats (data w) (fst (delete (has_id ChatRow.id id) (chats (data w)))).
Proof.
  intros Hdb. unfold deleteChatByID, getChatByID, if_db.
  destruct (db this) as [c|]; [clear Hdb|contradiction].
  unfold try_catch, bind, execute, stmts.deleteChatByID, stmts.getChatByID, ret.
  destruct (returning w); cbn [fst snd data].
  - split; reflexivity.
  - destruct (hd_error (select (has_id ChatRow.id id) (chats (data w)))) as [r|] eqn:E;
      cbn [option_map fst snd data sql.delete_chat].
    + split; reflexivity.
    + split; [reflexivity|]. apply select_none_absent in E.
      rewrite (delete_absent ChatRow.id id _ E). now rewrite set_chats_same.
Qed.

Lemma deleteFileByID_eq (this : SqliteDatabase) (id : string) (w : World) :
  db this <> None ->
  fst (deleteFileByID this id w)
  = Ok (option_map rowToFile (hd_error (select (has_id FileRow.id id) (files (data w)))))
  /\ data (snd (deleteFileByID this id w))
     = set_files (data w) (fst (delete (has_id FileRow.id id) (files (data w)))).
Proof.
  intros Hdb. unfold deleteFileByID, getFileByID, if_db.
  destruct (db this) as [c|]; [clear Hdb|contradiction].
  unfold try_catch, bind, execute, stmts.deleteFileByID, stmts.getFileByID, ret.
  destruct (returning w); cbn [fst snd data].
  - split; reflexivity.
  - destruct (hd_error (select (has_id FileRow.id id) (files (data w)))) as [r|] eqn:E;
      cbn [option_map fst snd data sql.delete_file].
    + split; reflexivity.
    + split; [reflexivity|]. apply select_none_absent in E.
      rewrite (delete_absent FileRow.id id _ E). now rewrite set_files_same.
Qed.

Lemma getFileByID_eq (this : SqliteDatabase) (id : string) (w : World) :
  db this <> None ->
  getFileByID this id w
  = (Ok (option_map rowToFile
           (hd_error (select (has_id FileRow.id id) (files (data w))))),
     mkWorld (data w) (returning w) (prepared "getFileByID" :: log w)).
Proof.
  intros Hdb. unfold getFileByID, if_db. destruct (db this); [|contradiction].
  reflexivity.
Qed.

Lemma In_delete_has_id {row : Type} (key : row -> string) (k : string)
    (t : list row) (r : row) :
  In r (fst (delete (has_id key k) t)) <-> In r t /\ key r <> k.
Proof.
  simpl. rewrite filter_In. split; intros [Hin H]; split; try exact Hin.
  - intros E. apply (has_id_true key) in E. rewrite E in H. discriminate.
  - destruct (has_id key k r) eqn:E; [|reflexivity].
    apply (has_id_true key) in E. contradiction.
Qed.

Ltac split_ands := repeat match goal with |- _ /\ _ => split end.

(** C3. [deleteChatByID] returns the record [getChatByID] would have
    returned, deletes the row with that id and no other row, and touches no
    other table; when no row has the id it returns null (not-found) without
    throwing and leaves the tables as they were; a second delete of the same
    id returns null and changes nothing. [deleteFileByID] does the same on
    files. This holds whether or not the engine serves RETURNING. *)
Theorem delete_by_id_returns_prior_record
    (this : SqliteDatabase) (id : string) (w : World) :
  db this <> None ->
  let c := deleteChatByID this id w in
  let f := deleteFileByID this id w in
  (fst c = fst (getChatByID this id w)
   /\ (In id (map ChatRow.id (chats (data w))) -> exists chat, fst c = Ok (Some chat))
   /\ (~ In id (map ChatRow.id (chats (data w))) ->
       fst c = Ok None /\ data (snd c) = data w)
   /\ (forall row, In row (chats (data (snd c)))
                   <-> In row (chats (data w)) /\ ChatRow.id row <> id)
   /\ messages (data (snd c)) = messages (data w)
   /\ confirmed_steps (data (snd c)) = confirmed_steps (data w)
   /\ files (data (snd c)) = files (data w)
   /\ fst (deleteChatByID this id (snd c)) = Ok None
   /\ data (snd (deleteChatByID this id (snd c))) = data (snd c))
  /\
  (fst f = fst (getFileByID this id w)
   /\ (In id (map FileRow.id (files (data w))) -> exists file, fst f = Ok (Some file))
   /\ (~ In id (map FileRow.id (files (data w))) ->
       fst f = Ok None /\ data (snd f) = data w)
   /\ (forall row, In row (files (data (snd f)))
                   <-> In row (files (data w)) /\ FileRow.id row <> id)
   /\ chats (data (snd f)) = chats (data w)
   /\ messages (data (snd f)) = messages (data w)
   /\ confirmed_steps (data (snd f)) = confirmed_steps (data w)
   /\ fst (deleteFileByID this id (snd f)) = Ok None
   /\ data (snd (deleteFileByID this id (snd f))) = data (snd f)).
Proof.
  intros Hdb c f. split.
  - destruct (deleteChatByID_eq this id w Hdb) as [Hr Hd].
    destruct (deleteChatByID_eq this id (snd c) Hdb) as [Hr2 Hd2].
    subst c. rewrite Hr, Hd in *. rewrite getChatByID_eq by exact Hdb.
    cbn [fst chats messages confirmed_steps files set_chats].
    assert (Hgone : ~ In id (map ChatRow.id
                       (fst (delete (has_id ChatRow.id id) (chats (data w))))))
      by apply delete_has_id_absent.
    split_ands; try reflexivity.
    + intros Hin. destruct (select_present_some ChatRow.id id _ Hin) as [r E].
      rewrite E. now exists (rowToChat r).
    + intros H. split.
      * destruct (hd_error _) as [r|] eqn:E; [|reflexivity].
        apply select_some_present in E. destruct E as [Hin E]. exfalso. apply H.
        rewrite <- E. now apply in_map.
      * rewrite (delete_absent ChatRow.id id _ H). apply set_chats_same.
    + intros row. apply In_delete_has_id.
    + rewrite Hr2. cbn [chats set_chats data].
      now rewrite (select_absent ChatRow.id id _ Hgone).
    + rewrite Hd2. cbn [chats set_chats data].
      rewrite (delete_absent ChatRow.id id _ Hgone). reflexivity.
  - destruct (deleteFileByID_eq this id w Hdb) as [Hr Hd].
    destruct (deleteFileByID_eq this id (snd f) Hdb) as [Hr2 Hd2].
    subst f. rewrite Hr, Hd in *. rewrite getFileByID_eq by exact Hdb.
    cbn [fst chats messages confirmed_steps files set_files].
    assert (Hgone : ~ In id (map FileRow.id
                       (fst (delete (has_id FileRow.id id) (files (data w))))))
      by apply delete_has_id_absent.
    split_ands; try reflexivity.
    + intros Hin. destruct (select_present_some FileRow.id id _ Hin) as [r E].
      rewrite E. now exists (rowToFile r).
    + intros H. split.
      * destruct (hd_error _) as [r|] eqn:E; [|reflexivity].
        apply select_some_present in E. destruct E as [Hin E]. exfalso. apply H.
        rewrite <- E. now apply in_map.
      * rewrite (delete_absent FileRow.id id _ H). apply set_files_same.
    + intros row. apply In_delete_has_id.
    + rewrite Hr2. cbn [files set_files data].
      now rewrite (select_absent FileRow.id id _ Hgone).
    + rewrite Hd2. cbn [files set_files data].
      rewrite (delete_absent FileRow.id id _ Hgone). reflexivity.
Qed.

(** ** Editing a chat *)

Lemma select_map_same_id {row : Type} (key : row -> string) (g : row -> row)
    (k : string) (t : list row) :
  (forall r, key (g r) = key r) ->
  select (has_id key k) (map g t) = map g (select (has_id key k) t).
Proof.
  intros Hg. unfold select. induction t as [|r t IH]; [reflexivity|].
  simpl. unfold has_id at 1. rewrite Hg. fold (has_id key k r).
  destruct (has_id key k r); simpl; now rewrite IH.
Qed.

Lemma hd_error_map {A B} (g : A -> B) (l : list A) :
  hd_error (map g l) = option_map g (hd_error l).
Proof. now destruct l. Qed.

Lemma map_update_absent (g : ChatRow.t -> ChatRow.t) (k : string) (t : list ChatRow.t) :
  ~ In k (map ChatRow.id t) ->
  map (fun r => if has_id ChatRow.id k r then g r else r) t = t.
Proof.
  induction t as [|r t IH]; intros H; [reflexivity|].
  simpl. destruct (has_id ChatRow.id k r) eqn:E.
  - exfalso. apply H. left. now apply (has_id_true ChatRow.id).
  - f_equal. apply IH. intros Hin. apply H. now right.
Qed.

Lemma In_map_update (g : ChatRow.t -> ChatRow.t) (k : string) (t : list ChatRow.t)
    (row : ChatRow.t) :
  (forall r, ChatRow.id (g r) = ChatRow.id r) ->
  ChatRow.id row <> k ->
  In row (map (fun r => if has_id ChatRow.id k r then g r else r) t) <-> In row t.
Proof.
  intros Hg Hrow. rewrite in_map_iff. split.
  - intros (r & E & Hin). destruct (has_id ChatRow.id k r) eqn:Hk.
    + exfalso. apply Hrow. rewrite <- E, Hg. now apply (has_id_true ChatRow.id).
    + now subst.
  - intros Hin. exists row. split; [|exact Hin].
    destruct (has_id ChatRow.id k row) eqn:Hk; [|reflexivity].
    apply (has_id_true ChatRow.id) in Hk. contradiction.
Qed.

(** What [editChatByID] returns and leaves behind. *)
Lemma editChatByID_eq (this : SqliteDatabase) (id : string)
    (updated : PartialChat.t) (w : World) :
  db this <> None ->
  let name := or_null (PartialChat.name updated) in
  let creatorID := or_null (PartialChat.creatorID updated) in
  let createdAt :=
    match PartialChat.createdAt updated with
    | val d => getTime d
    | undefined | null => None
    end in
  let g := updated_row name creatorID createdAt in
  fst (editChatByID this id updated w)
  = Ok (option_map (fun r => rowToChat (g r))
          (hd_error (select (has_id ChatRow.id id) (chats (data w)))))
  /\ data (snd (editChatByID this id updated w))
     = set_chats (data w)
         (map (fun r => if has_id ChatRow.id id r then g r else r) (chats (data w))).
Proof.
  intros Hdb name creatorID createdAt g.
  unfold editChatByID, getChatByID, if_db.
  destruct (db this) as [c|]; [clear Hdb|contradiction].
  unfold bind, execute, stmts.editChatByID, stmts.getChatByID, ret, bind_number.
  cbn [fst snd data chats set_chats].
  fold name creatorID createdAt. 
  change (fun r : ChatRow.t =>
            if has_id ChatRow.id id r
            then ChatRow.mk (ChatRow.id r) (coalesce name (ChatRow.name r))
                   (coalesce creatorID (ChatRow.creatorID r))
                   (coalesce createdAt (ChatRow.createdAt r))
            else r)
    with (fun r : ChatRow.t => if has_id ChatRow.id id r then g r else r).
  split; [|reflexivity]. f_equal.
  rewrite (select_map_same_id ChatRow.id
             (fun r => if has_id ChatRow.id id r then g r else r)).
  - rewrite hd_error_map.
    destruct (hd_error (select (has_id ChatRow.id id) (chats (data w)))) as [r|] eqn:E;
      [|reflexivity].
    apply select_some_present in E. destruct E as [_ E].
    apply (has_id_true ChatRow.id) in E. cbn [option_map]. now rewrite E.
  - intros r. now destruct (has_id ChatRow.id id r).
Qed.

(** C4. [editChatByID] changes, in the chat with the given id, only the
    fields its partial update carries: [name], [creatorID] and [createdAt]
    take the given value when there is one (a valid date, for [createdAt])
    and keep the stored one otherwise, [id] is kept; an update with [name]
    only leaves [creatorID] and [createdAt] as stored. The call returns the
    record as it is stored after the update, and null (not-found), with the
    tables unchanged, when no chat has the id. Other chats and other tables
    are not touched. *)
Theorem edit_updates_only_given_fields
    (this : SqliteDatabase) (id : string) (updated : PartialChat.t) (w : World) :
  db this <> None ->
  (forall d, PartialChat.createdAt updated = val d -> Date_ok d) ->
  let r := editChatByID this id updated w in
  (~ In id (map ChatRow.id (chats (data w))) ->
     fst r = Ok None /\ data (snd r) = data w)
  /\ (forall c, fst (getChatByID this id w) = Ok (Some c) ->
      exists c',
        fst r = Ok (Some c')
        /\ fst (getChatByID this id (snd r)) = Ok (Some c')
        /\ Chat.id c' = Chat.id c
        /\ match PartialChat.name updated with
           | val n => Chat.name c' = n
           | undefined | null => Chat.name c' = Chat.name c
           end
        /\ match PartialChat.creatorID updated with
           | val u => Chat.creatorID c' = u
           | undefined | null => Chat.creatorID c' = Chat.creatorID c
           end
        /\ match PartialChat.createdAt updated with
           | val d => match getTime d with
                      | Some _ => Chat.createdAt c' = d
                      | None => Chat.createdAt c' = Chat.createdAt c
                      end
           | undefined | null => Chat.createdAt c' = Chat.createdAt c
           end
        /\ (PartialChat.creatorID updated = undefined ->
            PartialChat.createdAt updated = undefined ->
            Chat.creatorID c' = Chat.creatorID c
            /\ Chat.createdAt c' = Chat.createdAt c))
  /\ (forall row, ChatRow.id row <> id ->
        (In row (chats (data (snd r))) <-> In row (chats (data w))))
  /\ messages (data (snd r)) = messages (data w)
  /\ confirmed_steps (data (snd r)) = confirmed_steps (data w)
  /\ files (data (snd r)) = files (data w).
Proof.
  intros Hdb Hdate r.
  destruct (editChatByID_eq this id updated w Hdb) as [Hr Hd].
  cbv zeta in Hr, Hd. subst r. rewrite Hr, Hd.
  cbn [fst chats messages confirmed_steps files set_chats].
  split_ands; try reflexivity.
  - intros Habs. rewrite (select_absent ChatRow.id id _ Habs). split; [reflexivity|].
    rewrite map_update_absent by exact Habs. apply set_chats_same.
  - intros c. rewrite !getChatByID_eq by exact Hdb. cbn [fst data chats set_chats].
    rewrite Hd. cbn [chats set_chats].
    rewrite (select_map_same_id ChatRow.id) by (intros x; now destruct (has_id ChatRow.id id x)).
    rewrite hd_error_map.
    destruct (hd_error (select (has_id ChatRow.id id) (chats (data w)))) as [row|] eqn:E;
      [|discriminate].
    cbn [option_map]. intros [= <-].
    apply select_some_present in E. destruct E as [_ E].
    apply (has_id_true ChatRow.id) in E. rewrite E.
    eexists. split; [reflexivity|]. split; [reflexivity|].
    unfold rowToChat, updated_row.
    cbn [Chat.id Chat.name Chat.creatorID Chat.createdAt ChatRow.id ChatRow.name
         ChatRow.creatorID ChatRow.createdAt].
    split_ands.
    + reflexivity.
    + now destruct (PartialChat.name updated).
    + now destruct (PartialChat.creatorID updated).
    + destruct (PartialChat.createdAt updated) as [| |d] eqn:Ed; try reflexivity.
      destruct (getTime d) as [t|] eqn:Et; [|reflexivity].
      cbn [coalesce]. apply new_Date_getTime; [now apply Hdate | exact Et].
    + intros -> ->. split; reflexivity.
  - intros row Hrow. apply In_map_update; [|exact Hrow]. reflexivity.
Qed.

(** ** Purging by age *)

Lemma older_than_true {row : Type} (createdAt : row -> Z) (maxDate : Date) (r : row) :
  older_than createdAt (bind_number (getTime maxDate)) r = true
  <-> older maxDate (createdAt r).
Proof.
  unfold older_than, older, bind_number. destruct (getTime maxDate) as [t|].
  - apply Z.ltb_lt.
  - split; [discriminate | tauto].
Qed.

Lemma older_than_false {row : Type} (createdAt : row -> Z) (maxDate : Date) (r : row) :
  negb (older_than createdAt (bind_number (getTime maxDate)) r) = true
  <-> ~ older maxDate (createdAt r).
Proof.
  rewrite negb_true_iff, <- not_true_iff_false. now rewrite older_than_true.
Qed.

Lemma filter_length_split {A} (p : A -> bool) (l : list A) :
  (List.length (filter p l) + List.length (filter (fun x => negb (p x)) l)
   = List.length l)%nat.
Proof.
  induction l as [|x l IH]; [reflexivity|]. simpl.
  destruct (p x); simpl; lia.
Qed.

Lemma deleteOldMessages_eq (this : SqliteDatabase) (maxDate : Date) (w : World) :
  db this <> None ->
  deleteOldMessages this maxDate w
  = (Ok (snd (delete (older_than MessageRow.createdAt (bind_number (getTime maxDate)))
                (messages (data w)))),
     mkWorld
       (set_messages (data w)
          (fst (delete (older_than MessageRow.createdAt (bind_number (getTime maxDate)))
                  (messages (data w)))))
       (returning w) (prepared "deleteOldMessages" :: log w)).
Proof.
  intros Hdb. unfold deleteOldMessages, if_db. destruct (db this); [|contradiction].
  reflexivity.
Qed.

Lemma deleteOldConfirmedSteps_eq (this : SqliteDatabase) (maxDate : Date) (w : World) :
  db this <> None ->
  deleteOldConfirmedSteps this maxDate w
  = (Ok (snd (delete (older_than ConfirmedStepRow.createdAt (bind_number (getTime maxDate)))
                (confirmed_steps (data w)))),
     mkWorld
       (set_confirmed_steps (data w)
          (fst (delete (older_than ConfirmedStepRow.createdAt (bind_number (getTime maxDate)))
                  (confirmed_steps (data w)))))
       (returning w) (prepared "deleteOldConfirmedSteps" :: log w)).
Proof.
  intros Hdb. unfold deleteOldConfirmedSteps, if_db. destruct (db this); [|contradiction].
  reflexivity.
Qed.

Lemma In_delete {row : Type} (p : row -> bool) (t : list row) (r : row) :
  In r (fst (delete p t)) <-> In r t /\ negb (p r) = true.
Proof. simpl. apply filter_In. Qed.

Lemma delete_changes {row : Type} (p : row -> bool) (t : list row) :
  snd (delete p t)
  = Z.of_nat (List.length t) - Z.of_nat (List.length (fst (delete p t))).
Proof.
  simpl. pose proof (filter_length_split p t). lia.
Qed.

(** C8. [deleteOldMessages(maxDate)] deletes the messages created strictly
    before [maxDate] and no other row: a message created at [maxDate] or
    later stays, the messages left keep their order, and the other tables
    are not touched. It returns the number of rows deleted.
    [deleteOldConfirmedSteps(maxDate)] does the same on confirmed steps. *)
Theorem purge_deletes_strictly_older
    (this : SqliteDatabase) (maxDate : Date) (w : World) :
  db this <> None ->
  let m := deleteOldMessages this maxDate w in
  let s := deleteOldConfirmedSteps this maxDate w in
  ((forall row, In row (messages (data (snd m)))
                <-> In row (messages (data w))
                    /\ ~ older maxDate (MessageRow.createdAt row))
   /\ (forall row, In row (messages (data w)) ->
         getTime maxDate = Some (MessageRow.createdAt row) ->
         In row (messages (data (snd m))))
   /\ messages (data (snd m))
      = filter (fun r => negb (older_than MessageRow.createdAt (getTime maxDate) r))
          (messages (data w))
   /\ fst m = Ok (Z.of_nat (List.length (messages (data w)))
                  - Z.of_nat (List.length (messages (data (snd m)))))
   /\ fst m = Ok (Z.of_nat (List.length
                    (filter (older_than MessageRow.createdAt (getTime maxDate))
                       (messages (data w)))))
   /\ chats (data (snd m)) = chats (data w)
   /\ confirmed_steps (data (snd m)) = confirmed_steps (data w)
   /\ files (data (snd m)) = files (data w))
  /\
  ((forall row, In row (confirmed_steps (data (snd s)))
                <-> In row (confirmed_steps (data w))
                    /\ ~ older maxDate (ConfirmedStepRow.createdAt row))
   /\ (forall row, In row (confirmed_steps (data w)) ->
         getTime maxDate = Some (ConfirmedStepRow.createdAt row) ->
         In row (confirmed_steps (data (snd s))))
   /\ confirmed_steps (data (snd s))
      = filter (fun r => negb (older_than ConfirmedStepRow.createdAt (getTime maxDate) r))
          (confirmed_steps (data w))
   /\ fst s = Ok (Z.of_nat (List.length (confirmed_steps (data w)))
                  - Z.of_nat (List.length (confirmed_steps (data (snd s)))))
   /\ fst s = Ok (Z.of_nat (List.length
                    (filter (older_than ConfirmedStepRow.createdAt (getTime maxDate))
                       (confirmed_steps (data w)))))
   /\ chats (data (snd s)) = chats (data w)
   /\ messages (data (snd s)) = messages (data w)
   /\ files (data (snd s)) = files (data w)).
Proof.
  intros Hdb m s. subst m s.
  rewrite deleteOldMessages_eq, deleteOldConfirmedSteps_eq by exact Hdb.
  cbn [fst snd data chats messages confirmed_steps files set_messages
       set_confirmed_steps].
  split; split_ands; try reflexivity.
  - intros row. rewrite In_delete. now rewrite older_than_false.
  - intros row Hin Ht. apply In_delete. split; [exact Hin|].
    apply older_than_false. unfold older. rewrite Ht. lia.
  - f_equal. apply delete_changes.
  - intros row. rewrite In_delete. now rewrite older_than_false.
  - intros row Hin Ht. apply In_delete. split; [exact Hin|].
    apply older_than_false. unfold older. rewrite Ht. lia.
  - f_equal. apply delete_changes.
Qed.

(** ** Purging files *)

Lemma NoDup_map_inj {A B} (f : A -> B) (l : list A) (a b : A) :
  NoDup (map f l) -> In a l -> In b l -> f a = f b -> a = b.
Proof.
  induction l as [|x l IH]; intros Hnd Ha Hb E; [destruct Ha|].
  simpl in Hnd. inversion Hnd as [|? ? Hx Hnd']; subst.
  destruct Ha as [->|Ha], Hb as [->|Hb]; try reflexivity.
  - exfalso. apply Hx. rewrite E. now apply in_map.
  - exfalso. apply Hx. rewrite <- E. now apply in_map.
  - now apply IH.
Qed.

Lemma id_in_true {row : Type} (key : row -> string) (ids : list string) (r : row) :
  id_in key ids r = true <-> In (key r) ids.
Proof.
  unfold id_in. rewrite existsb_exists. split.
  - intros (k & Hin & E). apply String.eqb_eq in E. now subst.
  - intros Hin. exists (key r). split; [exact Hin | apply String.eqb_refl].
Qed.






(** ** Batch reads *)

Lemma id_in_Permutation {row : Type} (key : row -> string) (ids ids' : list string)
    (r : row) :
  Permutation ids ids' -> id_in key ids r = id_in key ids' r.
Proof.
  intros Hp. destruct (id_in key ids' r) eqn:E.
  - apply id_in_true. apply id_in_true in E.
    apply (Permutation_in _ (Permutation_sym Hp)). exact E.
  - apply not_true_iff_false. intros H. apply id_in_true in H.
    apply (Permutation_in _ Hp) in H. apply id_in_true in H. congruence.
Qed.

Lemma getFilesByIDs_eq (this : SqliteDatabase) (ids : list string) (w : World) :
  db this <> None ->
  fst (getFilesByIDs this ids w)
  = Ok (map rowToFile (select (id_in FileRow.id ids) (files (data w)))).
Proof.
  intros Hdb. unfold getFilesByIDs, if_db. destruct (db this); [|contradiction].
  destruct ids as [|i ids]; [|reflexivity].
  cbn. f_equal. induction (files (data w)) as [|r t IH]; [reflexivity|exact IH].
Qed.

Lemma getMessagesByIDs_eq (this : SqliteDatabase) (ids : list string) (w : World) :
  db this <> None ->
  fst (getMessagesByIDs this ids w)
  = map_result rowToMessage (select (id_in MessageRow.id ids) (messages (data w))).
Proof.
  intros Hdb. unfold getMessagesByIDs, if_db. destruct (db this); [|contradiction].
  destruct ids as [|i ids]; [|reflexivity].
  cbn. assert (E : select (id_in MessageRow.id []) (messages (data w)) = []).
  { induction (messages (data w)) as [|r t IH]; [reflexivity|exact IH]. }
  now rewrite E.
Qed.

(** C7. [getMessagesByIDs([])] and [getFilesByIDs([])] return an empty list
    without throwing, and the world is as before: no statement reached the
    engine. For other inputs the rows come back in an order that does not
    depend on the order of the ids asked for (asking for the same ids in
    another order returns the same list), so that it need not be the order of
    the input: asked for files b, a and for messages m3, m1 the adapter
    returns a, b and m1, m3. *)
Theorem empty_batch_returns_at_once (this : SqliteDatabase) (w : World) :
  db this <> None ->
  getMessagesByIDs this [] w = (Ok [], w)
  /\ getFilesByIDs this [] w = (Ok [], w)
  /\ (forall ids ids', Permutation ids ids' ->
        fst (getMessagesByIDs this ids w) = fst (getMessagesByIDs this ids' w)
        /\ fst (getFilesByIDs this ids w) = fst (getFilesByIDs this ids' w))
  /\ (exists files,
        fst (getFilesByIDs (fst populated) ["b"; "a"] (snd populated)) = Ok files
        /\ map FileMeta.id files = ["a"; "b"])
  /\ (exists msgs,
        fst (getMessagesByIDs (fst populated) ["m3"; "m1"] (snd populated)) = Ok msgs
        /\ map Message.id msgs = ["m1"; "m3"]).
Proof.
  intros Hdb. split_ands.
  - unfold getMessagesByIDs, if_db. now destruct (db this).
  - unfold getFilesByIDs, if_db. now destruct (db this).
  - intros ids ids' Hp.
    rewrite !getMessagesByIDs_eq, !getFilesByIDs_eq by exact Hdb.
    unfold select.
    rewrite (filter_ext _ _ (fun r => id_in_Permutation MessageRow.id ids ids' r Hp)).
    rewrite (filter_ext _ _ (fun r => id_in_Permutation FileRow.id ids ids' r Hp)).
    split; reflexivity.
  - eexists. split; [vm_compute; reflexivity | reflexivity].
  - eexists. split; [vm_compute; reflexivity | reflexivity].
Qed.

(** ** Listing the messages of a chat *)




Section Ordering.
Context {row : Type}.
Variable id : row -> string.
Variable createdAt : row -> Z.

Local Abbreviation earlier := (createdAt_desc_id_desc id createdAt).









End Ordering.






Lemma StronglySorted_nth {A} (R : A -> A -> Prop) (l : list A) (i j : nat) (a b : A) :
  StronglySorted R l -> (i < j)%nat ->
  nth_error l i = Some a -> nth_error l j = Some b -> R a b.
Proof.
  intros Hs. revert i j. induction Hs as [|x l Hs IH Hx]; intros i j Hij Ha Hb.
  - destruct i; discriminate.
  - destruct j as [|j]; [lia|]. simpl in Hb. destruct i as [|i].
    + simpl in Ha. inversion Ha; subst. rewrite Forall_forall in Hx. apply Hx.
      now apply nth_error_In with j.
    + simpl in Ha. apply (IH i j); [lia | exact Ha | exact Hb].
Qed.

Lemma map_result_Forall2 {A B} (f : A -> result B) (l : list A) (l' : list B) :
  map_result f l = Ok l' -> Forall2 (fun x y => f x = Ok y) l l'.
Proof.
  revert l'. induction l as [|x l IH]; intros l' H; simpl in H.
  - inversion H. constructor.
  - destruct (f x) as [y|e] eqn:E; [|discriminate]. simpl in H.
    destruct (map_result f l) as [ys|e]; [|discriminate]. simpl in H.
    inversion H; subst. constructor; [exact E | now apply IH].
Qed.





Lemma getTime_new_Date (ms t : Z) : getTime (new_Date ms) = Some t -> t = ms.
Proof.
  unfold getTime, new_Date, TimeClip. simpl.
  destruct (Z.abs ms <=? max_time); [|discriminate]. now intros [= ->].
Qed.







(** The rows [getMessagesByChatID] decodes. *)
Lemma getMessagesByChatID_eq (this : SqliteDatabase) (chatID : string)
    (offset limit : option Z) (w : World) :
  db this <> None ->
  getMessagesByChatID this chatID offset limit w
  = (map_result rowToMessage
       (limit_offset (default 100 limit) (default 0 offset)
          (order_by (createdAt_desc_id_desc MessageRow.id MessageRow.createdAt)
             (messages_of chatID (data w)))),
     mkWorld (data w) (returning w) (prepared "getMessagesByChatID" :: log w)).
Proof.
  intros Hdb. unfold getMessagesByChatID, if_db. destruct (db this); [|contradiction].
  reflexivity.
Qed.



(* ========================================================================= *)
(** * The primary keys stay unique *)

Lemma keeps_ret {A} (a : A) : keeps_keys (ret a).
Proof. intros w H. exact H. Qed.

Lemma keeps_lift {A} (r : result A) : keeps_keys (lift r).
Proof. intros w H. exact H. Qed.

Lemma keeps_bind {A B} (m : M A) (f : A -> M B) :
  keeps_keys m -> (forall a, keeps_keys (f a)) -> keeps_keys (bind m f).
Proof.
  intros Hm Hf w H. unfold bind. specialize (Hm w H).
  destruct (m w) as [[a|e] w']; [apply Hf|]; exact Hm.
Qed.

Lemma keeps_try_catch {A} (m handler : M A) :
  keeps_keys m -> keeps_keys handler -> keeps_keys (try_catch m handler).
Proof.
  intros Hm Hh w H. unfold try_catch. specialize (Hm w H).
  destruct (m w) as [[a|e] w']; [exact Hm | now apply Hh].
Qed.

Lemma keeps_if_db {A} (this : SqliteDatabase) (body : M A) :
  keeps_keys body -> keeps_keys (if_db this body).
Proof. intros Hb. unfold if_db. destruct (db this); [exact Hb|]. intros w H. exact H. Qed.

Lemma keeps_execute {A} (st : statement) (f : bool -> Tables -> result (Tables * A)) :
  (forall b d, keys_unique d ->
     match f b d with Ok (d', _) => keys_unique d' | Throw _ => True end) ->
  keeps_keys (fun w => execute st (f (returning w)) w).
Proof.
  intros Hf w H. unfold execute. specialize (Hf (returning w) (data w) H).
  destruct (f (returning w) (data w)) as [[d a]|e]; simpl; [exact Hf | exact H].
Qed.

Lemma keeps_execute_plain {A} (st : statement) (f : Tables -> result (Tables * A)) :
  (forall d, keys_unique d ->
     match f d with Ok (d', _) => keys_unique d' | Throw _ => True end) ->
  keeps_keys (execute st f).
Proof. intros Hf. apply (keeps_execute st (fun _ => f)). intros _. exact Hf. Qed.

Lemma keys_insert {row : Type} (key : row -> string) (r : row) (t l : list row) :
  NoDup (map key t) -> insert key r t = Ok l -> NoDup (map key l).
Proof.
  intros Hnd H. apply insert_Ok in H. destruct H as [-> Hfresh].
  now apply NoDup_map_insert.
Qed.

Lemma keys_update (g : ChatRow.t -> ChatRow.t) (k : string) (t : list ChatRow.t) :
  (forall r, ChatRow.id (g r) = ChatRow.id r) ->
  map ChatRow.id (map (fun r => if has_id ChatRow.id k r then g r else r) t)
  = map ChatRow.id t.
Proof.
  intros Hg. rewrite map_map. apply map_ext. intros r.
  destruct (has_id ChatRow.id k r); [apply Hg | reflexivity].
Qed.

Ltac keys_statement :=
  intros;
  match goal with H : keys_unique _ |- _ => destruct H as (Hc & Hm & Hs & Hf) end;
  repeat match goal with
         | |- context [not_null ?x _] => destruct x; cbn [not_null]; [|exact I]
         | |- context [rbind (insert ?k ?r ?t) _] =>
             let E := fresh "E" in
             destruct (insert k r t) eqn:E; cbn [rbind]; [|exact I];
             apply keys_insert in E; [|assumption]
         | |- context [if ?b then _ else _] => destruct b; [|exact I]
         end;
  unfold keys_unique; cbn; repeat split;
  try assumption; try (now apply NoDup_map_filter).

Lemma perform_keeps_keys (this : SqliteDatabase) (op : crud) :
  keeps_keys (perform this op).
Proof.
  assert (Hget : forall id, keeps_keys (getChatByID this id)).
  { intros id. apply keeps_if_db. apply keeps_bind; [|intros; apply keeps_ret].
    apply keeps_execute_plain. intros d H. exact H. }
  assert (Hgetf : forall id, keeps_keys (getFileByID this id)).
  { intros id. apply keeps_if_db. apply keeps_bind; [|intros; apply keeps_ret].
    apply keeps_execute_plain. intros d H. exact H. }
  destruct op; unfold perform, answering;
    (apply keeps_bind; [|intros ?; apply keeps_ret]).
  - apply keeps_if_db, keeps_execute_plain. unfold stmts.addChat. keys_statement.
  - apply Hget.
  - apply keeps_if_db. apply keeps_bind; [|intros; apply keeps_ret].
    apply keeps_execute_plain. intros d H. exact H.
  - apply keeps_if_db, keeps_execute_plain. intros d H. exact H.
  - apply keeps_if_db. apply keeps_bind; [|intros; apply Hget].
    apply keeps_execute_plain. unfold stmts.editChatByID. keys_statement.
    rewrite keys_update; [assumption | reflexivity].
  - apply keeps_if_db. apply keeps_try_catch.
    + apply keeps_bind; [|intros; apply keeps_ret].
      apply (keeps_execute _ (fun b => stmts.deleteChatByID b id)).
      unfold stmts.deleteChatByID. keys_statement.
    + apply keeps_bind; [apply Hget|]. intros [c|]; [|apply keeps_ret].
      apply keeps_bind; [|intros; apply keeps_ret].
      apply keeps_execute_plain. unfold sql.delete_chat. keys_statement.
  - apply keeps_if_db, keeps_execute_plain. unfold stmts.addMessage. keys_statement.
  - apply keeps_if_db. apply keeps_bind.
    + apply keeps_execute_plain. intros d H. exact H.
    + intros [r|]; [|apply keeps_ret].
      apply keeps_bind; [apply keeps_lift | intros; apply keeps_ret].
  - apply keeps_if_db. destruct ids; [apply keeps_ret|].
    apply keeps_bind; [|intros; apply keeps_lift].
    apply keeps_execute_plain. intros d H. exact H.
  - apply keeps_if_db. apply keeps_bind; [|intros; apply keeps_lift].
    apply keeps_execute_plain. intros d H. exact H.
  - apply keeps_if_db, keeps_execute_plain. unfold stmts.deleteOldMessages.
    keys_statement.
  - apply keeps_if_db, keeps_execute_plain. unfold stmts.deleteMessagesByChatID.
    keys_statement.
  - apply keeps_if_db, keeps_execute_plain. unfold stmts.addConfirmedStep.
    keys_statement.
  - apply keeps_if_db. apply keeps_bind; [|intros; apply keeps_ret].
    apply keeps_execute_plain. intros d H. exact H.
  - apply keeps_if_db, keeps_execute_plain. unfold stmts.deleteOldConfirmedSteps.
    keys_statement.
  - apply keeps_if_db, keeps_execute_plain. unfold stmts.addFile. keys_statement.
  - apply Hgetf.
  - apply keeps_if_db. destruct ids; [apply keeps_ret|].
    apply keeps_bind; [|intros; apply keeps_ret].
    apply keeps_execute_plain. intros d H. exact H.
  - apply keeps_if_db. apply keeps_try_catch.
    + apply keeps_bind; [|intros; apply keeps_ret].
      apply (keeps_execute _ (fun b => stmts.deleteFileByID b id)).
      unfold stmts.deleteFileByID. keys_statement.
    + apply keeps_bind; [apply Hgetf|]. intros [c|]; [|apply keeps_ret].
      apply keeps_bind; [|intros; apply keeps_ret].
      apply keeps_execute_plain. unfold sql.delete_file. keys_statement.
  - apply keeps_if_db. apply keeps_bind.
    + apply keeps_execute_plain. intros d H. exact H.
    + intros [|i ids]; [apply keeps_ret|].
      apply keeps_bind; [|intros; apply keeps_ret].
      apply keeps_execute_plain. unfold sql.delete_files_in. keys_statement.
Qed.

(** Every call keeps the primary keys unique: an adapter that starts on a
    well-formed data file only ever sees well-formed tables. *)
Lemma run_keeps_keys (cs : list call) (s : SqliteDatabase * World) :
  keys_unique (data (snd s)) -> keys_unique (data (snd (run cs s))).
Proof.
  revert s. induction cs as [|c cs IH]; intros s H; [exact H|].
  simpl. apply IH. destruct c as [| |op]; simpl.
  - unfold open. destruct (isOpen (fst s)); exact H.
  - exact H.
  - now apply perform_keeps_keys.
Qed.

(* ========================================================================= *)
(** * The properties on the small database *)

Lemma opened_db : db (fst opened) <> None.
Proof. discriminate. Qed.

Lemma populated_db : db (fst populated) <> None.
Proof. discriminate. Qed.

Lemma populated_reachable : reachable populated.
Proof. apply run_reachable. unfold opened. repeat constructor. Qed.





(** Closing the populated adapter: reading message m1 then throws, also
    after more calls; after [open()] it does not. *)
Lemma closed_adapter_rejects_witness :
  reachable populated
  /\ Forall (fun c => c <> Open) [Crud (CountChatsByCreatorID "u1"); Close]
  /\ let s' := run [Crud (CountChatsByCreatorID "u1"); Close] (step Close populated) in
     perform (fst s') (GetMessageByID "m1") (snd s')
     = (Throw (Error "DB closed"), snd s')
     /\ is_Error (fst (perform (fst (step Open s')) (GetMessageByID "m1")
                         (snd (step Open s')))) = false.
Proof.
  assert (H1 : reachable populated) by exact populated_reachable.
  assert (H2 : Forall (fun c => c <> Open) [Crud (CountChatsByCreatorID "u1"); Close])
    by (repeat constructor; discriminate).
  destruct (closed_adapter_rejects populated _ (GetMessageByID "m1") H1 H2)
    as (A & _ & _ & _ & B).
  split; [exact H1|]. split; [exact H2|]. cbv zeta. split; [exact A | exact B].
Defined.


(** No chat has id a, file a is there: deleting chat a finds nothing and
    changes nothing; deleting file a returns it, and deleting it again finds
    nothing. *)
Lemma delete_by_id_returns_prior_record_witness :
  db (fst populated) <> None
  /\ fst (deleteChatByID (fst populated) "a" (snd populated)) = Ok None
  /\ data (snd (deleteChatByID (fst populated) "a" (snd populated)))
     = data (snd populated)
  /\ fst (deleteFileByID (fst populated) "a" (snd populated)) = Ok (Some file_a)
  /\ fst (deleteFileByID (fst populated) "a"
            (snd (deleteFileByID (fst populated) "a" (snd populated))))
     = Ok None.
Proof.
  assert (H1 : db (fst populated) <> None) by discriminate.
  destruct (delete_by_id_returns_prior_record (fst populated) "a" (snd populated) H1)
    as ((_ & _ & C3 & _) & (F1 & _ & _ & _ & _ & _ & _ & F8 & _)).
  split; [exact H1|].
  destruct C3 as [C3a C3b].
  - vm_compute. intros [E|[]]. discriminate E.
  - split_ands; assumption.
Defined.

(** Renaming chat c1 leaves its creator and its date as they were. *)
Lemma edit_updates_only_given_fields_witness :
  db (fst populated) <> None
  /\ (forall d, PartialChat.createdAt rename = val d -> Date_ok d)
  /\ exists c',
       fst (editChatByID (fst populated) "c1" rename (snd populated)) = Ok (Some c')
       /\ Chat.id c' = "c1"
       /\ Chat.name c' = "renamed"
       /\ Chat.creatorID c' = Chat.creatorID chat_1
       /\ Chat.createdAt c' = Chat.createdAt chat_1.
Proof.
  assert (H1 : db (fst populated) <> None) by discriminate.
  assert (H2 : forall d, PartialChat.createdAt rename = val d -> Date_ok d)
    by (intros d E; discriminate E).
  destruct (edit_updates_only_given_fields (fst populated) "c1" rename
              (snd populated) H1 H2) as (_ & A & _).
  split; [exact H1|]. split; [exact H2|].
  destruct (A chat_1) as (c' & Hc & _ & Hid & Hname & _ & _ & Hrest).
  - vm_compute. reflexivity.
  - exists c'. destruct (Hrest eq_refl eq_refl) as [Hcr Hat].
    split_ands; assumption.
Defined.


(** An empty batch on the populated adapter: nothing is returned and the
    world, with the log of the engine, is as before. *)
Lemma empty_batch_returns_at_once_witness :
  db (fst populated) <> None
  /\ getMessagesByIDs (fst populated) [] (snd populated) = (Ok [], snd populated)
  /\ getFilesByIDs (fst populated) [] (snd populated) = (Ok [], snd populated)
  /\ log (snd (getFilesByIDs (fst populated) [] (snd populated)))
     = log (snd populated).
Proof.
  assert (H1 : db (fst populated) <> None) by discriminate.
  destruct (empty_batch_returns_at_once (fst populated) (snd populated) H1)
    as (A & B & _).
  split_ands; try assumption. rewrite B. reflexivity.
Defined.

(** Purging what is older than the date of message m3: m1 and m2 go, m3,
    created at that very date, stays; the one confirmed step goes. *)
Lemma purge_deletes_strictly_older_witness :
  db (fst populated) <> None
  /\ fst (deleteOldMessages (fst populated) (Message.createdAt message_3)
            (snd populated)) = Ok 2
  /\ map MessageRow.id
       (messages (data (snd (deleteOldMessages (fst populated)
                               (Message.createdAt message_3) (snd populated)))))
     = ["m3"]
  /\ fst (deleteOldConfirmedSteps (fst populated) (Message.createdAt message_3)
            (snd populated)) = Ok 1
  /\ confirmed_steps
       (data (snd (deleteOldConfirmedSteps (fst populated)
                     (Message.createdAt message_3) (snd populated))))
     = [].
Proof.
  assert (H1 : db (fst populated) <> None) by discriminate.
  destruct (purge_deletes_strictly_older (fst populated)
              (Message.createdAt message_3) (snd populated) H1)
    as ((_ & _ & M3 & _ & M5 & _) & (_ & _ & S3 & _ & S5 & _)).
  split; [exact H1|]. split_ands.
  - rewrite M5. vm_compute. reflexivity.
  - rewrite M3. vm_compute. reflexivity.
  - rewrite S5. vm_compute. reflexivity.
  - rewrite S3. vm_compute. reflexivity.
Defined.

(* ========================================================================= *)
(** * More properties of the adapter *)

(** ** Inserts that the primary key refuses *)




(** ** Before [open()] *)

(** X2. An adapter that was never opened refuses every operation with
    [Error("DB closed")] and sends nothing to the engine, whatever pragmas
    it was built with; [close()] on it changes nothing. *)
Theorem new_adapter_rejects
    (path : string) (given : option (list string)) (op : crud) (w : World) :
  perform (constructor path given) op w = (Throw (Error "DB closed"), w)
  /\ close (constructor path given) = constructor path given.
Proof.
  split; [now apply perform_closed | reflexivity].
Qed.

(** ** [open()] and [close()] *)



(** ** What an operation depends on *)

Lemma same_store_refl (w : World) : same_store w w.
Proof. now split. Qed.














(** ** Operations that only read *)

Lemma reads_ret {A} (a : A) : reads_only (ret a).
Proof. intros w. reflexivity. Qed.

Lemma reads_lift {A} (r : result A) : reads_only (lift r).
Proof. intros w. reflexivity. Qed.

Lemma reads_bind {A B} (m : M A) (f : A -> M B) :
  reads_only m -> (forall a, reads_only (f a)) -> reads_only (bind m f).
Proof.
  intros Hm Hf w. unfold bind. specialize (Hm w).
  destruct (m w) as [[a|e] w']; cbn [snd] in *; [|exact Hm].
  now rewrite Hf.
Qed.

Lemma reads_if_db {A} (this : SqliteDatabase) (body : M A) :
  reads_only body -> reads_only (if_db this body).
Proof. intros H. unfold if_db. destruct (db this); [exact H|]. intros w. reflexivity. Qed.

Lemma reads_execute {A} (st : statement) (f : Tables -> result (Tables * A)) :
  (forall d, match f d with Ok (d', _) => d' = d | Throw _ => True end) ->
  reads_only (execute st f).
Proof.
  intros H w. unfold execute. specialize (H (data w)).
  destruct (f (data w)) as [[d a]|e]; cbn; [exact H | reflexivity].
Qed.

Ltac reads_steps :=
  repeat first
    [ apply reads_ret
    | apply reads_lift
    | apply reads_if_db
    | apply reads_execute; intros ?; reflexivity
    | apply reads_bind; [|intros ?]
    | match goal with |- reads_only (match ?x with _ => _ end) => destruct x end ].

(** X6. The nine operations that look rows up, list them or count them
    leave every table as it was, also when they throw (closed adapter, row
    that does not decode). *)
Theorem reads_change_no_table (this : SqliteDatabase) (op : crud) (w : World) :
  is_read op = true ->
  data (snd (perform this op w)) = data w.
Proof.
  intros H. revert w. change (reads_only (perform this op)).
  destruct op; try discriminate H; unfold perform, answering;
    (apply reads_bind; [|intros ?; apply reads_ret]).
  - unfold getChatByID. reads_steps.
  - unfold getChatsByCreatorID. reads_steps.
  - unfold countChatsByCreatorID. reads_steps.
  - unfold getMessageByID. reads_steps.
  - unfold getMessagesByIDs. reads_steps.
  - unfold getMessagesByChatID. reads_steps.
  - unfold getConfirmedStepsByThreadID. reads_steps.
  - unfold getFileByID. reads_steps.
  - unfold getFilesByIDs. reads_steps.
Qed.

(** Reading the damaged message throws and changes nothing. *)
Lemma reads_change_no_table_witness :
  is_read (GetMessageByID "m9") = true
  /\ fst (perform (fst opened) (GetMessageByID "m9") damaged_world) = Throw SyntaxError
  /\ data (snd (perform (fst opened) (GetMessageByID "m9") damaged_world))
     = data damaged_world.
Proof.
  split; [reflexivity|]. split; [vm_compute; reflexivity|].
  apply (reads_change_no_table (fst opened) (GetMessageByID "m9") damaged_world).
  reflexivity.
Defined.

(** ** Listing the chats of a creator *)

Section AnyOrder.
Context {row : Type}.
Variable earlier : row -> row -> bool.
Hypothesis total : forall a b, earlier a b = false -> earlier b a = true.
Hypothesis transitive :
  forall a b c, earlier a b = true -> earlier b c = true -> earlier a c = true.

Lemma place_members (a x : row) (l : list row) :
  In x (place earlier a l) <-> x = a \/ In x l.
Proof.
  induction l as [|b l IH]; simpl; [intuition|].
  destruct (earlier a b); simpl; [intuition|]. rewrite IH. intuition.
Qed.

Lemma place_keeps_sorted (a : row) (l : list row) :
  StronglySorted (fun x y => earlier x y = true) l ->
  StronglySorted (fun x y => earlier x y = true) (place earlier a l).
Proof.
  induction l as [|b l IH]; intros Hs; simpl.
  - constructor; constructor.
  - inversion Hs as [|? ? Hl Hb]; subst.
    destruct (earlier a b) eqn:E.
    + constructor; [exact Hs|]. constructor; [exact E|].
      apply Forall_forall. intros x Hx. rewrite Forall_forall in Hb.
      apply (transitive a b x E). now apply Hb.
    + constructor; [now apply IH|].
      apply Forall_forall. intros x Hx. apply place_members in Hx.
      destruct Hx as [->|Hx]; [now apply total|].
      rewrite Forall_forall in Hb. now apply Hb.
Qed.

Lemma order_by_any_sorted (l : list row) :
  StronglySorted (fun x y => earlier x y = true) (order_by earlier l).
Proof.
  induction l as [|a l IH]; simpl; [constructor|]. now apply place_keeps_sorted.
Qed.

End AnyOrder.

Lemma place_any_Permutation {row : Type} (earlier : row -> row -> bool)
    (a : row) (l : list row) :
  Permutation (place earlier a l) (a :: l).
Proof.
  induction l as [|b l IH]; simpl; [reflexivity|].
  destruct (earlier a b); [reflexivity|].
  rewrite IH. apply perm_swap.
Qed.

Lemma order_by_any_Permutation {row : Type} (earlier : row -> row -> bool)
    (l : list row) :
  Permutation (order_by earlier l) l.
Proof.
  induction l as [|a l IH]; simpl; [reflexivity|].
  rewrite place_any_Permutation. now constructor.
Qed.

Lemma createdAt_desc_sorted {row : Type} (createdAt : row -> Z) (l : list row) :
  StronglySorted (fun a b => createdAt b <= createdAt a)
    (order_by (createdAt_desc createdAt) l).
Proof.
  assert (H : StronglySorted (fun x y => createdAt_desc createdAt x y = true)
                (order_by (createdAt_desc createdAt) l)).
  { apply order_by_any_sorted; unfold createdAt_desc.
    - intros a b Hab. apply Z.leb_gt in Hab. apply Z.leb_le. lia.
    - intros a b c Hab Hbc. apply Z.leb_le in Hab, Hbc. apply Z.leb_le. lia. }
  induction H as [|a l0 _ IH Ha]; constructor; [exact IH|].
  apply Forall_forall. intros x Hx. rewrite Forall_forall in Ha.
  apply Z.leb_le. now apply Ha.
Qed.

Lemma getChatsByCreatorID_eq (this : SqliteDatabase) (creatorID : string)
    (offset limit : option Z) (w : World) :
  db this <> None ->
  getChatsByCreatorID this creatorID offset limit w
  = (Ok (map rowToChat
           (limit_offset (default 50 limit) (default 0 offset)
              (order_by (createdAt_desc ChatRow.createdAt)
                 (chats_of creatorID (data w))))),
     mkWorld (data w) (returning w) (prepared "getChatsByCreatorID" :: log w)).
Proof.
  intros Hdb. unfold getChatsByCreatorID, if_db. destruct (db this); [|contradiction].
  reflexivity.
Qed.

Lemma countChatsByCreatorID_eq (this : SqliteDatabase) (creatorID : string)
    (w : World) :
  db this <> None ->
  countChatsByCreatorID this creatorID w
  = (Ok (Z.of_nat (List.length (chats_of creatorID (data w)))),
     mkWorld (data w) (returning w) (prepared "countChatsByCreatorID" :: log w)).
Proof.
  intros Hdb. unfold countChatsByCreatorID, if_db. destruct (db this); [|contradiction].
  reflexivity.
Qed.



(** ** Counting and paging *)

Lemma limit_offset_le {A} (limit offset : Z) (l : list A) :
  (List.length (limit_offset limit offset l) <= List.length l)%nat.
Proof.
  unfold limit_offset. destruct (limit <? 0).
  - rewrite length_skipn. lia.
  - rewrite length_firstn, length_skipn. lia.
Qed.

Lemma limit_offset_all {A} (l : list A) : limit_offset (-1) 0 l = l.
Proof. reflexivity. Qed.

(** X8. [countChatsByCreatorID] returns the number of stored chats of the
    creator: the length of the listing [getChatsByCreatorID] gives when no
    limit cuts it (a negative limit), and an upper bound of the length of
    every page, whatever the offset and the limit. *)
Theorem count_ignores_pagination
    (this : SqliteDatabase) (creatorID : string) (w : World) :
  db this <> None ->
  exists n all,
    fst (countChatsByCreatorID this creatorID w) = Ok n
    /\ n = Z.of_nat (List.length (chats_of creatorID (data w)))
    /\ fst (getChatsByCreatorID this creatorID None (Some (-1)) w) = Ok all
    /\ n = Z.of_nat (List.length all)
    /\ (forall offset limit page,
          fst (getChatsByCreatorID this creatorID offset limit w) = Ok page ->
          Z.of_nat (List.length page) <= n).
Proof.
  intros Hdb. rewrite countChatsByCreatorID_eq by exact Hdb.
  rewrite getChatsByCreatorID_eq by exact Hdb. cbn [fst default].
  rewrite limit_offset_all.
  eexists. eexists. split; [reflexivity|]. split; [reflexivity|].
  split; [reflexivity|].
  assert (Hlen : forall l : list ChatRow.t,
             List.length (order_by (createdAt_desc ChatRow.createdAt) l)
             = List.length l)
    by (intros l; apply Permutation_length, order_by_any_Permutation).
  split.
  - now rewrite length_map, Hlen.
  - intros offset limit page. rewrite getChatsByCreatorID_eq by exact Hdb.
    cbn [fst]. intros [= <-]. rewrite length_map.
    pose proof (limit_offset_le (default 50 limit) (default 0 offset)
                  (order_by (createdAt_desc ChatRow.createdAt)
                     (chats_of creatorID (data w)))) as Hle.
    rewrite Hlen in Hle. lia.
Qed.

(** Three chats of creator u1 are counted, and a page of two holds two. *)
Lemma count_ignores_pagination_witness :
  db (fst three_chats) <> None
  /\ fst (countChatsByCreatorID (fst three_chats) "u1" (snd three_chats)) = Ok 3
  /\ exists page,
       fst (getChatsByCreatorID (fst three_chats) "u1" (Some 0) (Some 2)
              (snd three_chats)) = Ok page
       /\ Z.of_nat (List.length page) <= 3.
Proof.
  assert (H1 : db (fst three_chats) <> None) by discriminate.
  destruct (count_ignores_pagination (fst three_chats) "u1" (snd three_chats) H1)
    as (n & all & Hn & En & _ & _ & Hpage).
  assert (E3 : n = 3) by (rewrite En; vm_compute; reflexivity).
  split; [exact H1|]. split; [now rewrite Hn, E3|].
  eexists. split; [vm_compute; reflexivity|].
  rewrite <- E3. apply (Hpage (Some 0) (Some 2)). vm_compute. reflexivity.
Defined.

Lemma firstn_sum {A} (a b : nat) (l : list A) :
  firstn (a + b) l = (firstn a l ++ firstn b (skipn a l))%list.
Proof.
  revert l. induction a as [|a IH]; intros l; [reflexivity|].
  destruct l as [|x l]; simpl; [now rewrite firstn_nil|]. now rewrite IH.
Qed.

(** Two pages that follow each other make up the page of their joint size. *)
Lemma limit_offset_pages {A} (o a b : Z) (l : list A) :
  0 <= o -> 0 <= a -> 0 <= b ->
  limit_offset (a + b) o l
  = (limit_offset a o l ++ limit_offset b (o + a) l)%list.
Proof.
  intros Ho Ha Hb. unfold limit_offset.
  assert (E1 : (a + b <? 0) = false) by (apply Z.ltb_ge; lia).
  assert (E2 : (a <? 0) = false) by (apply Z.ltb_ge; lia).
  assert (E3 : (b <? 0) = false) by (apply Z.ltb_ge; lia).
  rewrite E1, E2, E3.
  rewrite (Z2Nat.inj_add a b Ha Hb), (Z2Nat.inj_add o a Ho Ha).
  rewrite firstn_sum. f_equal. f_equal.
  rewrite (Nat.add_comm (Z.to_nat o)). apply skipn_skipn.
Qed.

Lemma map_result_app {A B} (f : A -> result B) (l1 l2 : list A) (r1 r2 : list B) :
  map_result f l1 = Ok r1 -> map_result f l2 = Ok r2 ->
  map_result f (l1 ++ l2) = Ok (r1 ++ r2)%list.
Proof.
  revert r1. induction l1 as [|x l1 IH]; intros r1 H1 H2; simpl in *.
  - inversion H1. exact H2.
  - destruct (f x) as [y|e]; [|discriminate]. cbn [rbind] in *.
    destruct (map_result f l1) as [ys|e]; [|discriminate]. cbn [rbind] in *.
    inversion H1; subst. now rewrite (IH ys eq_refl H2).
Qed.

(** X9. Pages that follow each other fit together: the page of [a] rows at
    offset [o] followed by the page of [b] rows at offset [o + a] is the
    page of [a + b] rows at offset [o], with no row twice and none left
    out, for the chats of a creator and for the messages of a chat. *)
Theorem consecutive_pages_fit
    (this : SqliteDatabase) (key : string) (o a b : Z) (w : World) :
  db this <> None ->
  0 <= o -> 0 <= a -> 0 <= b ->
  (exists p1 p2,
     fst (getChatsByCreatorID this key (Some o) (Some a) w) = Ok p1
     /\ fst (getChatsByCreatorID this key (Some (o + a)) (Some b) w) = Ok p2
     /\ fst (getChatsByCreatorID this key (Some o) (Some (a + b)) w)
        = Ok (p1 ++ p2)%list)
  /\ (forall p1 p2,
        fst (getMessagesByChatID this key (Some o) (Some a) w) = Ok p1 ->
        fst (getMessagesByChatID this key (Some (o + a)) (Some b) w) = Ok p2 ->
        fst (getMessagesByChatID this key (Some o) (Some (a + b)) w)
        = Ok (p1 ++ p2)%list).
Proof.
  intros Hdb Ho Ha Hb. split.
  - rewrite !getChatsByCreatorID_eq by exact Hdb. cbn [fst default].
    eexists. eexists. split; [reflexivity|]. split; [reflexivity|].
    rewrite (limit_offset_pages o a b) by assumption. now rewrite map_app.
  - intros p1 p2. rewrite !getMessagesByChatID_eq by exact Hdb. cbn [fst default].
    intros H1 H2. rewrite (limit_offset_pages o a b) by assumption.
    now apply map_result_app.
Qed.

(** The three chats of u1: the first chat listed, then the next two, are
    the page of three. *)
Lemma consecutive_pages_fit_witness :
  db (fst three_chats) <> None
  /\ 0 <= 0 /\ 0 <= 1 /\ 0 <= 2
  /\ exists p1 p2,
       fst (getChatsByCreatorID (fst three_chats) "u1" (Some 0) (Some 1)
              (snd three_chats)) = Ok p1
       /\ fst (getChatsByCreatorID (fst three_chats) "u1" (Some (0 + 1)) (Some 2)
                 (snd three_chats)) = Ok p2
       /\ fst (getChatsByCreatorID (fst three_chats) "u1" (Some 0) (Some (1 + 2))
                 (snd three_chats)) = Ok (p1 ++ p2)%list
       /\ map Chat.id p1 = ["c2"]
       /\ map Chat.id p2 = ["c1"; "c3"].
Proof.
  assert (H1 : db (fst three_chats) <> None) by discriminate.
  assert (H2 : 0 <= 0) by lia.
  assert (H3 : 0 <= 1) by lia.
  assert (H4 : 0 <= 2) by lia.
  destruct (consecutive_pages_fit (fst three_chats) "u1" 0 1 2 (snd three_chats)
              H1 H2 H3 H4) as ((p1 & p2 & A & B & C) & _).
  split_ands; try assumption.
  exists p1, p2. split_ands; try assumption.
  - vm_compute in A. injection A as <-. reflexivity.
  - vm_compute in B. injection B as <-. reflexivity.
Defined.

(** ** The messages of a chat, deleted together *)

Lemma deleteMessagesByChatID_eq (this : SqliteDatabase) (chatID : string)
    (w : World) :
  db this <> None ->
  deleteMessagesByChatID this chatID w
  = (Ok (Z.of_nat (List.length (messages_of chatID (data w)))),
     mkWorld
       (set_messages (data w)
          (filter (fun r => negb (MessageRow.chatID r =? chatID)%string)
             (messages (data w))))
       (returning w) (prepared "deleteMessagesByChatID" :: log w)).
Proof.
  intros Hdb. unfold deleteMessagesByChatID, if_db.
  destruct (db this); [|contradiction]. reflexivity.
Qed.

Lemma filter_none {A} (p : A -> bool) (l : list A) :
  (forall x, In x l -> p x = false) -> filter p l = [].
Proof.
  induction l as [|x l IH]; intros H; simpl; [reflexivity|].
  rewrite (H x (or_introl eq_refl)). apply IH. intros y Hy. apply H. now right.
Qed.

Lemma filter_within {A} (p q : A -> bool) (l : list A) :
  (forall x, p x = true -> q x = true) -> filter p (filter q l) = filter p l.
Proof.
  intros H. induction l as [|x l IH]; simpl; [reflexivity|].
  destruct (q x) eqn:Eq; simpl.
  - now rewrite IH.
  - destruct (p x) eqn:Ep; [|exact IH]. apply H in Ep. congruence.
Qed.

Lemma limit_offset_nil {A} (limit offset : Z) : @limit_offset A limit offset [] = [].
Proof.
  unfold limit_offset. rewrite skipn_nil. destruct (limit <? 0); [reflexivity|].
  apply firstn_nil.
Qed.

(** X10. [deleteMessagesByChatID] deletes every message of the chat and no
    other row, and returns how many there were: afterwards the chat lists
    no message, every other chat lists what it listed before, and a second
    call deletes nothing. The chat itself stays. *)
Theorem chat_messages_deleted_together
    (this : SqliteDatabase) (chatID : string) (w : World) :
  db this <> None ->
  let r := deleteMessagesByChatID this chatID w in
  fst r = Ok (Z.of_nat (List.length (messages_of chatID (data w))))
  /\ (forall row, In row (messages (data (snd r)))
                  <-> In row (messages (data w)) /\ MessageRow.chatID row <> chatID)
  /\ (forall offset limit,
        fst (getMessagesByChatID this chatID offset limit (snd r)) = Ok [])
  /\ (forall other offset limit, other <> chatID ->
        fst (getMessagesByChatID this other offset limit (snd r))
        = fst (getMessagesByChatID this other offset limit w))
  /\ fst (deleteMessagesByChatID this chatID (snd r)) = Ok 0
  /\ chats (data (snd r)) = chats (data w)
  /\ confirmed_steps (data (snd r)) = confirmed_steps (data w)
  /\ files (data (snd r)) = files (data w).
Proof.
  intros Hdb r. subst r. rewrite deleteMessagesByChatID_eq by exact Hdb.
  cbn [fst snd data]. split_ands; try reflexivity.
  - intros row. cbn [messages set_messages]. rewrite filter_In.
    rewrite Bool.negb_true_iff, String.eqb_neq. reflexivity.
  - intros offset limit. rewrite getMessagesByChatID_eq by exact Hdb.
    cbn [fst data]. unfold messages_of. cbn [messages set_messages].
    rewrite filter_none.
    + cbn [order_by fold_right]. now rewrite limit_offset_nil.
    + intros x Hx. apply filter_In in Hx. destruct Hx as [_ Hx].
      now apply Bool.negb_true_iff in Hx.
  - intros other offset limit Hother.
    rewrite !getMessagesByChatID_eq by exact Hdb. cbn [fst data].
    unfold messages_of. cbn [messages set_messages].
    rewrite filter_within; [reflexivity|].
    intros x Hx. apply String.eqb_eq in Hx. apply Bool.negb_true_iff.
    apply String.eqb_neq. congruence.
  - rewrite deleteMessagesByChatID_eq by exact Hdb. cbn [fst data].
    unfold messages_of. cbn [messages set_messages]. rewrite filter_none.
    + reflexivity.
    + intros x Hx. apply filter_In in Hx. destruct Hx as [_ Hx].
      now apply Bool.negb_true_iff in Hx.
Qed.

(** The three messages of chat c1 are deleted; the chat then lists none. *)
Lemma chat_messages_deleted_together_witness :
  db (fst populated) <> None
  /\ fst (deleteMessagesByChatID (fst populated) "c1" (snd populated)) = Ok 3
  /\ fst (getMessagesByChatID (fst populated) "c1" None None
            (snd (deleteMessagesByChatID (fst populated) "c1" (snd populated))))
     = Ok []
  /\ fst (getChatByID (fst populated) "c1"
            (snd (deleteMessagesByChatID (fst populated) "c1" (snd populated))))
     = Ok (Some chat_1).
Proof.
  assert (H1 : db (fst populated) <> None) by discriminate.
  destruct (chat_messages_deleted_together (fst populated) "c1" (snd populated) H1)
    as (Hn & _ & Hlist & _).
  split; [exact H1|]. split; [exact Hn|]. split; [apply Hlist|].
  vm_compute. reflexivity.
Defined.

(** ** Confirmed steps *)

Lemma getConfirmedStepsByThreadID_eq (this : SqliteDatabase) (threadID : string)
    (w : World) :
  db this <> None ->
  getConfirmedStepsByThreadID this threadID w
  = (Ok (map rowToConfirmedStep
           (order_by (createdAt_desc ConfirmedStepRow.createdAt)
              (steps_of threadID (data w)))),
     mkWorld (data w) (returning w)
       (prepared "getConfirmedStepsByThreadID" :: log w)).
Proof.
  intros Hdb. unfold getConfirmedStepsByThreadID, if_db.
  destruct (db this); [|contradiction]. reflexivity.
Qed.

Lemma addConfirmedStep_inv (this : SqliteDatabase) (cs : ConfirmedStep.t)
    (w w1 : World) :
  addConfirmedStep this cs w = (Ok tt, w1) ->
  db this <> None
  /\ exists ms, getTime (ConfirmedStep.createdAt cs) = Some ms
       /\ ~ In (ConfirmedStep.id cs)
              (map ConfirmedStepRow.id (confirmed_steps (data w)))
       /\ data w1 = set_confirmed_steps (data w)
                      (confirmed_steps (data w) ++ [stepToRow cs ms]).
Proof.
  unfold addConfirmedStep, if_db. destruct (db this) as [c|]; [|discriminate].
  unfold execute, stmts.addConfirmedStep, not_null, bind_number.
  destruct (getTime (ConfirmedStep.createdAt cs)) as [ms|]; [|discriminate].
  fold (stepToRow cs ms).
  destruct (insert ConfirmedStepRow.id (stepToRow cs ms) (confirmed_steps (data w)))
    as [l|e] eqn:E; simpl; [|discriminate].
  intros [= <-]. apply insert_Ok in E. destruct E as [-> Hfresh].
  split; [discriminate|]. exists ms. repeat split; assumption.
Qed.

Lemma rowToConfirmedStep_stepToRow (cs : ConfirmedStep.t) (ms : Z) :
  Date_ok (ConfirmedStep.createdAt cs) ->
  getTime (ConfirmedStep.createdAt cs) = Some ms ->
  rowToConfirmedStep (stepToRow cs ms) = cs.
Proof.
  intros Hok Ht. destruct cs as [i t m sc st d]. unfold rowToConfirmedStep, stepToRow.
  cbn in *. now rewrite (new_Date_getTime d ms Hok Ht).
Qed.

(** X11. [getConfirmedStepsByThreadID] returns every stored step of the
    thread and no other, each once, the most recent first, and without a
    page limit; a step that [addConfirmedStep] has just stored for the
    thread is among them, equal to the record given. The call changes no
    table. *)
Theorem steps_of_thread_newest_first
    (this : SqliteDatabase) (threadID : string) (w : World) :
  db this <> None ->
  exists l,
    fst (getConfirmedStepsByThreadID this threadID w) = Ok l
    /\ Permutation l (map rowToConfirmedStep (steps_of threadID (data w)))
    /\ (forall cs, In cs l -> ConfirmedStep.threadID cs = threadID)
    /\ (forall i j a b ta tb,
          (i < j)%nat -> nth_error l i = Some a -> nth_error l j = Some b ->
          getTime (ConfirmedStep.createdAt a) = Some ta ->
          getTime (ConfirmedStep.createdAt b) = Some tb ->
          tb <= ta)
    /\ (forall cs w0,
          Date_ok (ConfirmedStep.createdAt cs) ->
          ConfirmedStep.threadID cs = threadID ->
          addConfirmedStep this cs w0 = (Ok tt, w) ->
          In cs l)
    /\ data (snd (getConfirmedStepsByThreadID this threadID w)) = data w.
Proof.
  intros Hdb. rewrite getConfirmedStepsByThreadID_eq by exact Hdb. cbn [fst snd data].
  set (sorted := order_by (createdAt_desc ConfirmedStepRow.createdAt)
                   (steps_of threadID (data w))).
  assert (Hperm : Permutation sorted (steps_of threadID (data w)))
    by apply order_by_any_Permutation.
  eexists. split; [reflexivity|]. split_ands; try reflexivity.
  - now apply Permutation_map.
  - intros cs Hcs. apply in_map_iff in Hcs. destruct Hcs as (row & <- & Hin).
    apply (Permutation_in _ Hperm) in Hin. apply filter_In in Hin.
    destruct Hin as [_ E]. now apply String.eqb_eq in E.
  - intros i j a b ta tb Hij Ha Hb Hta Htb.
    rewrite nth_error_map in Ha, Hb.
    destruct (nth_error sorted i) as [ra|] eqn:Era; [|discriminate].
    destruct (nth_error sorted j) as [rb|] eqn:Erb; [|discriminate].
    cbn in Ha, Hb. inversion Ha; inversion Hb; subst a b.
    cbn [rowToConfirmedStep ConfirmedStep.createdAt] in Hta, Htb.
    apply getTime_new_Date in Hta. apply getTime_new_Date in Htb. subst ta tb.
    exact (StronglySorted_nth _ sorted i j ra rb
             (createdAt_desc_sorted ConfirmedStepRow.createdAt _) Hij Era Erb).
  - intros cs w0 Hok Hthread Hadd. apply addConfirmedStep_inv in Hadd.
    destruct Hadd as (_ & ms & Ht & _ & Hdata).
    apply in_map_iff. exists (stepToRow cs ms).
    split; [now apply rowToConfirmedStep_stepToRow|].
    apply (Permutation_in _ (Permutation_sym Hperm)).
    unfold steps_of. rewrite Hdata. cbn [confirmed_steps set_confirmed_steps].
    apply filter_In. split.
    + apply in_or_app. right. now left.
    + cbn [stepToRow ConfirmedStepRow.threadID]. now apply String.eqb_eq.
Qed.

(** Thread t1 of the populated database has the one step s1. *)
Lemma steps_of_thread_newest_first_witness :
  db (fst populated) <> None
  /\ fst (getConfirmedStepsByThreadID (fst populated) "t1" (snd populated))
     = Ok [step_1]
  /\ exists l,
       fst (getConfirmedStepsByThreadID (fst populated) "t1" (snd populated)) = Ok l
       /\ forall cs, In cs l -> ConfirmedStep.threadID cs = "t1".
Proof.
  assert (H1 : db (fst populated) <> None) by discriminate.
  destruct (steps_of_thread_newest_first (fst populated) "t1" (snd populated) H1)
    as (l & Hl & _ & Hthread & _).
  split; [exact H1|]. split; [vm_compute; reflexivity|].
  exists l. split; [exact Hl | exact Hthread].
Defined.

(** ** Files *)




Lemma select_other_id {row : Type} (key : row -> string) (k : string) (r : row)
    (t : list row) :
  key r <> k ->
  select (has_id key k) (t ++ [r]) = select (has_id key k) t.
Proof.
  intros H. unfold select. rewrite filter_app. simpl. unfold has_id at 2.
  apply String.eqb_neq in H. rewrite H. apply List.app_nil_r.
Qed.



(** ** Batches *)






(** ** A damaged row in a listing *)




Lemma limit_offset_whole {A} (limit offset : Z) (l : list A) :
  offset <= 0 ->
  limit < 0 \/ Z.of_nat (List.length l) <= limit ->
  limit_offset limit offset l = l.
Proof.
  intros Ho Hl. unfold limit_offset.
  replace (Z.to_nat offset) with 0%nat by lia. cbn [skipn].
  destruct (limit <? 0) eqn:E; [reflexivity|].
  apply Z.ltb_ge in E. apply firstn_all2. lia.
Qed.



(** ** Ids *)

(** X15. Whatever calls are made, in whatever order and whether they return
    or throw, no table ever holds two rows with the same id: of a data file
    whose ids are unique, the ids are unique after every sequence of calls,
    so that two stored rows with the same id are the same row. *)
Theorem ids_stay_unique (cs : list call) (s : SqliteDatabase * World) :
  keys_unique (data (snd s)) ->
  let d := data (snd (run cs s)) in
  keys_unique d
  /\ (forall a b, In a (chats d) -> In b (chats d) ->
        ChatRow.id a = ChatRow.id b -> a = b)
  /\ (forall a b, In a (messages d) -> In b (messages d) ->
        MessageRow.id a = MessageRow.id b -> a = b)
  /\ (forall a b, In a (confirmed_steps d) -> In b (confirmed_steps d) ->
        ConfirmedStepRow.id a = ConfirmedStepRow.id b -> a = b)
  /\ (forall a b, In a (files d) -> In b (files d) ->
        FileRow.id a = FileRow.id b -> a = b).
Proof.
  intros H d. pose proof (run_keeps_keys cs s H) as Hk. fold d in Hk.
  split; [exact Hk|]. destruct Hk as (Hc & Hm & Hs & Hf). split_ands.
  - intros a b. now apply NoDup_map_inj.
  - intros a b. now apply NoDup_map_inj.
  - intros a b. now apply NoDup_map_inj.
  - intros a b. now apply NoDup_map_inj.
Qed.

(** A new data file, a chat added twice and edited, a file added twice. *)
Lemma ids_stay_unique_witness :
  keys_unique (data new_world)
  /\ keys_unique
       (data (snd (run [ Open; Crud (AddChat chat_1); Crud (AddChat chat_1);
                         Crud (EditChatByID "c1" rename);
                         Crud (AddFile file_a); Crud (AddFile file_a);
                         Close; Crud (AddChat chat_2) ]
                     (constructor "sqlite.db" None, new_world))))
  /\ map ChatRow.id
       (chats (data (snd (run [ Open; Crud (AddChat chat_1); Crud (AddChat chat_1);
                                Crud (EditChatByID "c1" rename);
                                Crud (AddFile file_a); Crud (AddFile file_a);
                                Close; Crud (AddChat chat_2) ]
                            (constructor "sqlite.db" None, new_world)))))
     = ["c1"].
Proof.
  assert (H : keys_unique (data (snd (constructor "sqlite.db" None, new_world))))
    by (repeat split; apply NoDup_nil).
  split; [exact H|]. split.
  - exact (proj1 (ids_stay_unique
                    [ Open; Crud (AddChat chat_1); Crud (AddChat chat_1);
                      Crud (EditChatByID "c1" rename);
                      Crud (AddFile file_a); Crud (AddFile file_a);
                      Close; Crud (AddChat chat_2) ]
                    (constructor "sqlite.db" None, new_world) H)).
  - vm_compute. reflexivity.
Defined.

(** ** Edits that change nothing *)

Lemma updated_row_none (r : ChatRow.t) : updated_row None None None r = r.
Proof. now destruct r. Qed.

Lemma map_update_same (g : ChatRow.t -> ChatRow.t) (k : string) (t : list ChatRow.t) :
  (forall r, g r = r) ->
  map (fun r => if has_id ChatRow.id k r then g r else r) t = t.
Proof.
  intros H. induction t as [|r t IH]; simpl; [reflexivity|].
  rewrite IH, H. now destruct (has_id ChatRow.id k r).
Qed.

Lemma map_update_ids (g : ChatRow.t -> ChatRow.t) (k : string) (t : list ChatRow.t) :
  (forall r, ChatRow.id (g r) = ChatRow.id r) ->
  map ChatRow.id (map (fun r => if has_id ChatRow.id k r then g r else r) t)
  = map ChatRow.id t.
Proof.
  intros H. rewrite map_map. apply map_ext. intros r.
  destruct (has_id ChatRow.id k r); [apply H | reflexivity].
Qed.

(** X16. [editChatByID] never changes an id, nor the number or the order of
    the stored chats, whatever [id] the partial record carries. With a
    partial record that gives no name, no creator and no date, or a date
    that is an Invalid Date, it changes nothing at all and returns what
    [getChatByID] returns. *)
Theorem edit_without_fields_changes_nothing
    (this : SqliteDatabase) (id : string) (updated : PartialChat.t) (w : World) :
  db this <> None ->
  let r := editChatByID this id updated w in
  map ChatRow.id (chats (data (snd r))) = map ChatRow.id (chats (data w))
  /\ (or_null (PartialChat.name updated) = None ->
      or_null (PartialChat.creatorID updated) = None ->
      (forall d, PartialChat.createdAt updated = val d -> getTime d = None) ->
      data (snd r) = data w /\ fst r = fst (getChatByID this id w)).
Proof.
  intros Hdb r. subst r.
  destruct (editChatByID_eq this id updated w Hdb) as [Hret Hdata].
  cbv zeta in Hret, Hdata. rewrite Hret, Hdata. cbn [chats set_chats]. split.
  - apply map_update_ids. intros row. reflexivity.
  - intros Hn Hc Hd. rewrite Hn, Hc.
    assert (E : match PartialChat.createdAt updated with
                | val d => getTime d
                | undefined | null => None
                end = None).
    { destruct (PartialChat.createdAt updated) as [| |d]; try reflexivity.
      now apply Hd. }
    rewrite E. split.
    + rewrite map_update_same by apply updated_row_none. apply set_chats_same.
    + rewrite getChatByID_eq by exact Hdb. cbn [fst].
      destruct (hd_error (select (has_id ChatRow.id id) (chats (data w))))
        as [r|]; cbn [option_map]; [|reflexivity].
      now rewrite updated_row_none.
Qed.

(** An edit of chat c1 to an Invalid Date leaves the chat as it is. *)
Lemma edit_without_fields_changes_nothing_witness :
  db (fst populated) <> None
  /\ or_null (PartialChat.name redate_invalid) = None
  /\ or_null (PartialChat.creatorID redate_invalid) = None
  /\ (forall d, PartialChat.createdAt redate_invalid = val d -> getTime d = None)
  /\ data (snd (editChatByID (fst populated) "c1" redate_invalid (snd populated)))
     = data (snd populated)
  /\ fst (editChatByID (fst populated) "c1" redate_invalid (snd populated))
     = Ok (Some chat_1).
Proof.
  assert (H1 : db (fst populated) <> None) by discriminate.
  assert (H2 : or_null (PartialChat.name redate_invalid) = None) by reflexivity.
  assert (H3 : or_null (PartialChat.creatorID redate_invalid) = None) by reflexivity.
  assert (H4 : forall d, PartialChat.createdAt redate_invalid = val d ->
                         getTime d = None)
    by (intros d [= <-]; reflexivity).
  destruct (edit_without_fields_changes_nothing (fst populated) "c1" redate_invalid
              (snd populated) H1) as [_ Hsame].
  destruct (Hsame H2 H3 H4) as [Hdata Hret].
  split_ands; assumption.
Defined.

(** ** Invalid dates *)

(** X17. A record whose [createdAt] is an Invalid Date is never stored: its
    time value reaches the engine as NULL, the NOT NULL column refuses it,
    and [addChat], [addMessage], [addConfirmedStep] and [addFile] throw the
    engine's error (a ConstraintError) and leave every table as it was,
    whether the id is free or not. *)
Theorem invalid_date_is_not_stored
    (this : SqliteDatabase) (w : World) (chat : Chat.t) (msg : Message.t)
    (cs : ConfirmedStep.t) (file : FileMeta.t) :
  db this <> None ->
  getTime (Chat.createdAt chat) = None ->
  getTime (Message.createdAt msg) = None ->
  getTime (ConfirmedStep.createdAt cs) = None ->
  getTime (FileMeta.createdAt file) = None ->
  kind_of (SqliteError "SQLITE_CONSTRAINT_NOTNULL") = Some ConstraintError
  /\ fst (addChat this chat w) = Throw (SqliteError "SQLITE_CONSTRAINT_NOTNULL")
  /\ data (snd (addChat this chat w)) = data w
  /\ fst (addMessage this msg w) = Throw (SqliteError "SQLITE_CONSTRAINT_NOTNULL")
  /\ data (snd (addMessage this msg w)) = data w
  /\ fst (addConfirmedStep this cs w) = Throw (SqliteError "SQLITE_CONSTRAINT_NOTNULL")
  /\ data (snd (addConfirmedStep this cs w)) = data w
  /\ fst (addFile this file w) = Throw (SqliteError "SQLITE_CONSTRAINT_NOTNULL")
  /\ data (snd (addFile this file w)) = data w.
Proof.
  intros Hdb Hc Hm Hs Hf.
  unfold addChat, addMessage, addConfirmedStep, addFile, if_db.
  destruct (db this) as [c|]; [clear Hdb|contradiction].
  unfold execute, stmts.addChat, stmts.addMessage, stmts.addConfirmedStep,
    stmts.addFile, not_null, bind_number.
  rewrite Hc, Hm, Hs, Hf. split_ands; reflexivity.
Qed.

(** Records dated [new Date(NaN)] are refused by the populated database. *)
Lemma invalid_date_is_not_stored_witness :
  db (fst populated) <> None
  /\ getTime (Chat.createdAt undated_chat) = None
  /\ getTime (Message.createdAt undated_message) = None
  /\ getTime (ConfirmedStep.createdAt undated_step) = None
  /\ getTime (FileMeta.createdAt undated_file) = None
  /\ fst (addChat (fst populated) undated_chat (snd populated))
     = Throw (SqliteError "SQLITE_CONSTRAINT_NOTNULL")
  /\ fst (addMessage (fst populated) undated_message (snd populated))
     = Throw (SqliteError "SQLITE_CONSTRAINT_NOTNULL")
  /\ data (snd (addFile (fst populated) undated_file (snd populated)))
     = data (snd populated).
Proof.
  assert (H1 : db (fst populated) <> None) by discriminate.
  assert (H2 : getTime (Chat.createdAt undated_chat) = None) by reflexivity.
  assert (H3 : getTime (Message.createdAt undated_message) = None) by reflexivity.
  assert (H4 : getTime (ConfirmedStep.createdAt undated_step) = None) by reflexivity.
  assert (H5 : getTime (FileMeta.createdAt undated_file) = None) by reflexivity.
  destruct (invalid_date_is_not_stored (fst populated) (snd populated) undated_chat
              undated_message undated_step undated_file H1 H2 H3 H4 H5)
    as (_ & Hc & _ & Hm & _ & _ & _ & _ & Hf).
  split_ands; assumption.
Defined.

(** ** The fallback of the deletes *)

Lemma deleteChatByID_log (this : SqliteDatabase) (id : string) (w : World) :
  db this <> None ->
  log (snd (deleteChatByID this id w))
  = if returning w then prepared "deleteChatByID" :: log w
    else match hd_error (select (has_id ChatRow.id id) (chats (data w))) with
         | Some _ => dynamic "DELETE FROM chats WHERE id = ?"
                     :: prepared "getChatByID" :: prepared "deleteChatByID" :: log w
         | None => prepared "getChatByID" :: prepared "deleteChatByID" :: log w
         end.
Proof.
  intros Hdb. unfold deleteChatByID, getChatByID, if_db.
  destruct (db this); [|contradiction].
  unfold try_catch, bind, execute, ret, stmts.deleteChatByID, stmts.getChatByID,
    sql.delete_chat.
  destruct (returning w); cbn; [reflexivity|].
  destruct (hd_error (select (has_id ChatRow.id id) (chats (data w))));
    reflexivity.
Qed.

Lemma deleteFileByID_log (this : SqliteDatabase) (id : string) (w : World) :
  db this <> None ->
  log (snd (deleteFileByID this id w))
  = if returning w then prepared "deleteFileByID" :: log w
    else match hd_error (select (has_id FileRow.id id) (files (data w))) with
         | Some _ => dynamic "DELETE FROM files WHERE id = ?"
                     :: prepared "getFileByID" :: prepared "deleteFileByID" :: log w
         | None => prepared "getFileByID" :: prepared "deleteFileByID" :: log w
         end.
Proof.
  intros Hdb. unfold deleteFileByID, getFileByID, if_db.
  destruct (db this); [|contradiction].
  unfold try_catch, bind, execute, ret, stmts.deleteFileByID, stmts.getFileByID,
    sql.delete_file.
  destruct (returning w); cbn; [reflexivity|].
  destruct (hd_error (select (has_id FileRow.id id) (files (data w))));
    reflexivity.
Qed.

(** X18. When the prepared [DELETE ... RETURNING] throws as it is run,
    [deleteChatByID] and [deleteFileByID] fall back on a SELECT and a plain
    DELETE, and the caller sees no difference: the same record or [null] is
    returned and the same tables are left as when the statement is served.
    The fallback sends the plain DELETE only when the SELECT found the
    record. *)
Theorem fallback_agrees_with_returning
    (this : SqliteDatabase) (id : string) (w : World) :
  db this <> None ->
  let old := without_returning w in
  let new := with_returning w in
  fst (deleteChatByID this id old) = fst (deleteChatByID this id new)
  /\ data (snd (deleteChatByID this id old)) = data (snd (deleteChatByID this id new))
  /\ fst (deleteFileByID this id old) = fst (deleteFileByID this id new)
  /\ data (snd (deleteFileByID this id old)) = data (snd (deleteFileByID this id new))
  /\ log (snd (deleteChatByID this id new)) = prepared "deleteChatByID" :: log w
  /\ log (snd (deleteFileByID this id new)) = prepared "deleteFileByID" :: log w
  /\ (In id (map ChatRow.id (chats (data w))) ->
      log (snd (deleteChatByID this id old))
      = dynamic "DELETE FROM chats WHERE id = ?"
        :: prepared "getChatByID" :: prepared "deleteChatByID" :: log w)
  /\ (~ In id (map ChatRow.id (chats (data w))) ->
      log (snd (deleteChatByID this id old))
      = prepared "getChatByID" :: prepared "deleteChatByID" :: log w)
  /\ (In id (map FileRow.id (files (data w))) ->
      log (snd (deleteFileByID this id old))
      = dynamic "DELETE FROM files WHERE id = ?"
        :: prepared "getFileByID" :: prepared "deleteFileByID" :: log w)
  /\ (~ In id (map FileRow.id (files (data w))) ->
      log (snd (deleteFileByID this id old))
      = prepared "getFileByID" :: prepared "deleteFileByID" :: log w).
Proof.
  intros Hdb old new. subst old new.
  destruct (deleteChatByID_eq this id (without_returning w) Hdb) as [Ec1 Ec2].
  destruct (deleteChatByID_eq this id (with_returning w) Hdb) as [Ec3 Ec4].
  destruct (deleteFileByID_eq this id (without_returning w) Hdb) as [Ef1 Ef2].
  destruct (deleteFileByID_eq this id (with_returning w) Hdb) as [Ef3 Ef4].
  rewrite Ec1, Ec2, Ec3, Ec4, Ef1, Ef2, Ef3, Ef4.
  rewrite !deleteChatByID_log, !deleteFileByID_log by exact Hdb.
  cbn [without_returning with_returning data returning log].
  split_ands; try reflexivity.
  - intros Hin. destruct (select_present_some ChatRow.id id _ Hin) as [r ->].
    reflexivity.
  - intros Hout. now rewrite (select_absent ChatRow.id) by exact Hout.
  - intros Hin. destruct (select_present_some FileRow.id id _ Hin) as [r ->].
    reflexivity.
  - intros Hout. now rewrite (select_absent FileRow.id) by exact Hout.
Qed.

(** File a is deleted from the populated database through the fallback. *)
Lemma fallback_agrees_with_returning_witness :
  db (fst populated) <> None
  /\ fst (deleteFileByID (fst populated) "a" (without_returning (snd populated)))
     = Ok (Some file_a)
  /\ fst (deleteFileByID (fst populated) "a" (with_returning (snd populated)))
     = Ok (Some file_a)
  /\ data (snd (deleteFileByID (fst populated) "a"
                  (without_returning (snd populated))))
     = data (snd (deleteFileByID (fst populated) "a"
                    (with_returning (snd populated)))).
Proof.
  assert (H1 : db (fst populated) <> None) by discriminate.
  destruct (fallback_agrees_with_returning (fst populated) "a" (snd populated) H1)
    as (_ & _ & Hf & Hd & _).
  split; [exact H1|]. split; [vm_compute; reflexivity|].
  split; [rewrite <- Hf; vm_compute; reflexivity | exact Hd].
Defined.

(** ** What an insert adds to the listings *)

Lemma Forall2_In_l {A B} (P : A -> B -> Prop) (l : list A) (l' : list B) (a : A) :
  Forall2 P l l' -> In a l -> exists b, In b l' /\ P a b.
Proof.
  induction 1 as [|x y l l' Hxy _ IH]; intros Hin; [destruct Hin|].
  destruct Hin as [->|Hin].
  - exists y. split; [now left | exact Hxy].
  - destruct (IH Hin) as (b & Hb & Hab). exists b. split; [now right | exact Hab].
Qed.

Lemma filter_last {A} (p : A -> bool) (l : list A) (x : A) :
  filter p (l ++ [x]) = (filter p l ++ (if p x then [x] else []))%list.
Proof. rewrite filter_app. reflexivity. Qed.

(** X19. A chat that [addChat] has stored counts: the number of chats of
    its creator grows by one and the unlimited listing of the creator holds
    the chat, equal to the record given; the counts of the other creators,
    what [getChatByID] returns for the other ids and the other tables stay
    as they were. *)
Theorem added_chat_is_counted
    (this : SqliteDatabase) (chat : Chat.t) (w w1 : World) :
  Date_ok (Chat.createdAt chat) ->
  addChat this chat w = (Ok tt, w1) ->
  (exists n,
     fst (countChatsByCreatorID this (Chat.creatorID chat) w) = Ok n
     /\ fst (countChatsByCreatorID this (Chat.creatorID chat) w1) = Ok (n + 1))
  /\ (exists l,
        fst (getChatsByCreatorID this (Chat.creatorID chat) None (Some (-1)) w1) = Ok l
        /\ In chat l)
  /\ (forall other, other <> Chat.creatorID chat ->
        fst (countChatsByCreatorID this other w1)
        = fst (countChatsByCreatorID this other w))
  /\ (forall id, id <> Chat.id chat ->
        fst (getChatByID this id w1) = fst (getChatByID this id w))
  /\ messages (data w1) = messages (data w)
  /\ confirmed_steps (data w1) = confirmed_steps (data w)
  /\ files (data w1) = files (data w).
Proof.
  intros Hok Hadd. apply addChat_inv in Hadd.
  destruct Hadd as (Hdb & ms & Ht & Hfresh & Hdata).
  assert (Hchats : chats (data w1) = (chats (data w) ++ [chatToRow chat ms])%list)
    by now rewrite Hdata.
  assert (Hof : chats_of (Chat.creatorID chat) (data w1)
                = (chats_of (Chat.creatorID chat) (data w) ++ [chatToRow chat ms])%list).
  { unfold chats_of. rewrite Hchats, filter_last.
    cbn [chatToRow ChatRow.creatorID]. now rewrite String.eqb_refl. }
  split_ands; try (now rewrite Hdata).
  - rewrite !countChatsByCreatorID_eq by exact Hdb. cbn [fst].
    eexists. split; [reflexivity|]. rewrite Hof, length_app. cbn [List.length].
    f_equal. lia.
  - rewrite getChatsByCreatorID_eq by exact Hdb. cbn [fst default].
    rewrite limit_offset_all. eexists. split; [reflexivity|].
    apply in_map_iff. exists (chatToRow chat ms).
    split; [now apply rowToChat_chatToRow|].
    apply (Permutation_in _ (Permutation_sym (order_by_any_Permutation _ _))).
    rewrite Hof. apply in_or_app. right. now left.
  - intros other Hother. rewrite !countChatsByCreatorID_eq by exact Hdb. cbn [fst].
    unfold chats_of. rewrite Hchats, filter_last.
    cbn [chatToRow ChatRow.creatorID].
    assert (E : (Chat.creatorID chat =? other)%string = false)
      by (apply String.eqb_neq; congruence).
    now rewrite E, List.app_nil_r.
  - intros id Hid. rewrite !getChatByID_eq by exact Hdb. cbn [fst].
    rewrite Hchats, select_other_id; [reflexivity|].
    cbn [chatToRow ChatRow.id]. congruence.
Qed.

(** Chat c2 is added after c1: creator u1 then has two chats. *)
Lemma added_chat_is_counted_witness :
  Date_ok (Chat.createdAt chat_2)
  /\ exists w1,
       addChat (fst populated) chat_2 (snd populated) = (Ok tt, w1)
       /\ fst (countChatsByCreatorID (fst populated) "u1" (snd populated)) = Ok 1
       /\ fst (countChatsByCreatorID (fst populated) "u1" w1) = Ok 2
       /\ exists l,
            fst (getChatsByCreatorID (fst populated) "u1" None (Some (-1)) w1) = Ok l
            /\ In chat_2 l.
Proof.
  assert (H1 : Date_ok (Chat.createdAt chat_2)) by (vm_compute; intuition discriminate).
  split; [exact H1|].
  exists (snd (addChat (fst populated) chat_2 (snd populated))).
  assert (H2 : addChat (fst populated) chat_2 (snd populated)
               = (Ok tt, snd (addChat (fst populated) chat_2 (snd populated))))
    by (vm_compute; reflexivity).
  destruct (added_chat_is_counted (fst populated) chat_2 (snd populated) _ H1 H2)
    as ((n & Hn & Hn1) & Hl & _).
  assert (E : n = 1) by (vm_compute in Hn; now injection Hn).
  subst n. split_ands; assumption.
Defined.

Lemma getMessageByID_other (this : SqliteDatabase) (id : string) (row : MessageRow.t)
    (w w1 : World) :
  db this <> None ->
  messages (data w1) = (messages (data w) ++ [row])%list ->
  MessageRow.id row <> id ->
  fst (getMessageByID this id w1) = fst (getMessageByID this id w).
Proof.
  intros Hdb Hm Hid. rewrite !getMessageByID_eq by exact Hdb.
  now rewrite Hm, select_other_id.
Qed.

(** X20. A message that [addMessage] has stored is listed: a page of
    [getMessagesByChatID] that holds all the messages of its chat has one
    message more than the chat had and holds the message as
    [getMessageByID] returns it, and so does every batch of
    [getMessagesByIDs] asked for its id. The listings of the other chats,
    what [getMessageByID] returns for the other ids and the other tables
    stay as they were. *)
Theorem added_message_is_listed
    (this : SqliteDatabase) (msg : Message.t) (w w1 : World) :
  Date_ok (Message.createdAt msg) ->
  JSON.json_ok (Message.body msg) = true ->
  (forall v, Message.replyRestriction msg = val v -> JSON.json_ok v = true) ->
  addMessage this msg w = (Ok tt, w1) ->
  (forall offset limit l,
     default 0 offset <= 0 ->
     default 100 limit < 0
     \/ Z.of_nat (List.length (messages_of (Message.chatID msg) (data w)))
        < default 100 limit ->
     fst (getMessagesByChatID this (Message.chatID msg) offset limit w1) = Ok l ->
     In (stored_and_read msg) l
     /\ List.length l = S (List.length (messages_of (Message.chatID msg) (data w))))
  /\ (forall ids l,
        In (Message.id msg) ids ->
        fst (getMessagesByIDs this ids w1) = Ok l ->
        In (stored_and_read msg) l)
  /\ (forall other offset limit, other <> Message.chatID msg ->
        fst (getMessagesByChatID this other offset limit w1)
        = fst (getMessagesByChatID this other offset limit w))
  /\ (forall id, id <> Message.id msg ->
        fst (getMessageByID this id w1) = fst (getMessageByID this id w))
  /\ chats (data w1) = chats (data w)
  /\ confirmed_steps (data w1) = confirmed_steps (data w)
  /\ files (data w1) = files (data w).
Proof.
  intros Hok Hbody Hrestr Hadd. apply addMessage_inv in Hadd.
  destruct Hadd as (Hdb & ms & Ht & Hfresh & Hdata).
  set (row := messageToRow msg ms) in *.
  assert (Hrow : rowToMessage row = Ok (stored_and_read msg))
    by now apply rowToMessage_messageToRow.
  assert (Hmsgs : messages (data w1) = (messages (data w) ++ [row])%list)
    by now rewrite Hdata.
  assert (Hof : messages_of (Message.chatID msg) (data w1)
                = (messages_of (Message.chatID msg) (data w) ++ [row])%list).
  { unfold messages_of. rewrite Hmsgs, filter_last.
    cbn [row messageToRow MessageRow.chatID]. now rewrite String.eqb_refl. }
  assert (Hfound : forall rows l,
             In row rows -> map_result rowToMessage rows = Ok l ->
             In (stored_and_read msg) l).
  { intros rows l Hin Hl. apply map_result_Forall2 in Hl.
    destruct (Forall2_In_l _ rows l row Hl Hin) as (m & Hm & Em).
    rewrite Hrow in Em. injection Em as <-. exact Hm. }
  split_ands; try (now rewrite Hdata).
  - intros offset limit l Ho Hlim. rewrite getMessagesByChatID_eq by exact Hdb.
    cbn [fst].
    set (sorted := order_by (createdAt_desc_id_desc MessageRow.id MessageRow.createdAt)
                     (messages_of (Message.chatID msg) (data w1))).
    assert (Hperm : Permutation sorted (messages_of (Message.chatID msg) (data w1)))
      by apply order_by_any_Permutation.
    assert (Hlen : List.length sorted
                   = S (List.length (messages_of (Message.chatID msg) (data w)))).
    { rewrite (Permutation_length Hperm), Hof, length_app. cbn [List.length]. lia. }
    rewrite (limit_offset_whole (default 100 limit) (default 0 offset) sorted Ho)
      by (rewrite Hlen; lia).
    intros Hl. split.
    + apply (Hfound sorted l); [|exact Hl].
      apply (Permutation_in _ (Permutation_sym Hperm)). rewrite Hof.
      apply in_or_app. right. now left.
    + apply map_result_Forall2, Forall2_length in Hl. now rewrite <- Hl.
  - intros ids l Hids. rewrite getMessagesByIDs_eq by exact Hdb.
    apply Hfound. apply filter_In. split.
    + rewrite Hmsgs. apply in_or_app. right. now left.
    + apply id_in_true. exact Hids.
  - intros other offset limit Hother.
    rewrite !getMessagesByChatID_eq by exact Hdb. cbn [fst].
    unfold messages_of. rewrite Hmsgs, filter_last.
    cbn [row messageToRow MessageRow.chatID].
    assert (E : (Message.chatID msg =? other)%string = false)
      by (apply String.eqb_neq; congruence).
    now rewrite E, List.app_nil_r.
  - intros id Hid. apply (getMessageByID_other this id row w w1 Hdb Hmsgs).
    cbn [row messageToRow MessageRow.id]. congruence.
Qed.

(** Message m4 is added to chat c1, which then lists four messages, m4
    among them. *)
Lemma added_message_is_listed_witness :
  Date_ok (Message.createdAt message_4)
  /\ JSON.json_ok (Message.body message_4) = true
  /\ (forall v, Message.replyRestriction message_4 = val v -> JSON.json_ok v = true)
  /\ exists w1 l,
       addMessage (fst populated) message_4 (snd populated) = (Ok tt, w1)
       /\ fst (getMessagesByChatID (fst populated) "c1" None None w1) = Ok l
       /\ In (stored_and_read message_4) l
       /\ List.length l = 4%nat
       /\ map Message.id l = ["m3"; "m4"; "m2"; "m1"].
Proof.
  assert (H1 : Date_ok (Message.createdAt message_4))
    by (vm_compute; intuition discriminate).
  assert (H2 : JSON.json_ok (Message.body message_4) = true) by reflexivity.
  assert (H3 : forall v, Message.replyRestriction message_4 = val v ->
                         JSON.json_ok v = true)
    by (intros v [= <-]; reflexivity).
  split; [exact H1|]. split; [exact H2|]. split; [exact H3|].
  exists (snd (addMessage (fst populated) message_4 (snd populated))).
  assert (H4 : addMessage (fst populated) message_4 (snd populated)
               = (Ok tt, snd (addMessage (fst populated) message_4 (snd populated))))
    by (vm_compute; reflexivity).
  destruct (added_message_is_listed (fst populated) message_4 (snd populated) _
              H1 H2 H3 H4) as (Hpage & _).
  destruct (fst (getMessagesByChatID (fst populated) "c1" None None
                   (snd (addMessage (fst populated) message_4 (snd populated)))))
    as [l|e] eqn:El; [|vm_compute in El; discriminate].
  exists l.
  assert (H5 : default 0 None <= 0) by (simpl; lia).
  assert (H6 : default 100 None < 0
               \/ Z.of_nat (List.length
                              (messages_of (Message.chatID message_4)
                                 (data (snd populated))))
                  < default 100 None) by (right; vm_compute; reflexivity).
  destruct (Hpage None None l H5 H6 El) as [Hin Hlen].
  split; [exact H4|]. split; [reflexivity|]. split; [exact Hin|].
  split; [exact Hlen|]. vm_compute in El. injection El as <-. reflexivity.
Defined.

(** ** The text of the statements built at the call *)

Lemma count_char_append (c : ascii) (a b : string) :
  count_char c (a ++ b) = (count_char c a + count_char c b)%nat.
Proof. induction a as [|x a IH]; simpl; [reflexivity | rewrite IH; lia]. Qed.

Lemma placeholders_length (ids ids' : list string) :
  List.length ids = List.length ids' -> placeholders ids = placeholders ids'.
Proof.
  unfold placeholders. intros H. f_equal. revert ids' H.
  induction ids as [|x ids IH]; intros [|y ids'] H; try discriminate;
    [reflexivity|].
  simpl. f_equal. apply IH. now injection H.
Qed.

Lemma placeholders_marks (ids : list string) :
  count_char "?" (placeholders ids) = List.length ids
  /\ count_char "," (placeholders ids) = pred (List.length ids).
Proof.
  unfold placeholders. induction ids as [|x ids IH]; [split; reflexivity|].
  destruct ids as [|y ids]; [split; reflexivity|].
  destruct IH as [IH1 IH2].
  change (Str.join "," (map (fun _ : string => "?") (x :: y :: ids)))
    with ("?" ++ "," ++ Str.join "," (map (fun _ : string => "?") (y :: ids))).
  rewrite !count_char_append, IH1, IH2. split; reflexivity.
Qed.

(** X21. The ids of a batch are bound as parameters and never written into
    the statement: the text sent by [getMessagesByIDs] and [getFilesByIDs]
    depends on the number of ids only, and holds one question mark for each
    id, separated by commas. *)
Theorem ids_are_bound_not_spliced
    (this : SqliteDatabase) (ids ids' : list string) (w : World) :
  List.length ids = List.length ids' ->
  placeholders ids = placeholders ids'
  /\ count_char "?" (placeholders ids) = List.length ids
  /\ count_char "," (placeholders ids) = pred (List.length ids)
  /\ log (snd (getMessagesByIDs this ids w)) = log (snd (getMessagesByIDs this ids' w))
  /\ log (snd (getFilesByIDs this ids w)) = log (snd (getFilesByIDs this ids' w))
  /\ (db this <> None -> ids <> [] ->
      log (snd (getMessagesByIDs this ids w))
      = dynamic ("SELECT * FROM messages WHERE id IN (" ++ placeholders ids ++ ")")
        :: log w
      /\ log (snd (getFilesByIDs this ids w))
         = dynamic ("SELECT * FROM files WHERE id IN (" ++ placeholders ids ++ ")")
           :: log w).
Proof.
  intros Hlen. pose proof (placeholders_length ids ids' Hlen) as Hp.
  destruct (placeholders_marks ids) as [Hq Hc].
  split; [exact Hp|]. split; [exact Hq|]. split; [exact Hc|].
  unfold getMessagesByIDs, getFilesByIDs, if_db.
  destruct (db this) as [c|].
  - destruct ids as [|i ids]; destruct ids' as [|i' ids']; try discriminate.
    + split_ands; try reflexivity. intros _ H. now destruct H.
    + unfold bind, execute, sql.select_messages_in, sql.select_files_in, lift, ret.
      cbn [fst snd log]. rewrite Hp. split_ands; try reflexivity.
      intros _ _. split; reflexivity.
  - split_ands; try reflexivity. intros H. now destruct H.
Qed.

(** Two batches of three ids are sent as the same text, with three marks. *)
Lemma ids_are_bound_not_spliced_witness :
  List.length ["a"; "b"; "c"] = List.length ["x'); DROP TABLE files; --"; "y"; "z"]
  /\ placeholders ["x'); DROP TABLE files; --"; "y"; "z"] = "?,?,?"
  /\ log (snd (getFilesByIDs (fst populated) ["x'); DROP TABLE files; --"; "y"; "z"]
                 (snd populated)))
     = dynamic "SELECT * FROM files WHERE id IN (?,?,?)" :: log (snd populated).
Proof.
  assert (H1 : List.length ["a"; "b"; "c"]
               = List.length ["x'); DROP TABLE files; --"; "y"; "z"]) by reflexivity.
  destruct (ids_are_bound_not_spliced (fst populated) ["a"; "b"; "c"]
              ["x'); DROP TABLE files; --"; "y"; "z"] (snd populated) H1)
    as (Hp & _ & _ & _ & Hlog & _).
  split; [exact H1|]. split; [now rewrite <- Hp|].
  rewrite <- Hlog. reflexivity.
Defined.
